(** * server.js: an OpenAI-style front for the NVIDIA NIM chat API

    A shallow embedding of [src/server.js] and of the JavaScript built-ins
    it calls, followed by the properties of its model resolver, request
    translator, stream reassembler, frame rewriter and error forwarding.

    Conventions.
    - A JavaScript string is the list of its UTF-16 code units ([jsstring]).
    - A JavaScript number is an IEEE 754 binary64 value, taken from the
      standard library's [spec_float] at precision 53 and [emax] 1024.
    - A JavaScript object is the list of its own properties in enumeration
      order; arrays are lists of elements.
    - Exceptions are explicit: fallible code returns [result]. *)

From Stdlib Require Import ZArith NArith List Bool Ascii String Lia.
From Stdlib Require Import Floats.SpecFloat.
Import ListNotations.

Local Open Scope Z_scope.

(** ** Strings *)

Module JSString.

Definition jsstring := list N.

(** A source-text literal; every literal of server.js is ASCII. *)
Definition str (s : string) : jsstring :=
  map N_of_ascii (list_ascii_of_string s).

Fixpoint eqb (a b : jsstring) : bool :=
  match a, b with
  | [], [] => true
  | c :: a', d :: b' => N.eqb c d && eqb a' b'
  | _, _ => false
  end.

(** [s.startsWith(p)] *)
Fixpoint startsWith (s p : jsstring) : bool :=
  match p, s with
  | [], _ => true
  | c :: p', d :: s' => N.eqb c d && startsWith s' p'
  | _ :: _, [] => false
  end.

(** [s.includes(p)] *)
Fixpoint includes (s p : jsstring) : bool :=
  startsWith s p ||
  match s with
  | [] => false
  | _ :: s' => includes s' p
  end.

(** [s.slice(n)] for a non-negative [n] *)
Definition slice (n : nat) (s : jsstring) : jsstring := skipn n s.

(** [s.split(sep)] for a separator of one code unit, as in
    [buffer.split("\n")]; the result is never empty. *)
Fixpoint split (sep : N) (s : jsstring) : list jsstring :=
  match s with
  | [] => [[]]
  | c :: s' =>
      if N.eqb c sep then [] :: split sep s'
      else match split sep s' with
           | [] => [[c]]
           | l :: ls => (c :: l) :: ls
           end
  end.

(** [a.join(sep)] on strings *)
Fixpoint join (sep : jsstring) (l : list jsstring) : jsstring :=
  match l with
  | [] => []
  | [x] => x
  | x :: rest => x ++ sep ++ join sep rest
  end.

(** [s.toLowerCase()].  The ASCII capitals map to their small letters.
    Two code units outside ASCII have a lowercase form that contains an
    ASCII letter: U+0130 becomes "i" followed by U+0307, and U+212A (the
    Kelvin sign) becomes "k".  Every other code unit outside ASCII has a
    lowercase form outside ASCII; it is kept as it is, which leaves
    [includes] of an ASCII pattern unchanged. *)
Definition lower_unit (c : N) : jsstring :=
  if (65 <=? c)%N && (c <=? 90)%N then [(c + 32)%N]
  else if N.eqb c 304 then [105%N; 775%N]
  else if N.eqb c 8490 then [107%N]
  else [c].

Definition toLowerCase (s : jsstring) : jsstring := flat_map lower_unit s.

(** Decimal digits of a non-negative integer, most significant first. *)
Fixpoint digits_fuel (fuel : nat) (n : Z) (acc : jsstring) : jsstring :=
  match fuel with
  | O => acc
  | S fuel' =>
      let acc' := N.of_nat (Z.to_nat (48 + n mod 10)) :: acc in
      if n <? 10 then acc' else digits_fuel fuel' (n / 10) acc'
  end.

Definition digits (n : Z) : jsstring :=
  digits_fuel (S (Z.to_nat (Z.log2 n))) n [].

(** The integer a string of decimal digits denotes. *)
Definition decimal_value (s : jsstring) : Z :=
  fold_left (fun a d => 10 * a + (Z.of_N d - 48)) s 0.

(** The decimal rendering of an integer, as a template literal or
    [String] renders an integral number below 10^21. *)
Definition of_Z (n : Z) : jsstring :=
  if n <? 0 then 45%N :: digits (- n) else digits n.

End JSString.

Export JSString.

(** ** Numbers *)

Module JSNumber.

Definition number := spec_float.

Definition prec : Z := 53.
Definition emax : Z := 1024.

Definition NaN : number := S754_nan.
Definition Infinity (neg : bool) : number := S754_infinity neg.

(** The number nearest to an integer (ties to even). *)
Definition of_Z (z : Z) : number := binary_normalize prec emax z 0 false.

(** The number nearest to [m * 10^e] for a natural [m]: the value of a
    decimal literal with sign [neg]. *)
Definition of_decimal (neg : bool) (m e : Z) : number :=
  match m with
  | Z0 => S754_zero neg
  | Zpos p =>
      if 0 <=? e then
        match Zpos p * 10 ^ e with
        | Zpos q => binary_round prec emax neg q 0
        | _ => NaN
        end
      else
        match 10 ^ (- e) with
        | Zpos d =>
            SFdiv prec emax (S754_finite neg p 0) (S754_finite false d 0)
        | _ => NaN
        end
  | Zneg _ => NaN
  end.

(** [Number.isFinite] on a number *)
Definition isFinite (x : number) : bool :=
  match x with
  | S754_zero _ | S754_finite _ _ _ => true
  | S754_infinity _ | S754_nan => false
  end.

Definition isNaN (x : number) : bool :=
  match x with S754_nan => true | _ => false end.

(** [x === y] on numbers: NaN differs from itself, the zeros are equal. *)
Definition eqb (x y : number) : bool := SFeqb x y.

(** Same datum (sign, mantissa and exponent). *)
Definition same (x y : number) : bool :=
  match x, y with
  | S754_zero a, S754_zero b => Bool.eqb a b
  | S754_infinity a, S754_infinity b => Bool.eqb a b
  | S754_nan, S754_nan => true
  | S754_finite a m e, S754_finite b n f =>
      Bool.eqb a b && Pos.eqb m n && Z.eqb e f
  | _, _ => false
  end.

(** ToBoolean on a number: false for the zeros and NaN. *)
Definition truthy (x : number) : bool :=
  match x with
  | S754_zero _ | S754_nan => false
  | _ => true
  end.

(** *** Number::toString, radix 10

    For a positive finite [x] the digits are the shortest decimal [s],
    of [k] digits, and the exponent [n] with [s * 10^(n-k)] rounding to
    [x]; among several [s] the nearest to [x] is taken. *)

Definition ndigits (z : Z) : Z := Z.of_nat (List.length (JSString.digits z)).

Fixpoint first_scale (fuel : nat) (num den j : Z) : Z :=
  match fuel with
  | O => j
  | S fuel' =>
      if den <=? num * 10 ^ j then j else first_scale fuel' num den (j + 1)
  end.

(** The [n] with [10^(n-1) <= num/den < 10^n]. *)
Definition decimal_exponent (num den : Z) : Z :=
  if den <=? num then ndigits (num / den)
  else 1 - first_scale 400 num den 1.

Definition shortest_at (x : number) (num den n k : Z) : option (Z * Z) :=
  let p := n - k in
  let N := if 0 <=? p then num else num * 10 ^ (- p) in
  let D := if 0 <=? p then den * 10 ^ p else den in
  let lo := N / D in
  let hi := lo + 1 in
  let ok_lo := same (of_decimal false lo p) x in
  let ok_hi := same (of_decimal false hi p) x in
  let up := if hi =? 10 ^ k then (10 ^ (k - 1), n + 1) else (hi, n) in
  match ok_lo, ok_hi with
  | true, true =>
      match 2 * N ?= (2 * lo + 1) * D with
      | Lt => Some (lo, n)
      | Gt => Some up
      | Eq => if Z.even lo then Some (lo, n) else Some up
      end
  | true, false => Some (lo, n)
  | false, true => Some up
  | false, false => None
  end.

Fixpoint shortest (fuel : nat) (x : number) (num den n k : Z) : Z * Z :=
  match fuel with
  | O => (0, n)
  | S fuel' =>
      match shortest_at x num den n k with
      | Some r => r
      | None => shortest fuel' x num den n (k + 1)
      end
  end.

Definition zeros (n : Z) : jsstring := repeat 48%N (Z.to_nat n).

Definition render (s n : Z) : jsstring :=
  let ds := JSString.digits s in
  let k := Z.of_nat (List.length ds) in
  if (k <=? n) && (n <=? 21) then ds ++ zeros (n - k)
  else if (0 <? n) && (n <=? 21) then
    firstn (Z.to_nat n) ds ++ str "." ++ skipn (Z.to_nat n) ds
  else if (-6 <? n) && (n <=? 0) then str "0." ++ zeros (- n) ++ ds
  else
    let e := n - 1 in
    let es := str (if e <? 0 then "-" else "+") ++ JSString.digits (Z.abs e) in
    match ds with
    | [] => []
    | [d] => d :: str "e" ++ es
    | d :: rest => d :: str "." ++ rest ++ str "e" ++ es
    end.

Definition finite_toString (m : positive) (e : Z) : jsstring :=
  let num := if 0 <=? e then Zpos m * 2 ^ e else Zpos m in
  let den := if 0 <=? e then 1 else 2 ^ (- e) in
  let n := decimal_exponent num den in
  let '(s, n') := shortest 21 (S754_finite false m e) num den n 1 in
  render s n'.

(** A finite datum is first brought to its canonical form. *)
Definition toString (x : number) : jsstring :=
  match x with
  | S754_nan => str "NaN"
  | S754_zero _ => str "0"
  | S754_infinity neg => str (if neg then "-Infinity" else "Infinity")
  | S754_finite neg m e =>
      (if neg then str "-" else [])
      ++ match binary_round prec emax false m e with
         | S754_finite _ m' e' => finite_toString m' e'
         | S754_zero _ => str "0"
         | _ => str "Infinity"
         end
  end.

(** *** StringToNumber and parseInt *)

(** White space and line terminators of the string grammar. *)
Definition is_space (c : N) : bool :=
  existsb (N.eqb c)
    [9; 10; 11; 12; 13; 32; 160; 5760; 8232; 8233; 8239; 8287; 12288; 65279]%N
  || ((8192 <=? c) && (c <=? 8202))%N.

Fixpoint trimStart (s : jsstring) : jsstring :=
  match s with
  | c :: s' => if is_space c then trimStart s' else s
  | [] => []
  end.

Definition trim (s : jsstring) : jsstring :=
  rev (trimStart (rev (trimStart s))).

(** The value of a digit in a radix up to 16, if it is one. *)
Definition digit_value (radix : Z) (c : N) : option Z :=
  let c := Z.of_N c in
  let v := if (48 <=? c) && (c <=? 57) then c - 48
           else if (97 <=? c) && (c <=? 102) then c - 87
           else if (65 <=? c) && (c <=? 70) then c - 55
           else 99 in
  if v <? radix then Some v else None.

(** The longest prefix of digits: its value from [acc], the number of
    digits read, and the rest. *)
Fixpoint read_digits (radix : Z) (s : jsstring) (acc : Z) (count : Z)
  : Z * Z * jsstring :=
  match s with
  | c :: s' =>
      match digit_value radix c with
      | Some v => read_digits radix s' (acc * radix + v) (count + 1)
      | None => (acc, count, s)
      end
  | [] => (acc, count, [])
  end.

Definition read_sign (s : jsstring) : bool * jsstring :=
  match s with
  | c :: s' =>
      if N.eqb c 45 then (true, s')
      else if N.eqb c 43 then (false, s')
      else (false, s)
  | [] => (false, [])
  end.

(** An exponent part, or nothing; [None] when an "e" is not followed by
    digits. *)
Definition read_exponent (s : jsstring) : option (Z * jsstring) :=
  match s with
  | c :: s' =>
      if N.eqb c 101 || N.eqb c 69 then
        let '(neg, s1) := read_sign s' in
        let '(v, count, rest) := read_digits 10 s1 0 0 in
        if count =? 0 then None
        else Some (if neg then - v else v, rest)
      else Some (0, s)
  | [] => Some (0, [])
  end.

(** An unsigned decimal literal that must span all of [s]. *)
Definition unsigned_decimal (neg : bool) (s : jsstring) : number :=
  let '(ip, ic, s1) := read_digits 10 s 0 0 in
  let '(fp, fc, s2) :=
    match s1 with
    | 46%N :: s1' => read_digits 10 s1' ip 0
    | _ => (ip, 0, s1)
    end in
  if (ic + fc =? 0) then NaN
  else
    match read_exponent s2 with
    | Some (e, []) => of_decimal neg fp (e - fc)
    | _ => NaN
    end.

Definition radix_literal (radix : Z) (s : jsstring) : number :=
  let '(v, count, rest) := read_digits radix s 0 0 in
  match rest with
  | [] => if count =? 0 then NaN else of_Z v
  | _ => NaN
  end.

(** StringToNumber: the value of a string under unary [+] and [Number]. *)
Definition ofString (s : jsstring) : number :=
  match trim s with
  | [] => S754_zero false
  | 48%N :: 120%N :: t | 48%N :: 88%N :: t => radix_literal 16 t
  | 48%N :: 111%N :: t | 48%N :: 79%N :: t => radix_literal 8 t
  | 48%N :: 98%N :: t | 48%N :: 66%N :: t => radix_literal 2 t
  | t =>
      let '(neg, u) := read_sign t in
      if JSString.eqb u (str "Infinity") then Infinity neg
      else unsigned_decimal neg u
  end.

(** [parseInt(s, 10)] on a string. *)
Definition parseInt10 (s : jsstring) : number :=
  let '(neg, u) := read_sign (trimStart s) in
  let '(v, count, _) := read_digits 10 u 0 0 in
  if count =? 0 then NaN else of_decimal neg v 0.

End JSNumber.

Export JSNumber.

(** ** Values, coercions and exceptions *)

Module JSValue.

(** What [Object.prototype] hands to a property read that misses the
    object's own properties: one of its methods, or itself for
    [__proto__]. *)
Inductive builtin :=
| ObjectPrototype
| NativeFunction (name : string).

#[warnings="-register-all"]
Inductive value :=
| VUndefined
| VNull
| VBool (b : bool)
| VNum (n : number)
| VStr (s : jsstring)
| VArr (elems : list value)
| VObj (props : list (jsstring * value))
| VBuiltin (b : builtin).

(** The TypeErrors the engine can raise in server.js. *)
Inductive fault :=
| NotPrimitive
| ReadOfNullish (base : value) (prop : string)
| NotAFunction (callee : string).

Inductive exn :=
| TypeError (f : fault)
| AxiosError (message : value) (response_status : option Z).

Inductive result (A : Type) :=
| Ok (a : A)
| Throw (e : exn).

Arguments Ok {A} a.
Arguments Throw {A} e.

Definition bind {A B} (r : result A) (k : A -> result B) : result B :=
  match r with
  | Ok a => k a
  | Throw e => Throw e
  end.

Notation "x <- r ;; k" := (bind r (fun x => k))
  (at level 61, r at next level, right associativity).

(** ToBoolean *)
Definition truthy (v : value) : bool :=
  match v with
  | VUndefined | VNull => false
  | VBool b => b
  | VNum n => JSNumber.truthy n
  | VStr s => match s with [] => false | _ => true end
  | VArr _ | VObj _ | VBuiltin _ => true
  end.

(** [a || b] *)
Definition or_else (a b : value) : value := if truthy a then a else b.

Definition typeof (v : value) : string :=
  match v with
  | VUndefined => "undefined"
  | VNull => "object"
  | VBool _ => "boolean"
  | VNum _ => "number"
  | VStr _ => "string"
  | VArr _ | VObj _ => "object"
  | VBuiltin ObjectPrototype => "object"
  | VBuiltin (NativeFunction _) => "function"
  end.

Definition isArray (v : value) : bool :=
  match v with VArr _ => true | _ => false end.

(** *** Own properties *)

Fixpoint lookup (k : jsstring) (ps : list (jsstring * value)) : value :=
  match ps with
  | [] => VUndefined
  | (k', v) :: ps' => if JSString.eqb k k' then v else lookup k ps'
  end.

Fixpoint has (k : jsstring) (ps : list (jsstring * value)) : bool :=
  match ps with
  | [] => false
  | (k', _) :: ps' => JSString.eqb k k' || has k ps'
  end.

(** The array index a property key denotes, if it is the canonical
    decimal form of an integer below 2^32 - 1. *)
Definition array_index (k : jsstring) : option Z :=
  let '(v, count, rest) := JSNumber.read_digits 10 k 0 0 in
  match rest with
  | [] =>
      if (0 <? count) && JSString.eqb (JSString.of_Z v) k && (v <? 4294967295)
      then Some v else None
  | _ => None
  end.

(** A new property in enumeration order: index keys ascending, then the
    other keys in order of creation. *)
Fixpoint insert_new (k : jsstring) (v : value) (ps : list (jsstring * value))
  : list (jsstring * value) :=
  match ps with
  | [] => [(k, v)]
  | (k', v') :: ps' =>
      match array_index k, array_index k' with
      | Some i, Some j =>
          if i <? j then (k, v) :: ps else (k', v') :: insert_new k v ps'
      | Some _, None => (k, v) :: ps
      | None, _ => (k', v') :: insert_new k v ps'
      end
  end.

Fixpoint replace (k : jsstring) (v : value) (ps : list (jsstring * value))
  : list (jsstring * value) :=
  match ps with
  | [] => []
  | (k', v') :: ps' =>
      if JSString.eqb k k' then (k', v) :: ps' else (k', v') :: replace k v ps'
  end.

(** [o.k = v] on the own properties of an ordinary object. *)
Definition set (k : jsstring) (v : value) (ps : list (jsstring * value))
  : list (jsstring * value) :=
  if has k ps then replace k v ps else insert_new k v ps.

(** [delete o.k] *)
Fixpoint delete (k : jsstring) (ps : list (jsstring * value))
  : list (jsstring * value) :=
  match ps with
  | [] => []
  | (k', v) :: ps' =>
      if JSString.eqb k k' then delete k ps' else (k', v) :: delete k ps'
  end.

(** [v?.k] for a property name that no built-in prototype defines, as
    are all the names server.js reads with a dot (model, messages,
    temperature, max_tokens, stream, choices, delta, content,
    reasoning_content, message, role, index, finish_reason, usage):
    the own property of an object, undefined on anything else. *)
Definition own (v : value) (k : jsstring) : value :=
  match v with
  | VObj ps => lookup k ps
  | _ => VUndefined
  end.

Definition opt_member (v : value) (k : string) : value := own v (str k).

(** [v.k] for such a name: reading from null or undefined throws. *)
Definition member (v : value) (k : string) : result value :=
  match v with
  | VUndefined | VNull => Throw (TypeError (ReadOfNullish v k))
  | _ => Ok (opt_member v k)
  end.

(** [v?.[0]] *)
Definition opt_first (v : value) : value :=
  match v with
  | VArr l => nth 0 l VUndefined
  | VObj ps => lookup (str "0") ps
  | VStr (c :: _) => VStr [c]
  | _ => VUndefined
  end.

(** The properties every ordinary object inherits. *)
Definition object_prototype_functions : list string :=
  ["constructor"; "__defineGetter__"; "__defineSetter__"; "hasOwnProperty";
   "__lookupGetter__"; "__lookupSetter__"; "isPrototypeOf";
   "propertyIsEnumerable"; "toString"; "valueOf"; "toLocaleString"]%string.

Definition inherited (k : jsstring) : value :=
  if JSString.eqb k (str "__proto__") then VBuiltin ObjectPrototype
  else
    match find (fun n => JSString.eqb k (str n)) object_prototype_functions with
    | Some n => VBuiltin (NativeFunction n)
    | None => VUndefined
    end.

(** [o[k]] on an object literal, for any key: the own property, else
    what the prototype chain gives. *)
Definition get (ps : list (jsstring * value)) (k : jsstring) : value :=
  if has k ps then lookup k ps else inherited k.

(** *** ToString, ToNumber, parseInt *)

Definition native_source (n : string) : jsstring :=
  str "function " ++ str n ++ str "() { [native code] }".

(** ToString.  An array joins its elements with commas, null and
    undefined elements giving the empty string.  An ordinary object gives
    "[object Object]" through the inherited [toString]; when an own
    property hides that method no conversion yields a primitive and a
    TypeError is thrown. *)
Fixpoint ToString (v : value) : result jsstring :=
  match v with
  | VUndefined => Ok (str "undefined")
  | VNull => Ok (str "null")
  | VBool b => Ok (str (if b then "true" else "false"))
  | VNum n => Ok (JSNumber.toString n)
  | VStr s => Ok s
  | VArr l =>
      parts <- (fix each (l : list value) : result (list jsstring) :=
                  match l with
                  | [] => Ok []
                  | x :: rest =>
                      sx <- match x with
                            | VUndefined | VNull => Ok []
                            | _ => ToString x
                            end ;;
                      srest <- each rest ;;
                      Ok (sx :: srest)
                  end) l ;;
      Ok (JSString.join (str ",") parts)
  | VObj ps =>
      if has (str "toString") ps then Throw (TypeError NotPrimitive)
      else Ok (str "[object Object]")
  | VBuiltin ObjectPrototype => Ok (str "[object Object]")
  | VBuiltin (NativeFunction n) => Ok (native_source n)
  end.

(** ToNumber, the unary [+]. *)
Definition ToNumber (v : value) : result number :=
  match v with
  | VUndefined => Ok NaN
  | VNull => Ok (S754_zero false)
  | VBool b => Ok (JSNumber.of_Z (if b then 1 else 0))
  | VNum n => Ok n
  | VStr s => Ok (JSNumber.ofString s)
  | VArr _ | VObj _ | VBuiltin _ =>
      s <- ToString v ;; Ok (JSNumber.ofString s)
  end.

(** [parseInt(v, 10)] *)
Definition parseInt (v : value) : result number :=
  s <- ToString v ;; Ok (JSNumber.parseInt10 s).

(** [Number.isFinite(v)]: no coercion. *)
Definition Number_isFinite (v : value) : bool :=
  match v with
  | VNum n => JSNumber.isFinite n
  | _ => false
  end.

(** [a + b] when [a] is a string: concatenation with ToString of [b]. *)
Definition string_plus (a : jsstring) (b : value) : result jsstring :=
  sb <- ToString b ;; Ok (a ++ sb).

(** [v === w] against a primitive [w]. *)
Definition strict_equal (v w : value) : bool :=
  match v, w with
  | VUndefined, VUndefined | VNull, VNull => true
  | VBool a, VBool b => Bool.eqb a b
  | VNum a, VNum b => JSNumber.eqb a b
  | VStr a, VStr b => JSString.eqb a b
  | _, _ => false
  end.

End JSValue.

Export JSValue.

(** ** JSON.parse and JSON.stringify *)

Module JSON.

Definition is_ws (c : N) : bool :=
  N.eqb c 32 || N.eqb c 9 || N.eqb c 10 || N.eqb c 13.

Fixpoint skip_ws (s : jsstring) : jsstring :=
  match s with
  | c :: s' => if is_ws c then skip_ws s' else s
  | [] => []
  end.

Definition hex4 (a b c d : N) : option N :=
  match JSNumber.digit_value 16 a, JSNumber.digit_value 16 b,
        JSNumber.digit_value 16 c, JSNumber.digit_value 16 d with
  | Some x, Some y, Some z, Some w =>
      Some (Z.to_N (((x * 16 + y) * 16 + z) * 16 + w))
  | _, _, _, _ => None
  end.

Definition escape (e : N) : option N :=
  if N.eqb e 34 then Some 34%N
  else if N.eqb e 92 then Some 92%N
  else if N.eqb e 47 then Some 47%N
  else if N.eqb e 98 then Some 8%N
  else if N.eqb e 102 then Some 12%N
  else if N.eqb e 110 then Some 10%N
  else if N.eqb e 114 then Some 13%N
  else if N.eqb e 116 then Some 9%N
  else None.

Definition push (u : option N) (r : option (jsstring * jsstring))
  : option (jsstring * jsstring) :=
  match u, r with
  | Some c, Some (t, rest) => Some (c :: t, rest)
  | _, _ => None
  end.

(** The characters of a string literal after its opening quote, up to
    the closing one. *)
Fixpoint read_string (s : jsstring) : option (jsstring * jsstring) :=
  match s with
  | [] => None
  | c :: rest =>
      if N.eqb c 34 then Some ([], rest)
      else if N.eqb c 92 then
        match rest with
        | [] => None
        | e :: rest1 =>
            if N.eqb e 117 then
              match rest1 with
              | a :: b :: c' :: d :: rest2 =>
                  push (hex4 a b c' d) (read_string rest2)
              | _ => None
              end
            else push (escape e) (read_string rest1)
        end
      else if (c <? 32)%N then None
      else push (Some c) (read_string rest)
  end.

(** A number literal at the head of [s]. *)
Definition read_number (s : jsstring) : option (number * jsstring) :=
  let '(neg, s0) :=
    match s with
    | c :: s' => if N.eqb c 45 then (true, s') else (false, s)
    | [] => (false, [])
    end in
  let '(ip, ic, s1) :=
    match s0 with
    | c :: s' => if N.eqb c 48 then (0, 1, s')
                 else JSNumber.read_digits 10 s0 0 0
    | [] => (0, 0, [])
    end in
  if ic =? 0 then None
  else
    let frac :=
      match s1 with
      | c :: s' =>
          if N.eqb c 46 then
            let '(fp, fc, s2) := JSNumber.read_digits 10 s' ip 0 in
            if fc =? 0 then None else Some (fp, fc, s2)
          else Some (ip, 0, s1)
      | [] => Some (ip, 0, [])
      end in
    match frac with
    | None => None
    | Some (fp, fc, s2) =>
        match JSNumber.read_exponent s2 with
        | Some (e, rest) => Some (JSNumber.of_decimal neg fp (e - fc), rest)
        | None => None
        end
    end.

Definition read_word (w : string) (v : value) (s : jsstring)
  : option (value * jsstring) :=
  if JSString.startsWith s (str w)
  then Some (v, skipn (String.length w) s) else None.

(** What the descent gives: a value and the rest of the text, a syntax
    error, or no answer for want of fuel. *)
Inductive parsed :=
| Parsed (v : value) (rest : jsstring)
| SyntaxError
| OutOfFuel.

Definition of_option (o : option (value * jsstring)) : parsed :=
  match o with
  | Some (v, r) => Parsed v r
  | None => SyntaxError
  end.

(** Recursive descent; every call reads a code unit before it recurses,
    and [fuel] bounds the depth of the calls. *)
Fixpoint parse_value (fuel : nat) (s : jsstring) : parsed :=
  match fuel with
  | O => OutOfFuel
  | S fuel' =>
      match skip_ws s with
      | [] => SyntaxError
      | c :: r =>
          if N.eqb c 123 then
            match skip_ws r with
            | [] => SyntaxError
            | c' :: r' =>
                if N.eqb c' 125 then Parsed (VObj []) r'
                else parse_members fuel' (c' :: r') []
            end
          else if N.eqb c 91 then
            match skip_ws r with
            | [] => SyntaxError
            | c' :: r' =>
                if N.eqb c' 93 then Parsed (VArr []) r'
                else parse_elements fuel' (c' :: r') []
            end
          else if N.eqb c 34 then
            match read_string r with
            | Some (t, r') => Parsed (VStr t) r'
            | None => SyntaxError
            end
          else if N.eqb c 116 then
            of_option (read_word "true" (VBool true) (c :: r))
          else if N.eqb c 102 then
            of_option (read_word "false" (VBool false) (c :: r))
          else if N.eqb c 110 then
            of_option (read_word "null" VNull (c :: r))
          else
            match read_number (c :: r) with
            | Some (n, r') => Parsed (VNum n) r'
            | None => SyntaxError
            end
      end
  end

with parse_elements (fuel : nat) (s : jsstring) (acc : list value) : parsed :=
  match fuel with
  | O => OutOfFuel
  | S fuel' =>
      match parse_value fuel' s with
      | Parsed v r =>
          match skip_ws r with
          | [] => SyntaxError
          | c :: r' =>
              if N.eqb c 44 then parse_elements fuel' r' (v :: acc)
              else if N.eqb c 93 then Parsed (VArr (rev (v :: acc))) r'
              else SyntaxError
          end
      | failure => failure
      end
  end

with parse_members (fuel : nat) (s : jsstring) (acc : list (jsstring * value))
  : parsed :=
  match fuel with
  | O => OutOfFuel
  | S fuel' =>
      match skip_ws s with
      | [] => SyntaxError
      | q :: r =>
          if N.eqb q 34 then
            match read_string r with
            | None => SyntaxError
            | Some (k, r1) =>
                match skip_ws r1 with
                | [] => SyntaxError
                | c :: r2 =>
                    if N.eqb c 58 then
                      match parse_value fuel' r2 with
                      | Parsed v r3 =>
                          match skip_ws r3 with
                          | [] => SyntaxError
                          | c' :: r4 =>
                              if N.eqb c' 44 then
                                parse_members fuel' r4 (JSValue.set k v acc)
                              else if N.eqb c' 125 then
                                Parsed (VObj (JSValue.set k v acc)) r4
                              else SyntaxError
                          end
                      | failure => failure
                      end
                    else SyntaxError
                end
            end
          else SyntaxError
      end
  end.

Definition enough (s : jsstring) : nat := 2 * List.length s + 2.

(** [JSON.parse(s)]; [None] stands for the SyntaxError.  The fuel given
    is never used up. *)
Definition parse (s : jsstring) : option value :=
  match parse_value (enough s) s with
  | Parsed v r => match skip_ws r with [] => Some v | _ => None end
  | _ => None
  end.

Definition hex_digit (v : N) : N := if (v <? 10)%N then (48 + v)%N else (87 + v)%N.

Definition escape_unit (c : N) : jsstring :=
  str "\u" ++ [hex_digit (c / 4096); hex_digit ((c / 256) mod 16);
               hex_digit ((c / 16) mod 16); hex_digit (c mod 16)]%N.

Definition is_high (c : N) : bool := ((55296 <=? c) && (c <=? 56319))%N.
Definition is_low (c : N) : bool := ((56320 <=? c) && (c <=? 57343))%N.

Definition quote_unit (c : N) : jsstring :=
  match c with
  | 8%N => str "\b"
  | 9%N => str "\t"
  | 10%N => str "\n"
  | 12%N => str "\f"
  | 13%N => str "\r"
  | 34%N => [92; 34]%N
  | 92%N => str "\\"
  | _ => if (c <? 32)%N || is_high c || is_low c then escape_unit c else [c]
  end.

Fixpoint quote_units (s : jsstring) : jsstring :=
  match s with
  | [] => []
  | h :: ((l :: rest) as tl) =>
      if is_high h && is_low l then h :: l :: quote_units rest
      else quote_unit h ++ quote_units tl
  | [c] => quote_unit c
  end.

(** QuoteJSONString *)
Definition quote (s : jsstring) : jsstring := 34%N :: quote_units s ++ [34%N].

(** [JSON.stringify(v)]; [None] stands for the result undefined, which
    is also what drops a property and turns an array element into null. *)
Fixpoint stringify (v : value) : option jsstring :=
  match v with
  | VUndefined => None
  | VBuiltin (NativeFunction _) => None
  | VBuiltin ObjectPrototype => Some (str "{}")
  | VNull => Some (str "null")
  | VBool b => Some (str (if b then "true" else "false"))
  | VNum n => Some (if JSNumber.isFinite n then JSNumber.toString n else str "null")
  | VStr s => Some (quote s)
  | VArr l =>
      let parts := (fix each (l : list value) : list jsstring :=
                      match l with
                      | [] => []
                      | x :: rest =>
                          match stringify x with
                          | Some t => t
                          | None => str "null"
                          end :: each rest
                      end) l in
      Some (str "[" ++ JSString.join (str ",") parts ++ str "]")
  | VObj ps =>
      let parts := (fix each (ps : list (jsstring * value)) : list jsstring :=
                      match ps with
                      | [] => []
                      | (k, x) :: rest =>
                          match stringify x with
                          | Some t => (quote k ++ str ":" ++ t) :: each rest
                          | None => each rest
                          end
                      end) ps in
      Some (str "{" ++ JSString.join (str ",") parts ++ str "}")
  end.

(** [`${JSON.stringify(v)}`] *)
Definition stringify_text (v : value) : jsstring :=
  match stringify v with
  | Some t => t
  | None => str "undefined"
  end.

End JSON.

(** ** Buffer.toString("utf8") *)

Module Utf8.

Definition replacement : N := 65533.

Record decoder := {
  needed : N;
  seen : N;
  code_point : N;
  lower : N;
  upper : N }.

Definition idle : decoder :=
  {| needed := 0; seen := 0; code_point := 0; lower := 128; upper := 191 |}.

(** The UTF-16 code units of a code point. *)
Definition units (cp : N) : jsstring :=
  if (cp <? 65536)%N then [cp]
  else [(55296 + (cp - 65536) / 1024)%N; (56320 + (cp - 65536) mod 1024)%N].

(** A byte met when no sequence is open. *)
Definition lead (b : N) : decoder * jsstring :=
  if (b <=? 127)%N then (idle, [b])
  else if ((194 <=? b) && (b <=? 223))%N then
    ({| needed := 1; seen := 0; code_point := N.land b 31;
        lower := 128; upper := 191 |}, [])
  else if ((224 <=? b) && (b <=? 239))%N then
    ({| needed := 2; seen := 0; code_point := N.land b 15;
        lower := if N.eqb b 224 then 160 else 128;
        upper := if N.eqb b 237 then 159 else 191 |}, [])
  else if ((240 <=? b) && (b <=? 244))%N then
    ({| needed := 3; seen := 0; code_point := N.land b 7;
        lower := if N.eqb b 240 then 144 else 128;
        upper := if N.eqb b 244 then 143 else 191 |}, [])
  else (idle, [replacement]).

(** One byte: an ill-formed sequence gives U+FFFD for its maximal
    well-formed prefix and the offending byte is read again. *)
Definition step (d : decoder) (b : N) : decoder * jsstring :=
  if N.eqb (needed d) 0 then lead b
  else if ((lower d <=? b) && (b <=? upper d))%N then
    let cp := N.lor (N.shiftl (code_point d) 6) (N.land b 63) in
    if N.eqb (seen d + 1) (needed d) then (idle, units cp)
    else ({| needed := needed d; seen := seen d + 1; code_point := cp;
             lower := 128; upper := 191 |}, [])
  else
    let '(d', out) := lead b in (d', replacement :: out).

Fixpoint run (d : decoder) (bytes : list N) : jsstring :=
  match bytes with
  | [] => if N.eqb (needed d) 0 then [] else [replacement]
  | b :: rest => let '(d', out) := step d b in out ++ run d' rest
  end.

(** The decoder after [bytes], and what it has given by then. *)
Fixpoint final (d : decoder) (bytes : list N) : decoder :=
  match bytes with
  | [] => d
  | b :: rest => final (fst (step d b)) rest
  end.

Fixpoint emitted (d : decoder) (bytes : list N) : jsstring :=
  match bytes with
  | [] => []
  | b :: rest => let '(d', out) := step d b in out ++ emitted d' rest
  end.

(** [bytes] end between two characters. *)
Definition aligned (bytes : list N) : Prop := needed (final idle bytes) = 0%N.

(** [chunk.toString("utf8")]: every chunk is decoded on its own. *)
Definition toString (bytes : list N) : jsstring := run idle bytes.

End Utf8.

(** ** server.js *)

Module Server.

Definition nl : jsstring := [10%N].

(** *** Config (lines 11-29) *)

Record config := {
  NIM_API_BASE : jsstring;
  (** [process.env.NIM_API_KEY]: a string, or undefined. *)
  NIM_API_KEY : value;
  FORCE_NO_STREAM : bool;
  SHOW_REASONING : bool;
  ENABLE_THINKING_MODE : bool;
  AXIOS_TIMEOUT_MS : number }.

(** The constants as the source sets them, for an environment that gives
    only the key: both reasoning toggles are [false] in server.js. *)
Definition source_config (key : value) : config :=
  {| NIM_API_BASE := str "https://integrate.api.nvidia.com/v1";
     NIM_API_KEY := key;
     FORCE_NO_STREAM := false;
     SHOW_REASONING := false;
     ENABLE_THINKING_MODE := false;
     AXIOS_TIMEOUT_MS := JSNumber.of_Z 600000 |}.

(** *** Model mapping (lines 32-40) *)

Definition MODEL_MAPPING : list (jsstring * value) :=
  [ (str "gpt-3.5-turbo", VStr (str "nvidia/llama-3.1-nemotron-ultra-253b-v1"));
    (str "gpt-4", VStr (str "qwen/qwen3-coder-480b-a35b-instruct"));
    (str "gpt-4-turbo", VStr (str "moonshotai/kimi-k2-instruct-0905"));
    (str "gpt-4o", VStr (str "moonshotai/kimi-k2-instruct-0905"));
    (str "claude-3-opus", VStr (str "openai/gpt-oss-120b"));
    (str "claude-3-sonnet", VStr (str "openai/gpt-oss-20b"));
    (str "gemini-pro", VStr (str "qwen/qwen3-next-80b-a3b-thinking")) ].

(** *** Helpers (lines 66-79) *)

Definition tier_405b : jsstring := str "meta/llama-3.1-405b-instruct".
Definition tier_70b : jsstring := str "meta/llama-3.1-70b-instruct".
Definition tier_8b : jsstring := str "meta/llama-3.1-8b-instruct".

Definition pickFallbackModel (requestedModel : value) : result jsstring :=
  s <- ToString (or_else requestedModel (VStr [])) ;;
  let modelLower := toLowerCase s in
  if includes modelLower (str "405b") || includes modelLower (str "gpt-4")
     || includes modelLower (str "opus")
  then Ok tier_405b
  else if includes modelLower (str "70b") || includes modelLower (str "sonnet")
          || includes modelLower (str "gemini")
  then Ok tier_70b
  else Ok tier_8b.

Definition toBool (v : value) : bool :=
  strict_equal v (VBool true) || strict_equal v (VStr (str "true"))
  || strict_equal v (VNum (JSNumber.of_Z 1)) || strict_equal v (VStr (str "1")).

(** [MODEL_MAPPING[model] || pickFallbackModel(model)] (line 143) *)
Definition nimModel (model : value) : result value :=
  key <- ToString model ;;
  let mapped := JSValue.get MODEL_MAPPING key in
  if truthy mapped then Ok mapped
  else (fallback <- pickFallbackModel model ;; Ok (VStr fallback)).

(** *** The upstream call and the response *)

Record nimRequest := {
  nr_model : value;
  nr_messages : value;
  nr_temperature : number;
  nr_max_tokens : number;
  nr_stream : bool;
  (** [extra_body], set only under [ENABLE_THINKING_MODE] *)
  nr_extra_body : option value }.

(** The arguments of [axios.post] (lines 159-169). *)
Record upstream_call := {
  call_url : jsstring;
  call_body : nimRequest;
  call_authorization : jsstring;
  call_responseType : string;
  call_timeout : number }.

(** How a live upstream body finishes: "end" or "error". *)
Inductive closing := StreamEnd | StreamError.

(** [upstream.data]: a buffered body as axios hands it over (parsed JSON,
    or the text when it is not JSON), or a live stream of byte chunks. *)
Inductive upstream_data :=
| Buffered (v : value)
| Live (chunks : list (list N)) (fin : closing).

Record upstream_response := {
  status : Z;
  data : upstream_data }.

(** What the handler does not decide: the upstream and its transport,
    the clock, and the text the engine puts in a TypeError. *)
Record world := {
  axios_post : upstream_call -> result upstream_response;
  Date_now : nat -> Z;
  engine_message : fault -> jsstring }.

(** The argument of [res.json]: a value, or the live stream object
    itself, whose bytes were not read. *)
Inductive json_body :=
| BodyValue (v : value)
| BodyStreamObject.

Inductive response :=
| Json (code : Z) (body : json_body)
| EventStream (headers : list (string * string)) (writes : list jsstring)
              (ended : bool).

Definition error_envelope (message : value) (type : string) (code : Z) : value :=
  VObj [ (str "error",
          VObj [ (str "message", message);
                 (str "type", VStr (str type));
                 (str "code", VNum (JSNumber.of_Z code)) ]) ].

(** *** Streaming path (lines 188-257) *)

Definition think_open : jsstring := str "<think>" ++ nl.
Definition think_close : jsstring := str "</think>" ++ nl ++ nl.

(** [a + s] for a string [s]. *)
Definition plus_string (a : value) (s : jsstring) : result jsstring :=
  sa <- ToString a ;; Ok (sa ++ s).

(** Lines 220-233: the merged text and the flag after it.  The flag is
    assigned after the concatenation of its branch, so a conversion that
    throws leaves it as the previous branch set it.  Where [combined +=
    content] is reached [combined] is the empty string, so that [+] is a
    concatenation there as well. *)
Definition merge (started : bool) (reasoning content : value)
  : bool * result value :=
  let '(started1, combined1) :=
    if truthy reasoning && negb started then
      match string_plus think_open reasoning with
      | Ok c => (true, Ok (VStr c))
      | Throw e => (started, Throw e)
      end
    else if truthy reasoning then (started, Ok reasoning)
    else (started, Ok (VStr [])) in
  match combined1 with
  | Throw e => (started1, Throw e)
  | Ok combined =>
      if truthy content && started1 then
        match (tail <- string_plus think_close content ;;
               plus_string combined tail) with
        | Ok c => (false, Ok (VStr c))
        | Throw e => (started1, Throw e)
        end
      else if truthy content then
        match (tail <- ToString content ;; plus_string combined tail) with
        | Ok c => (started1, Ok (VStr c))
        | Throw e => (started1, Throw e)
        end
      else (started1, Ok combined)
  end.

(** [o.k = v], [delete o.k] on what [delta] may be.  Only an ordinary
    object changes: an array gets a named property that JSON.stringify
    does not print, and on a primitive the assignment does nothing (the
    file is not in strict mode). *)
Definition assign (o : value) (k : string) (v : value) : value :=
  match o with
  | VObj ps => VObj (JSValue.set (str k) v ps)
  | _ => o
  end.

Definition remove (o : value) (k : string) : value :=
  match o with
  | VObj ps => VObj (JSValue.delete (str k) ps)
  | _ => o
  end.

(** Lines 215-240 on [delta]. *)
Definition rewrite_delta (cfg : config) (started : bool) (delta : value)
  : bool * result value :=
  let reasoning := opt_member delta "reasoning_content" in
  let content := opt_member delta "content" in
  let '(started', merged) :=
    if SHOW_REASONING cfg then
      match merge started reasoning content with
      | (s, Ok combined) =>
          (s, Ok (if truthy combined then assign delta "content" combined
                  else delta))
      | (s, Throw e) => (s, Throw e)
      end
    else (started, Ok delta) in
  match merged with
  | Throw e => (started', Throw e)
  | Ok delta1 =>
      let delta2 := remove delta1 "reasoning_content" in
      (started',
       Ok (if truthy (opt_member delta2 "content") then delta2
           else assign delta2 "content" (VStr [])))
  end.

(** [data.choices[0].delta], written back into [data] when the handler
    has changed the object it points to. *)
Definition put_first (choices : value) (c : value) : value :=
  match choices with
  | VArr (_ :: rest) => VArr (c :: rest)
  | VObj ps => VObj (JSValue.replace (str "0") c ps)
  | _ => choices
  end.

Definition put_delta (data delta : value) : value :=
  match data with
  | VObj ps =>
      let choices := lookup (str "choices") ps in
      match opt_first choices with
      | VObj cps =>
          VObj (JSValue.replace (str "choices")
                  (put_first choices
                     (VObj (JSValue.replace (str "delta") delta cps))) ps)
      | _ => data
      end
  | _ => data
  end.

(** [data.choices[0].delta] and its [content]. *)
Definition delta_of (data : value) : value :=
  opt_member (opt_first (opt_member data "choices")) "delta".

Definition content_of (data : value) : value :=
  opt_member (delta_of data) "content".

(** Lines 214-241 on the parsed frame. *)
Definition rewrite (cfg : config) (started : bool) (data : value)
  : bool * result value :=
  let delta := delta_of data in
  if truthy delta then
    match rewrite_delta cfg started delta with
    | (s, Ok delta') => (s, Ok (put_delta data delta'))
    | (s, Throw e) => (s, Throw e)
    end
  else (started, Ok data).

Definition done_frame : jsstring := str "data: [DONE]" ++ nl ++ nl.

Definition data_frame (v : value) : jsstring :=
  str "data: " ++ JSON.stringify_text v ++ nl ++ nl.

(** What a candidate line is taken for (lines 202-211 and 244-246). *)
Inductive frame :=
| Discarded
| TerminationMarker
| DataFrame (payload : value)
| RawText (line : jsstring).

Definition classify (line : jsstring) : frame :=
  if negb (startsWith line (str "data: ")) then Discarded
  else if includes line (str "[DONE]") then TerminationMarker
  else
    match JSON.parse (slice 6 line) with
    | Some data => DataFrame data
    | None => RawText line
    end.

(** The body of the loop over [lines] (lines 202-246): the flag after
    the line and what is written for it.  The [catch] also takes what the
    rewriting throws, and writes the line as it came. *)
Definition on_line (cfg : config) (started : bool) (line : jsstring)
  : bool * list jsstring :=
  match classify line with
  | Discarded => (started, [])
  | TerminationMarker => (started, [done_frame])
  | RawText raw => (started, [raw ++ nl])
  | DataFrame data =>
      match rewrite cfg started data with
      | (s, Ok data') => (s, [data_frame data'])
      | (s, Throw _) => (s, [line ++ nl])
      end
  end.

Fixpoint on_lines (cfg : config) (started : bool) (lines : list jsstring)
  : bool * list jsstring :=
  match lines with
  | [] => (started, [])
  | line :: rest =>
      let '(s1, w1) := on_line cfg started line in
      let '(s2, w2) := on_lines cfg s1 rest in
      (s2, w1 ++ w2)
  end.

Record stream_state := {
  buffer : jsstring;
  reasoningStarted : bool }.

Definition stream_start : stream_state :=
  {| buffer := []; reasoningStarted := false |}.

(** The fragment [lines.pop()] takes off, and the lines that remain. *)
Definition pop (lines : list jsstring) : list jsstring * jsstring :=
  (removelast lines, last lines []).

(** The "data" handler on text already decoded (lines 197-247). *)
Definition on_text (cfg : config) (st : stream_state) (text : jsstring)
  : stream_state * list jsstring :=
  let '(lines, rest) := pop (JSString.split 10 (buffer st ++ text)) in
  let '(started, writes) := on_lines cfg (reasoningStarted st) lines in
  ({| buffer := rest; reasoningStarted := started |}, writes).

(** The "data" handler (line 196). *)
Definition on_data (cfg : config) (st : stream_state) (chunk : list N)
  : stream_state * list jsstring :=
  on_text cfg st (Utf8.toString chunk).

Fixpoint feed (cfg : config) (st : stream_state) (chunks : list (list N))
  : stream_state * list jsstring :=
  match chunks with
  | [] => (st, [])
  | chunk :: rest =>
      let '(st1, w1) := on_data cfg st chunk in
      let '(st2, w2) := feed cfg st1 rest in
      (st2, w1 ++ w2)
  end.

(** The "data" handler over successive decoded texts. *)
Fixpoint feed_text (cfg : config) (st : stream_state) (texts : list jsstring)
  : stream_state * list jsstring :=
  match texts with
  | [] => (st, [])
  | text :: rest =>
      let '(st1, w1) := on_text cfg st text in
      let '(st2, w2) := feed_text cfg st1 rest in
      (st2, w1 ++ w2)
  end.

(** The candidate lines the handler meets over successive texts, from
    the buffer [buf]. *)
Fixpoint reassemble (buf : jsstring) (texts : list jsstring) : list jsstring :=
  match texts with
  | [] => []
  | text :: rest =>
      let '(lines, buf') := pop (JSString.split 10 (buf ++ text)) in
      lines ++ reassemble buf' rest
  end.

Definition candidate_lines (chunks : list (list N)) : list jsstring :=
  reassemble [] (map Utf8.toString chunks).

Definition is_discarded (f : frame) : bool :=
  match f with Discarded => true | _ => false end.

(** The logical frames of a chunk sequence, in order. *)
Definition logical_frames (chunks : list (list N)) : list frame :=
  filter (fun f => negb (is_discarded f)) (map classify (candidate_lines chunks)).

(** The rewriter over successive parsed frames. *)
Fixpoint rewrite_all (cfg : config) (started : bool) (frames : list value)
  : bool * list (result value) :=
  match frames with
  | [] => (started, [])
  | data :: rest =>
      let '(s1, r1) := rewrite cfg started data in
      let '(s2, r2) := rewrite_all cfg s1 rest in
      (s2, r1 :: r2)
  end.

Definition stream_headers : list (string * string) :=
  [ ("Content-Type", "text/event-stream"); ("Cache-Control", "no-cache");
    ("Connection", "keep-alive") ]%string.

Definition forward_stream (cfg : config) (chunks : list (list N)) : response :=
  EventStream stream_headers (snd (feed cfg stream_start chunks)) true.

(** *** Non-streaming path (lines 260-288) *)

(** [upstream.data.k]: a stream object has none of the names read. *)
Definition data_member (d : upstream_data) (k : string) : result value :=
  match d with
  | Buffered v => member v k
  | Live _ _ => Ok VUndefined
  end.

(** The callback of [map] (lines 265-280). *)
Definition convert_choice (cfg : config) (choice : value) (idx : Z)
  : result value :=
  let message := opt_member choice "message" in
  let content := or_else (opt_member message "content") (VStr []) in
  let reasoning := opt_member message "reasoning_content" in
  fullContent <-
    (if SHOW_REASONING cfg && truthy reasoning then
       r <- ToString reasoning ;;
       c <- string_plus (think_open ++ r ++ nl ++ think_close) content ;;
       Ok (VStr c)
     else Ok content) ;;
  index <- member choice "index" ;;
  finish_reason <- member choice "finish_reason" ;;
  Ok (VObj
        [ (str "index",
           if Number_isFinite index then index else VNum (JSNumber.of_Z idx));
          (str "message",
           VObj [ (str "role",
                   or_else (opt_member message "role") (VStr (str "assistant")));
                  (str "content", fullContent) ]);
          (str "finish_reason", or_else finish_reason (VStr (str "stop"))) ]).

Fixpoint map_choices (cfg : config) (choices : list value) (idx : Z)
  : result (list value) :=
  match choices with
  | [] => Ok []
  | choice :: rest =>
      c <- convert_choice cfg choice idx ;;
      cs <- map_choices cfg rest (idx + 1) ;;
      Ok (c :: cs)
  end.

Definition zero_usage : value :=
  VObj [ (str "prompt_tokens", VNum (JSNumber.of_Z 0));
         (str "completion_tokens", VNum (JSNumber.of_Z 0));
         (str "total_tokens", VNum (JSNumber.of_Z 0)) ].

(** [openaiResponse] (lines 260-286).  [Date.now()] is read twice. *)
Definition openaiResponse (cfg : config) (w : world) (model : value)
  (d : upstream_data) : result value :=
  let id := VStr (str "chatcmpl-" ++ JSString.of_Z (Date_now w 0)) in
  let created := VNum (JSNumber.of_Z (Date_now w 1 / 1000)) in
  upstream_choices <- data_member d "choices" ;;
  choices <-
    match or_else upstream_choices (VArr []) with
    | VArr l => map_choices cfg l 0
    | _ => Throw (TypeError (NotAFunction "(upstream.data.choices || []).map"))
    end ;;
  usage <- data_member d "usage" ;;
  Ok (VObj [ (str "id", id);
             (str "object", VStr (str "chat.completion"));
             (str "created", created);
             (str "model", model);
             (str "choices", VArr choices);
             (str "usage", or_else usage zero_usage) ]).

(** *** POST /v1/chat/completions (lines 107-311) *)

Definition missing_key_message : jsstring :=
  str "Server misconfigured: NIM_API_KEY is missing (set it in Render environment variables).".

(** Lines 172-185. *)
Definition forward_error (up : upstream_response) : result response :=
  match data up with
  | Live _ _ => Ok (Json (status up) BodyStreamObject)
  | Buffered v =>
      if String.eqb (typeof v) "object" then Ok (Json (status up) (BodyValue v))
      else
        message <- ToString (or_else v (VStr (str "Upstream error "
                                               ++ JSString.of_Z (status up)))) ;;
        Ok (Json (status up)
              (BodyValue (error_envelope (VStr message) "upstream_error"
                            (status up))))
  end.

(** The literals 0.6 and 2048 of lines 135-136. *)
Definition default_temperature : number := JSNumber.of_decimal false 6 (-1).
Definition default_max_tokens : number := JSNumber.of_Z 2048.

(** Lines 135-169: the request sent upstream. *)
Definition build_call (cfg : config) (body model messages : value)
  : result upstream_call :=
  t <- ToNumber (opt_member body "temperature") ;;
  temperature <- (if JSNumber.isFinite t then ToNumber (opt_member body "temperature")
                  else Ok default_temperature) ;;
  m <- ToNumber (opt_member body "max_tokens") ;;
  max_tokens <- (if JSNumber.isFinite m then parseInt (opt_member body "max_tokens")
                 else Ok default_max_tokens) ;;
  let stream := if FORCE_NO_STREAM cfg then false
                else toBool (opt_member body "stream") in
  resolved <- nimModel model ;;
  key <- ToString (NIM_API_KEY cfg) ;;
  Ok {| call_url := NIM_API_BASE cfg ++ str "/chat/completions";
        call_body :=
          {| nr_model := resolved;
             nr_messages := messages;
             nr_temperature := temperature;
             nr_max_tokens := max_tokens;
             nr_stream := stream;
             nr_extra_body :=
               if ENABLE_THINKING_MODE cfg then
                 Some (VObj [ (str "chat_template_kwargs",
                               VObj [ (str "thinking", VBool true) ]) ])
               else None |};
        call_authorization := str "Bearer " ++ key;
        call_responseType := if stream then "stream" else "json";
        call_timeout := AXIOS_TIMEOUT_MS cfg |}.

(** After the upstream answered (lines 172-288). *)
Definition respond (cfg : config) (w : world) (model : value) (stream : bool)
  (up : upstream_response) : result response :=
  if 400 <=? status up then forward_error up
  else if stream then
    match data up with
    | Live chunks _ => Ok (forward_stream cfg chunks)
    | Buffered v =>
        match v with
        | VUndefined | VNull => Throw (TypeError (ReadOfNullish v "on"))
        | _ => Throw (TypeError (NotAFunction "upstream.data.on"))
        end
    end
  else
    envelope <- openaiResponse cfg w model (data up) ;;
    Ok (Json 200 (BodyValue envelope)).

(** The [catch] block (lines 289-310). *)
Definition on_error (w : world) (e : exn) : response :=
  let '(message, response_status) :=
    match e with
    | TypeError f => (VStr (engine_message w f), None)
    | AxiosError m s => (m, s)
    end in
  let code :=
    match response_status with
    | Some s => if s =? 0 then 500 else s
    | None => 500
    end in
  Json code
    (BodyValue
       (error_envelope (or_else message (VStr (str "Internal server error")))
          "invalid_request_error" code)).

(** What one request does: the upstream calls it issued, in order, and
    the response it sent. *)
Record outcome := {
  calls : list upstream_call;
  sent : response }.

Definition finish (w : world) (issued : list upstream_call) (r : result response)
  : outcome :=
  {| calls := issued;
     sent := match r with Ok resp => resp | Throw e => on_error w e end |}.

Definition chat_completions (cfg : config) (w : world) (req_body : value)
  : outcome :=
  if negb (truthy (NIM_API_KEY cfg)) then
    {| calls := [];
       sent := Json 500 (BodyValue (error_envelope (VStr missing_key_message)
                                      "server_error" 500)) |}
  else
    let body := or_else req_body (VObj []) in
    let model := opt_member body "model" in
    let messages := opt_member body "messages" in
    if negb (truthy model) || negb (String.eqb (typeof model) "string") then
      {| calls := [];
         sent := Json 400 (BodyValue (error_envelope
                   (VStr (str "Missing or invalid 'model' in request body"))
                   "invalid_request_error" 400)) |}
    else if negb (isArray messages) then
      {| calls := [];
         sent := Json 400 (BodyValue (error_envelope
                   (VStr (str "Missing or invalid 'messages' array in request body"))
                   "invalid_request_error" 400)) |}
    else
      match build_call cfg body model messages with
      | Throw e => finish w [] (Throw e)
      | Ok call =>
          finish w [call]
            (up <- axios_post w call ;;
             respond cfg w model (nr_stream (call_body call)) up)
      end.

End Server.

Export Server.

(** ** Sample configurations, frames and worlds *)

(** The text [s] with every apostrophe standing for a double quote. *)
Definition quoted (s : string) : jsstring :=
  map (fun c => if N.eqb c 39 then 34%N else c) (str s).

(** The value a JSON text denotes; undefined when it is not JSON. *)
Definition json (s : string) : value :=
  match JSON.parse (quoted s) with
  | Some v => v
  | None => VUndefined
  end.

Definition reasoning_on : config :=
  {| NIM_API_BASE := str "https://integrate.api.nvidia.com/v1";
     NIM_API_KEY := VStr (str "nvapi-key");
     FORCE_NO_STREAM := false;
     SHOW_REASONING := true;
     ENABLE_THINKING_MODE := false;
     AXIOS_TIMEOUT_MS := JSNumber.of_Z 600000 |}.

Definition reasoning_off : config := source_config (VStr (str "nvapi-key")).

(** A frame [{choices: [{delta: {k: s}}]}]. *)
Definition delta_frame (k s : string) : value :=
  VObj [ (str "choices", VArr [ VObj [ (str "delta", VObj [ (str k, VStr (str s)) ]) ] ]) ].

Definition text_of (v : value) : jsstring :=
  match v with VStr s => s | _ => [] end.

Fixpoint contents (frames : list (result value)) : jsstring :=
  match frames with
  | [] => []
  | Ok data :: rest => text_of (content_of data) ++ contents rest
  | Throw _ :: rest => contents rest
  end.

(** The text V8 gives its TypeErrors. *)
Definition v8_message (f : fault) : jsstring :=
  match f with
  | NotPrimitive => str "Cannot convert object to primitive value"
  | ReadOfNullish base prop =>
      str "Cannot read properties of "
      ++ str (match base with VNull => "null" | _ => "undefined" end)
      ++ str " (reading '" ++ str prop ++ str "')"
  | NotAFunction callee => str callee ++ str " is not a function"
  end.

(** A world whose upstream gives [answer] to every call. *)
Definition answering (answer : result upstream_response) : world :=
  {| axios_post := fun _ => answer;
     Date_now := fun n => 1700000000123 + Z.of_nat n;
     engine_message := v8_message |}.

(** The requests the validation is to reject: [model] missing, not a
    string or empty, or [messages] not an array. *)
Definition lacks_required_fields (req_body : value) : Prop :=
  let body := or_else req_body (VObj []) in
  typeof (opt_member body "model") <> "string"%string
  \/ opt_member body "model" = VStr []
  \/ isArray (opt_member body "messages") = false.

(** The tier the substring inspection of [pickFallbackModel] picks. *)
Definition tier_by_substring (lower : jsstring) : jsstring :=
  if includes lower (str "405b") || includes lower (str "gpt-4")
     || includes lower (str "opus")
  then tier_405b
  else if includes lower (str "70b") || includes lower (str "sonnet")
          || includes lower (str "gemini")
  then tier_70b
  else tier_8b.

(** ** The other routes *)

(** [Object.keys(o)] on own properties kept in enumeration order. *)
Definition Object_keys (ps : list (jsstring * value)) : list jsstring :=
  map fst ps.

(** The callback of [map] in GET /v1/models (lines 97-102); [Date.now()]
    is read once for each entry, [n] readings having been made. *)
Fixpoint model_entries (w : world) (ids : list jsstring) (n : nat)
  : list value :=
  match ids with
  | [] => []
  | id :: rest =>
      VObj [ (str "id", VStr id);
             (str "object", VStr (str "model"));
             (str "created", VNum (JSNumber.of_Z (Date_now w n)));
             (str "owned_by", VStr (str "nvidia-nim-proxy")) ]
      :: model_entries w rest (S n)
  end.

(** GET /v1/models (lines 96-105). *)
Definition models (w : world) : response :=
  Json 200
    (BodyValue
       (VObj [ (str "object", VStr (str "list"));
               (str "data",
                VArr (model_entries w (Object_keys MODEL_MAPPING) 0)) ])).

(** GET /health (lines 83-94); [body_limit] is the constant BODY_LIMIT. *)
Definition health (cfg : config) (body_limit : jsstring) : response :=
  Json 200
    (BodyValue
       (VObj [ (str "status", VStr (str "ok"));
               (str "service", VStr (str "OpenAI to NVIDIA NIM Proxy"));
               (str "body_limit", VStr body_limit);
               (str "force_no_stream", VBool (FORCE_NO_STREAM cfg));
               (str "reasoning_display", VBool (SHOW_REASONING cfg));
               (str "thinking_mode", VBool (ENABLE_THINKING_MODE cfg));
               (str "nim_api_base", VStr (NIM_API_BASE cfg));
               (str "nim_api_key_present", VBool (truthy (NIM_API_KEY cfg))) ])).

(** The catch-all route (lines 314-322). *)
Definition not_found (path : jsstring) : response :=
  Json 404
    (BodyValue
       (error_envelope (VStr (str "Endpoint " ++ path ++ str " not found"))
          "invalid_request_error" 404)).

(** The body a response carries when it is JSON built from a value. *)
Definition body_of (r : response) : value :=
  match r with
  | Json _ (BodyValue v) => v
  | _ => VUndefined
  end.

(** The status a JSON response carries. *)
Definition status_of (r : response) : Z :=
  match r with
  | Json code _ => code
  | EventStream _ _ _ => 200
  end.

(** The code the [catch] block answers with (lines 303 and 307). *)
Definition caught_status (response_status : option Z) : Z :=
  match response_status with
  | Some s => if s =? 0 then 500 else s
  | None => 500
  end.

(** The thinking-mode extension of line 155. *)
Definition thinking_extension : value :=
  VObj [ (str "chat_template_kwargs", VObj [ (str "thinking", VBool true) ]) ].

(** The values [toBool] takes for true (line 78). *)
Definition asks_for_stream (v : value) : Prop :=
  v = VBool true \/ v = VStr (str "true") \/ v = VStr (str "1")
  \/ exists n, v = VNum n /\ JSNumber.eqb n (JSNumber.of_Z 1) = true.

Definition is_object (v : value) : bool :=
  match v with VObj _ => true | _ => false end.

(** ** Configuration from the environment (lines 11-29) *)

(** [process.env]: a variable holds a string, or is not set. *)
Definition environment := jsstring -> option jsstring.

Definition env_value (env : environment) (name : string) : value :=
  match env (str name) with
  | Some s => VStr s
  | None => VUndefined
  end.

(** [process.env.PORT || 10000] *)
Definition PORT (env : environment) : value :=
  or_else (env_value env "PORT") (VNum (JSNumber.of_Z 10000)).

(** [process.env.BODY_LIMIT || "50mb"] *)
Definition BODY_LIMIT (env : environment) : value :=
  or_else (env_value env "BODY_LIMIT") (VStr (str "50mb")).

(** [(process.env.FORCE_NO_STREAM || "false").toLowerCase() === "true"] *)
Definition force_no_stream (env : environment) : result bool :=
  s <- ToString (or_else (env_value env "FORCE_NO_STREAM") (VStr (str "false"))) ;;
  Ok (JSString.eqb (toLowerCase s) (str "true")).

(** The constants of lines 14-29 for an environment. *)
Definition load_config (env : environment) : result config :=
  base <- ToString (or_else (env_value env "NIM_API_BASE")
                      (VStr (str "https://integrate.api.nvidia.com/v1"))) ;;
  forced <- force_no_stream env ;;
  timeout <- ToNumber (or_else (env_value env "AXIOS_TIMEOUT_MS")
                         (VNum (JSNumber.of_Z 600000))) ;;
  Ok {| NIM_API_BASE := base;
        NIM_API_KEY := env_value env "NIM_API_KEY";
        FORCE_NO_STREAM := forced;
        SHOW_REASONING := false;
        ENABLE_THINKING_MODE := false;
        AXIOS_TIMEOUT_MS := timeout |}.

(** An environment that sets the listed variables and no other. *)
Fixpoint environment_of (vars : list (string * string)) : environment :=
  fun name =>
    match vars with
    | [] => None
    | (k, v) :: rest =>
        if JSString.eqb name (str k) then Some (str v)
        else environment_of rest name
    end.

(** * Properties *)

(** ** Strings and lists *)

Lemma eqb_eq (a b : jsstring) : JSString.eqb a b = true <-> a = b.
Proof.
  revert b; induction a as [|c a IH]; intros [|d b]; simpl;
    try (split; congruence).
  rewrite andb_true_iff, N.eqb_eq, IH. split.
  - intros [-> ->]. reflexivity.
  - intros H. injection H as -> ->. auto.
Qed.

Lemma eqb_refl (a : jsstring) : JSString.eqb a a = true.
Proof. apply eqb_eq. reflexivity. Qed.

Lemma eqb_neq (a b : jsstring) : JSString.eqb a b = false <-> a <> b.
Proof.
  rewrite <- eqb_eq. destruct (JSString.eqb a b); split; congruence.
Qed.

Lemma split_nonempty (sep : N) (s : jsstring) : JSString.split sep s <> [].
Proof.
  destruct s as [|c s]; simpl; [discriminate|].
  destruct (N.eqb c sep); [discriminate|].
  destruct (JSString.split sep s); discriminate.
Qed.

Lemma removelast_cons {A} (x : A) (l : list A) :
  l <> [] -> removelast (x :: l) = x :: removelast l.
Proof. destruct l; [congruence | reflexivity]. Qed.

Lemma last_cons {A} (x d : A) (l : list A) :
  l <> [] -> last (x :: l) d = last l d.
Proof. destruct l; [congruence | reflexivity]. Qed.

Lemma last_append {A} (l1 l2 : list A) (d : A) :
  l2 <> [] -> last (l1 ++ l2) d = last l2 d.
Proof.
  intros H. induction l1 as [|x l1 IH]; [reflexivity|].
  simpl app. rewrite last_cons; [exact IH|].
  destruct l1; simpl; [exact H | discriminate].
Qed.

(** Splitting a concatenation: the lines of [a] but its last fragment,
    then the lines of that fragment followed by [b]. *)
Lemma split_app (sep : N) (a b : jsstring) :
  JSString.split sep (a ++ b) =
  removelast (JSString.split sep a)
  ++ JSString.split sep (last (JSString.split sep a) [] ++ b).
Proof.
  induction a as [|c a IH]; [reflexivity|].
  simpl. destruct (N.eqb c sep) eqn:Hc.
  - rewrite removelast_cons, last_cons by apply split_nonempty.
    simpl. rewrite IH. reflexivity.
  - rewrite IH. pose proof (split_nonempty sep a) as Hne.
    destruct (JSString.split sep a) as [|x xs]; [congruence|].
    destruct xs as [|y ys].
    + simpl. rewrite Hc. reflexivity.
    + rewrite removelast_cons by discriminate.
      rewrite (removelast_cons (c :: x)) by discriminate.
      rewrite !last_cons by discriminate. reflexivity.
Qed.

Lemma split_without (sep : N) (s : jsstring) :
  ~ In sep s -> JSString.split sep s = [s].
Proof.
  induction s as [|c s IH]; intros Hin; [reflexivity|].
  simpl. destruct (N.eqb c sep) eqn:Hc.
  - apply N.eqb_eq in Hc. exfalso. apply Hin. left. auto.
  - rewrite IH; [reflexivity|]. intros H. apply Hin. right. exact H.
Qed.

(** The fragment kept in the buffer holds no separator. *)
Lemma last_split_without (sep : N) (s : jsstring) :
  ~ In sep (last (JSString.split sep s) []).
Proof.
  induction s as [|c s IH]; [simpl; auto|].
  simpl. destruct (N.eqb c sep) eqn:Hc.
  - rewrite last_cons by apply split_nonempty. exact IH.
  - pose proof (split_nonempty sep s) as Hne.
    destruct (JSString.split sep s) as [|x xs]; [congruence|].
    destruct xs as [|y ys].
    + simpl in *. intros [H|H]; [|auto].
      apply N.eqb_neq in Hc. congruence.
    + rewrite last_cons by discriminate.
      rewrite last_cons in IH by discriminate. exact IH.
Qed.

(** ** Decimal rendering *)

Lemma digits_fuel_app (fuel : nat) :
  forall n acc,
    JSString.digits_fuel fuel n acc = JSString.digits_fuel fuel n [] ++ acc.
Proof.
  induction fuel as [|fuel IH]; intros n acc; simpl; [reflexivity|].
  destruct (n <? 10); [reflexivity|].
  rewrite IH, (IH _ [_]), <- app_assoc. reflexivity.
Qed.

Lemma decimal_value_snoc (l : jsstring) (d : N) :
  decimal_value (l ++ [d]) = 10 * decimal_value l + (Z.of_N d - 48).
Proof. unfold decimal_value. rewrite fold_left_app. reflexivity. Qed.

Lemma digit_unit (n : Z) :
  0 <= n -> Z.of_N (N.of_nat (Z.to_nat (48 + n mod 10))) - 48 = n mod 10.
Proof.
  intros Hn. pose proof (Z.mod_pos_bound n 10 ltac:(lia)).
  rewrite nat_N_Z, Z2Nat.id by lia. lia.
Qed.

Lemma digits_fuel_value (fuel : nat) :
  forall n, 0 <= n < 10 ^ Z.of_nat fuel ->
            decimal_value (JSString.digits_fuel fuel n []) = n.
Proof.
  induction fuel as [|fuel IH]; intros n Hn.
  - simpl in Hn. assert (n = 0) by lia. subst. reflexivity.
  - cbn [JSString.digits_fuel]. destruct (n <? 10) eqn:Hlt.
    + apply Z.ltb_lt in Hlt. unfold decimal_value. cbn [fold_left].
      rewrite Z.mul_0_r, Z.add_0_l, digit_unit by lia.
      apply Z.mod_small. lia.
    + apply Z.ltb_ge in Hlt. rewrite digits_fuel_app, decimal_value_snoc.
      rewrite digit_unit by lia. rewrite IH.
      * pose proof (Z.div_mod n 10 ltac:(lia)). lia.
      * rewrite Nat2Z.inj_succ, Z.pow_succ_r in Hn by lia.
        split; [apply Z.div_pos; lia|].
        apply Z.div_lt_upper_bound; lia.
Qed.

(** The digits [of_Z] writes for a natural number denote it. *)
Theorem digits_value (n : Z) : 0 <= n -> decimal_value (JSString.digits n) = n.
Proof.
  intros Hn. unfold JSString.digits. apply digits_fuel_value.
  split; [exact Hn|].
  destruct (Z.eq_dec n 0) as [->|Hz]; [reflexivity|].
  pose proof (Z.log2_spec n ltac:(lia)) as [_ Hlog].
  pose proof (Z.log2_nonneg n) as Hpos.
  rewrite Nat2Z.inj_succ, Z2Nat.id by lia.
  eapply Z.lt_le_trans; [exact Hlog|].
  apply Z.pow_le_mono_l. lia.
Qed.

(** ** JSON.parse never runs out of fuel *)

Lemma skip_ws_length (s : jsstring) :
  (List.length (JSON.skip_ws s) <= List.length s)%nat.
Proof.
  induction s as [|c s IH]; simpl; [lia|].
  destruct (JSON.is_ws c); simpl; lia.
Qed.

Lemma push_length (u : option N) (o : option (jsstring * jsstring))
  (t r : jsstring) (n : nat) :
  JSON.push u o = Some (t, r) ->
  (forall t' r', o = Some (t', r') -> (List.length r' < n)%nat) ->
  (List.length r < n)%nat.
Proof.
  unfold JSON.push. destruct u; [|discriminate].
  destruct o as [[t' r']|]; [|discriminate].
  intros H Hn. injection H as _ <-. eapply Hn. reflexivity.
Qed.

Lemma read_string_length (n : nat) :
  forall s t r,
    (List.length s <= n)%nat ->
    JSON.read_string s = Some (t, r) -> (List.length r < List.length s)%nat.
Proof.
  induction n as [|n IH]; intros s t r Hn.
  - destruct s; [discriminate | simpl in Hn; lia].
  - destruct s as [|c rest]; [discriminate|]. simpl in Hn. simpl JSON.read_string.
    destruct (N.eqb c 34).
    { intros H. injection H as _ <-. simpl. lia. }
    destruct (N.eqb c 92).
    + destruct rest as [|e rest1]; [discriminate|].
      destruct (N.eqb e 117).
      * destruct rest1 as [|a [|b [|c' [|d rest2]]]]; try discriminate.
        intros H.
        apply (push_length (JSON.hex4 a b c' d) (JSON.read_string rest2) _ _ _ H).
        intros t' r' H'. apply IH in H'; simpl in *; lia.
      * intros H.
        apply (push_length (JSON.escape e) (JSON.read_string rest1) _ _ _ H).
        intros t' r' H'. apply IH in H'; simpl in *; lia.
    + destruct (c <? 32)%N; [discriminate|].
      intros H.
      apply (push_length (Some c) (JSON.read_string rest) _ _ _ H).
      intros t' r' H'. apply IH in H'; simpl in *; lia.
Qed.

Lemma read_digits_length (radix : Z) (s : jsstring) :
  forall acc c v c' r,
    JSNumber.read_digits radix s acc c = (v, c', r) ->
    (List.length r <= List.length s)%nat
    /\ (c' <> c -> (List.length r < List.length s)%nat).
Proof.
  induction s as [|d s IH]; intros acc c v c' r; simpl.
  - intros H. injection H as _ <- <-. split; [simpl; lia | congruence].
  - destruct (JSNumber.digit_value radix d).
    + intros H. apply IH in H. simpl. lia.
    + intros H. injection H as _ <- <-. split; [simpl; lia | congruence].
Qed.

Lemma read_sign_length (s r : jsstring) (neg : bool) :
  JSNumber.read_sign s = (neg, r) -> (List.length r <= List.length s)%nat.
Proof.
  unfold JSNumber.read_sign. destruct s as [|c s]; simpl.
  - intros H. injection H as _ <-. simpl. lia.
  - destruct (N.eqb c 45); [|destruct (N.eqb c 43)];
      intros H; injection H as _ <-; simpl; lia.
Qed.

Lemma read_exponent_length (s r : jsstring) (e : Z) :
  JSNumber.read_exponent s = Some (e, r) ->
  (List.length r <= List.length s)%nat.
Proof.
  unfold JSNumber.read_exponent. destruct s as [|c s].
  - intros H. injection H as _ <-. simpl. lia.
  - destruct (N.eqb c 101 || N.eqb c 69).
    + destruct (JSNumber.read_sign s) as [neg s1] eqn:Hs.
      apply read_sign_length in Hs.
      destruct (JSNumber.read_digits 10 s1 0 0) as [[v count] rest] eqn:Hd.
      apply read_digits_length in Hd.
      destruct (count =? 0); [discriminate|].
      intros H. injection H as _ <-. simpl. lia.
    + intros H. injection H as _ <-. lia.
Qed.

Lemma read_number_length (s r : jsstring) (n : number) :
  JSON.read_number s = Some (n, r) -> (List.length r < List.length s)%nat.
Proof.
  unfold JSON.read_number.
  set (signed := match s with
                 | c :: s' => if N.eqb c 45 then (true, s') else (false, s)
                 | [] => (false, [])
                 end).
  assert (Hsigned : (List.length (snd signed) <= List.length s)%nat).
  { subst signed. destruct s as [|c s']; simpl; [lia|].
    destruct (N.eqb c 45); simpl; lia. }
  destruct signed as [neg s0]. simpl in Hsigned.
  set (int := match s0 with
              | c :: s' => if N.eqb c 48 then (0, 1, s')
                           else JSNumber.read_digits 10 s0 0 0
              | [] => (0, 0, [])
              end).
  assert (Hint : (List.length (snd int) <= List.length s0)%nat
                 /\ (snd (fst int) <> 0 ->
                     (List.length (snd int) < List.length s0)%nat)).
  { subst int. destruct s0 as [|c s']; simpl; [split; [lia | congruence]|].
    destruct (N.eqb c 48); simpl; [split; lia|].
    destruct (JSNumber.digit_value 10 c).
    - destruct (JSNumber.read_digits 10 s' _ _) as [[v c'] r'] eqn:Hd.
      apply read_digits_length in Hd. simpl. split; lia.
    - simpl. split; [lia | congruence]. }
  destruct int as [[ip ic] s1]. simpl in Hint.
  destruct (ic =? 0) eqn:Hic; [discriminate|]. apply Z.eqb_neq in Hic.
  destruct Hint as [_ Hint]. specialize (Hint Hic).
  set (frac := match s1 with
               | c :: s' =>
                   if N.eqb c 46 then
                     let '(fp, fc, s2) := JSNumber.read_digits 10 s' ip 0 in
                     if fc =? 0 then None else Some (fp, fc, s2)
                   else Some (ip, 0, s1)
               | [] => Some (ip, 0, [])
               end).
  assert (Hfrac : forall fp fc s2, frac = Some (fp, fc, s2) ->
                                   (List.length s2 <= List.length s1)%nat).
  { subst frac. intros fp fc s2. destruct s1 as [|c s']; simpl.
    - intros H. injection H as _ _ <-. simpl. lia.
    - destruct (N.eqb c 46).
      + destruct (JSNumber.read_digits 10 s' ip 0) as [[fp' fc'] s2'] eqn:Hd.
        apply read_digits_length in Hd. destruct (fc' =? 0); [discriminate|].
        intros H. injection H as _ _ <-. lia.
      + intros H. injection H as _ _ <-. simpl. lia. }
  destruct frac as [[[fp fc] s2]|]; [|discriminate].
  specialize (Hfrac _ _ _ eq_refl).
  destruct (JSNumber.read_exponent s2) as [[e rest]|] eqn:He; [|discriminate].
  apply read_exponent_length in He.
  intros H. injection H as _ <-. lia.
Qed.

Lemma length_str (w : string) : List.length (str w) = String.length w.
Proof.
  unfold str. rewrite length_map.
  induction w as [|a w IH]; simpl; [reflexivity | rewrite IH; reflexivity].
Qed.

Lemma startsWith_length (s p : jsstring) :
  startsWith s p = true -> (List.length p <= List.length s)%nat.
Proof.
  revert s; induction p as [|c p IH]; intros s; simpl; [lia|].
  destruct s as [|d s]; [discriminate|].
  intros H. apply andb_true_iff in H. destruct H as [_ H].
  apply IH in H. simpl. lia.
Qed.

Lemma read_word_length (w : string) (v v' : value) (s r : jsstring) :
  (0 < String.length w)%nat ->
  JSON.read_word w v s = Some (v', r) -> (List.length r < List.length s)%nat.
Proof.
  unfold JSON.read_word. intros Hw.
  destruct (startsWith s (str w)) eqn:Hp; [|discriminate].
  apply startsWith_length in Hp. rewrite length_str in Hp.
  intros H. injection H as _ <-. rewrite length_skipn. lia.
Qed.

Lemma of_option_length (o : option (value * jsstring)) (v : value)
  (r : jsstring) (n : nat) :
  JSON.of_option o = JSON.Parsed v r ->
  (forall v' r', o = Some (v', r') -> (List.length r' < n)%nat) ->
  (List.length r < n)%nat.
Proof.
  destruct o as [[v' r']|]; simpl; [|discriminate].
  intros H Hn. injection H as _ <-. eapply Hn. reflexivity.
Qed.

Ltac ws_split s c r :=
  let H := fresh "Hws" in
  pose proof (skip_ws_length s) as H;
  destruct (JSON.skip_ws s) as [|c r]; [discriminate|]; simpl in H.

(** A parse that succeeds has read at least one code unit. *)
Lemma parse_consumes (fuel : nat) :
  (forall s v r, JSON.parse_value fuel s = JSON.Parsed v r ->
                 (List.length r < List.length s)%nat)
  /\ (forall s acc v r, JSON.parse_elements fuel s acc = JSON.Parsed v r ->
                        (List.length r < List.length s)%nat)
  /\ (forall s acc v r, JSON.parse_members fuel s acc = JSON.Parsed v r ->
                        (List.length r < List.length s)%nat).
Proof.
  induction fuel as [|fuel (IHv & IHe & IHm)]; [repeat split; discriminate|].
  split; [|split].
  - intros s v r. simpl. ws_split s c r0.
    destruct (N.eqb c 123).
    { ws_split r0 c' r'. destruct (N.eqb c' 125).
      - intros H. injection H as _ <-. lia.
      - intros H. apply IHm in H. simpl in H. lia. }
    destruct (N.eqb c 91).
    { ws_split r0 c' r'. destruct (N.eqb c' 93).
      - intros H. injection H as _ <-. lia.
      - intros H. apply IHe in H. simpl in H. lia. }
    destruct (N.eqb c 34).
    { destruct (JSON.read_string r0) as [[t r']|] eqn:Hs; [|discriminate].
      apply (read_string_length _ _ _ _ (le_n _)) in Hs.
      intros H. injection H as _ <-. lia. }
    destruct (N.eqb c 116).
    { intros H. apply (of_option_length _ _ _ (List.length s)) in H; [exact H|].
      intros v' r' H'. apply read_word_length in H'; simpl in *; lia. }
    destruct (N.eqb c 102).
    { intros H. apply (of_option_length _ _ _ (List.length s)) in H; [exact H|].
      intros v' r' H'. apply read_word_length in H'; simpl in *; lia. }
    destruct (N.eqb c 110).
    { intros H. apply (of_option_length _ _ _ (List.length s)) in H; [exact H|].
      intros v' r' H'. apply read_word_length in H'; simpl in *; lia. }
    destruct (JSON.read_number (c :: r0)) as [[n r']|] eqn:Hn; [|discriminate].
    apply read_number_length in Hn. simpl in Hn.
    intros H. injection H as _ <-. lia.
  - intros s acc v r. simpl.
    destruct (JSON.parse_value fuel s) as [v0 r0| |] eqn:Hv; try discriminate.
    apply IHv in Hv. ws_split r0 c r'.
    destruct (N.eqb c 44).
    { intros H. apply IHe in H. lia. }
    destruct (N.eqb c 93); [|discriminate].
    intros H. injection H as _ <-. lia.
  - intros s acc v r. simpl. ws_split s q r0.
    destruct (N.eqb q 34); [|discriminate].
    destruct (JSON.read_string r0) as [[k r1]|] eqn:Hs; [|discriminate].
    apply (read_string_length _ _ _ _ (le_n _)) in Hs.
    ws_split r1 c r2. destruct (N.eqb c 58); [|discriminate].
    destruct (JSON.parse_value fuel r2) as [v0 r3| |] eqn:Hv; try discriminate.
    apply IHv in Hv. ws_split r3 c' r4.
    destruct (N.eqb c' 44).
    { intros H. apply IHm in H. lia. }
    destruct (N.eqb c' 125); [|discriminate].
    intros H. injection H as _ <-. lia.
Qed.

(** Fuel runs out only below twice the length of the text. *)
Lemma parse_fuel (fuel : nat) :
  (forall s, JSON.parse_value fuel s = JSON.OutOfFuel ->
             (fuel <= 2 * List.length s)%nat)
  /\ (forall s acc, JSON.parse_elements fuel s acc = JSON.OutOfFuel ->
                    (fuel <= 2 * List.length s + 1)%nat)
  /\ (forall s acc, JSON.parse_members fuel s acc = JSON.OutOfFuel ->
                    (fuel <= 2 * List.length s + 1)%nat).
Proof.
  induction fuel as [|fuel (IHv & IHe & IHm)]; [repeat split; intros; lia|].
  destruct (parse_consumes fuel) as (Cv & Ce & Cm).
  split; [|split].
  - intros s. simpl. ws_split s c r0.
    destruct (N.eqb c 123).
    { ws_split r0 c' r'. destruct (N.eqb c' 125); [discriminate|].
      intros H. apply IHm in H. simpl in H. lia. }
    destruct (N.eqb c 91).
    { ws_split r0 c' r'. destruct (N.eqb c' 93); [discriminate|].
      intros H. apply IHe in H. simpl in H. lia. }
    destruct (N.eqb c 34).
    { destruct (JSON.read_string r0) as [[t r']|]; discriminate. }
    destruct (N.eqb c 116).
    { destruct (JSON.read_word _ _ _) as [[v' r']|]; discriminate. }
    destruct (N.eqb c 102).
    { destruct (JSON.read_word _ _ _) as [[v' r']|]; discriminate. }
    destruct (N.eqb c 110).
    { destruct (JSON.read_word _ _ _) as [[v' r']|]; discriminate. }
    destruct (JSON.read_number (c :: r0)) as [[n r']|]; discriminate.
  - intros s acc. simpl.
    destruct (JSON.parse_value fuel s) as [v0 r0| |] eqn:Hv; try discriminate.
    + apply Cv in Hv. ws_split r0 c r'.
      destruct (N.eqb c 44).
      { intros H. apply IHe in H. lia. }
      destruct (N.eqb c 93); discriminate.
    + intros _. apply IHv in Hv. lia.
  - intros s acc. simpl. ws_split s q r0.
    destruct (N.eqb q 34); [|discriminate].
    destruct (JSON.read_string r0) as [[k r1]|] eqn:Hs; [|discriminate].
    apply (read_string_length _ _ _ _ (le_n _)) in Hs.
    ws_split r1 c r2. destruct (N.eqb c 58); [|discriminate].
    destruct (JSON.parse_value fuel r2) as [v0 r3| |] eqn:Hv; try discriminate.
    + apply Cv in Hv. ws_split r3 c' r4.
      destruct (N.eqb c' 44).
      { intros H. apply IHm in H. lia. }
      destruct (N.eqb c' 125); discriminate.
    + intros _. apply IHv in Hv. lia.
Qed.

(** The fuel [JSON.parse] gives is enough on every text. *)
Theorem parse_never_out_of_fuel (s : jsstring) :
  JSON.parse_value (JSON.enough s) s <> JSON.OutOfFuel.
Proof.
  intros H. apply (proj1 (parse_fuel _)) in H. unfold JSON.enough in H. lia.
Qed.

(** ** Reassembly *)

Section Reassembly.

Variable cfg : config.

Lemma on_lines_app (started : bool) (l1 l2 : list jsstring) :
  on_lines cfg started (l1 ++ l2) =
  let '(s1, w1) := on_lines cfg started l1 in
  let '(s2, w2) := on_lines cfg s1 l2 in
  (s2, w1 ++ w2).
Proof.
  revert started; induction l1 as [|l l1 IH]; intros started; simpl.
  - destruct (on_lines cfg started l2). reflexivity.
  - destruct (on_line cfg started l) as [s1 w1].
    rewrite IH. destruct (on_lines cfg s1 l1) as [s2 w2].
    destruct (on_lines cfg s2 l2) as [s3 w3].
    rewrite app_assoc. reflexivity.
Qed.

(** One text handled at once, or as two successive texts: the same
    writes and the same state. *)
Lemma on_text_app (st : stream_state) (a b : jsstring) :
  on_text cfg st (a ++ b) =
  let '(st1, w1) := on_text cfg st a in
  let '(st2, w2) := on_text cfg st1 b in
  (st2, w1 ++ w2).
Proof.
  unfold on_text, pop. rewrite app_assoc, split_app.
  set (X := JSString.split 10 (buffer st ++ a)).
  set (Y := JSString.split 10 (last X [] ++ b)).
  assert (HY : Y <> []) by apply split_nonempty.
  rewrite removelast_app, last_append by exact HY.
  rewrite on_lines_app.
  destruct (on_lines cfg (reasoningStarted st) (removelast X)) as [s1 w1].
  simpl. fold Y.
  destruct (on_lines cfg s1 (removelast Y)) as [s2 w2]. reflexivity.
Qed.

Lemma on_text_nil (st : stream_state) :
  ~ In 10%N (buffer st) -> on_text cfg st [] = (st, []).
Proof.
  intros H. unfold on_text, pop. rewrite app_nil_r, split_without by exact H.
  simpl. destruct st. reflexivity.
Qed.

Lemma on_text_buffer (st : stream_state) (text : jsstring) :
  ~ In 10%N (buffer (fst (on_text cfg st text))).
Proof.
  unfold on_text, pop.
  destruct (on_lines cfg (reasoningStarted st) _) as [s w]. simpl.
  apply last_split_without.
Qed.

Lemma feed_text_concat (texts : list jsstring) (st : stream_state) :
  ~ In 10%N (buffer st) ->
  feed_text cfg st texts = on_text cfg st (List.concat texts).
Proof.
  revert st. induction texts as [|t texts IH]; intros st Hst; simpl.
  - symmetry. apply on_text_nil. exact Hst.
  - rewrite on_text_app.
    pose proof (on_text_buffer st t) as Hb.
    destruct (on_text cfg st t) as [st1 w1]. simpl in Hb.
    rewrite (IH st1 Hb). reflexivity.
Qed.

(** Reassembly does not depend on where the text was cut. *)
Theorem text_boundary_invariance (texts : list jsstring) :
  feed_text cfg stream_start texts
  = on_text cfg stream_start (List.concat texts).
Proof. apply feed_text_concat. simpl. auto. Qed.

Lemma feed_as_text (chunks : list (list N)) (st : stream_state) :
  feed cfg st chunks = feed_text cfg st (map Utf8.toString chunks).
Proof.
  revert st; induction chunks as [|c chunks IH]; intros st; simpl; [reflexivity|].
  unfold on_data. destruct (on_text cfg st (Utf8.toString c)) as [st1 w1].
  rewrite IH. reflexivity.
Qed.

End Reassembly.

(** ** Decoding chunk by chunk *)

Lemma step_idle_like (d : Utf8.decoder) (b : N) :
  Utf8.needed d = 0%N -> Utf8.step d b = Utf8.step Utf8.idle b.
Proof. intros H. unfold Utf8.step. rewrite H. reflexivity. Qed.

Lemma run_idle_like (d : Utf8.decoder) (bytes : list N) :
  Utf8.needed d = 0%N -> Utf8.run d bytes = Utf8.run Utf8.idle bytes.
Proof.
  intros H. destruct bytes as [|b rest]; simpl.
  - rewrite H. reflexivity.
  - rewrite (step_idle_like d b H). reflexivity.
Qed.

Lemma final_idle_like (d : Utf8.decoder) (bytes : list N) :
  Utf8.needed d = 0%N ->
  Utf8.needed (Utf8.final d bytes) = Utf8.needed (Utf8.final Utf8.idle bytes).
Proof.
  intros H. destruct bytes as [|b rest]; simpl.
  - exact H.
  - rewrite (step_idle_like d b H). reflexivity.
Qed.

Lemma run_app (d : Utf8.decoder) (a b : list N) :
  Utf8.run d (a ++ b) = Utf8.emitted d a ++ Utf8.run (Utf8.final d a) b.
Proof.
  revert d; induction a as [|x a IH]; intros d; simpl; [reflexivity|].
  destruct (Utf8.step d x) as [d' out]. simpl.
  rewrite IH, app_assoc. reflexivity.
Qed.

Lemma final_app (d : Utf8.decoder) (a b : list N) :
  Utf8.final d (a ++ b) = Utf8.final (Utf8.final d a) b.
Proof.
  revert d; induction a as [|x a IH]; intros d; simpl; [reflexivity|].
  apply IH.
Qed.

Lemma run_aligned (d : Utf8.decoder) (a : list N) :
  Utf8.needed (Utf8.final d a) = 0%N -> Utf8.run d a = Utf8.emitted d a.
Proof.
  intros H. rewrite <- (app_nil_r a) at 1. rewrite run_app. simpl.
  rewrite H. simpl. apply app_nil_r.
Qed.

(** A chunk that ends between two characters decodes apart from what
    follows it. *)
Lemma toString_app (a b : list N) :
  Utf8.aligned a ->
  Utf8.toString (a ++ b) = Utf8.toString a ++ Utf8.toString b.
Proof.
  unfold Utf8.aligned, Utf8.toString. intros H.
  rewrite run_app, (run_aligned _ _ H), (run_idle_like _ b H). reflexivity.
Qed.

Lemma aligned_app (a b : list N) :
  Utf8.aligned a -> Utf8.aligned b -> Utf8.aligned (a ++ b).
Proof.
  unfold Utf8.aligned. intros Ha Hb.
  rewrite final_app, (final_idle_like _ b Ha). exact Hb.
Qed.

Lemma aligned_concat (chunks : list (list N)) :
  Forall Utf8.aligned chunks -> Utf8.aligned (List.concat chunks).
Proof.
  induction 1 as [|c chunks Hc _ IH]; simpl.
  - reflexivity.
  - apply aligned_app; assumption.
Qed.

Lemma toString_concat (chunks : list (list N)) :
  Forall Utf8.aligned chunks ->
  Utf8.toString (List.concat chunks) = List.concat (map Utf8.toString chunks).
Proof.
  induction 1 as [|c chunks Hc _ IH]; simpl; [reflexivity|].
  rewrite (toString_app _ _ Hc), IH. reflexivity.
Qed.

Lemma ascii_step (d : Utf8.decoder) (b : N) :
  Utf8.needed d = 0%N -> (b <= 127)%N -> Utf8.step d b = (Utf8.idle, [b]).
Proof.
  intros Hd Hb. unfold Utf8.step, Utf8.lead. rewrite Hd. simpl.
  apply N.leb_le in Hb. rewrite Hb. reflexivity.
Qed.

Lemma ascii_aligned (bytes : list N) :
  Forall (fun b => (b <= 127)%N) bytes -> Utf8.aligned bytes.
Proof.
  unfold Utf8.aligned. induction 1 as [|b rest Hb _ IH]; simpl; [reflexivity|].
  rewrite (ascii_step Utf8.idle b eq_refl Hb). exact IH.
Qed.

Lemma ascii_toString (bytes : list N) :
  Forall (fun b => (b <= 127)%N) bytes -> Utf8.toString bytes = bytes.
Proof.
  unfold Utf8.toString. induction 1 as [|b rest Hb _ IH]; simpl; [reflexivity|].
  rewrite (ascii_step Utf8.idle b eq_refl Hb). simpl. rewrite IH. reflexivity.
Qed.

(** Chunks cut between characters give what the whole sequence gives,
    writes and state. *)
Theorem aligned_boundary_invariance (cfg : config) (chunks : list (list N)) :
  Forall Utf8.aligned chunks ->
  feed cfg stream_start chunks
  = on_data cfg stream_start (List.concat chunks).
Proof.
  intros H. rewrite feed_as_text, text_boundary_invariance.
  unfold on_data. rewrite (toString_concat _ H). reflexivity.
Qed.

Corollary ascii_boundary_invariance (cfg : config) (chunks : list (list N)) :
  Forall (Forall (fun b => (b <= 127)%N)) chunks ->
  feed cfg stream_start chunks
  = on_data cfg stream_start (List.concat chunks).
Proof.
  intros H. apply aligned_boundary_invariance.
  eapply Forall_impl; [|exact H]. intros c Hc. apply ascii_aligned, Hc.
Qed.

(** What is written is the loop body run over the candidate lines in
    order. *)
Lemma feed_text_lines (cfg : config) (texts : list jsstring) (st : stream_state) :
  snd (feed_text cfg st texts)
  = snd (on_lines cfg (reasoningStarted st) (reassemble (buffer st) texts)).
Proof.
  revert st; induction texts as [|t texts IH]; intros st; simpl; [reflexivity|].
  unfold on_text, pop.
  set (lines := removelast (JSString.split 10 (buffer st ++ t))).
  set (rest := last (JSString.split 10 (buffer st ++ t)) []).
  rewrite on_lines_app.
  destruct (on_lines cfg (reasoningStarted st) lines) as [s1 w1].
  specialize (IH {| buffer := rest; reasoningStarted := s1 |}). simpl in IH.
  destruct (feed_text cfg _ texts) as [st2 w2].
  destruct (on_lines cfg s1 (reassemble rest texts)) as [s3 w3].
  simpl in *. rewrite IH. reflexivity.
Qed.

Lemma writes_from_lines (cfg : config) (chunks : list (list N)) :
  snd (feed cfg stream_start chunks)
  = snd (on_lines cfg false (candidate_lines chunks)).
Proof. rewrite feed_as_text. apply feed_text_lines. Qed.

(** ** Own properties *)

Section OwnProperties.

Implicit Types (k : jsstring) (v : value) (ps : list (jsstring * value)).

Lemma lookup_missing k ps : has k ps = false -> lookup k ps = VUndefined.
Proof.
  induction ps as [|[k' v'] ps IH]; simpl; [reflexivity|].
  destruct (JSString.eqb k k'); simpl; [discriminate | exact IH].
Qed.

Lemma lookup_present k ps : lookup k ps <> VUndefined -> has k ps = true.
Proof.
  intros H. destruct (has k ps) eqn:E; [reflexivity|].
  elim H. apply lookup_missing, E.
Qed.


Lemma lookup_replace k v ps :
  has k ps = true -> lookup k (JSValue.replace k v ps) = v.
Proof.
  induction ps as [|[k' v'] ps IH]; simpl; [discriminate|].
  destruct (JSString.eqb k k') eqn:E; simpl; rewrite E; auto.
Qed.

Lemma lookup_replace_other k k' v ps :
  k <> k' -> lookup k' (JSValue.replace k v ps) = lookup k' ps.
Proof.
  intros Hne. induction ps as [|[k0 v0] ps IH]; simpl; [reflexivity|].
  destruct (JSString.eqb k k0) eqn:E; simpl.
  - apply eqb_eq in E. subst k0.
    assert (JSString.eqb k' k = false) as -> by (apply eqb_neq; congruence).
    reflexivity.
  - rewrite IH. reflexivity.
Qed.

Lemma has_replace k k' v ps : has k' (JSValue.replace k v ps) = has k' ps.
Proof.
  induction ps as [|[k0 v0] ps IH]; simpl; [reflexivity|].
  destruct (JSString.eqb k k0); simpl; [reflexivity|]. rewrite IH. reflexivity.
Qed.

Lemma lookup_insert_new k v ps :
  has k ps = false -> lookup k (insert_new k v ps) = v.
Proof.
  induction ps as [|[k' v'] ps IH]; simpl.
  - rewrite eqb_refl. reflexivity.
  - destruct (JSString.eqb k k') eqn:E; simpl; [discriminate|]. intros H.
    destruct (array_index k), (array_index k'); simpl;
      try destruct (_ <? _); simpl; rewrite ?eqb_refl, ?E; auto.
Qed.

Lemma lookup_insert_new_other k k' v ps :
  k <> k' -> lookup k' (insert_new k v ps) = lookup k' ps.
Proof.
  intros Hne. assert (E : JSString.eqb k' k = false) by (apply eqb_neq; congruence).
  induction ps as [|[k0 v0] ps IH]; simpl.
  - rewrite E. reflexivity.
  - destruct (array_index k), (array_index k0); simpl;
      try destruct (_ <? _); simpl; rewrite ?E, ?IH; reflexivity.
Qed.

Lemma has_insert_new_other k k' v ps :
  k <> k' -> has k' (insert_new k v ps) = has k' ps.
Proof.
  intros Hne. assert (E : JSString.eqb k' k = false) by (apply eqb_neq; congruence).
  induction ps as [|[k0 v0] ps IH]; simpl.
  - rewrite E. reflexivity.
  - destruct (array_index k), (array_index k0); simpl;
      try destruct (_ <? _); simpl; rewrite ?E, ?IH; reflexivity.
Qed.

Lemma lookup_set k v ps : lookup k (JSValue.set k v ps) = v.
Proof.
  unfold JSValue.set. destruct (has k ps) eqn:E.
  - apply lookup_replace, E.
  - apply lookup_insert_new, E.
Qed.

Lemma lookup_set_other k k' v ps :
  k <> k' -> lookup k' (JSValue.set k v ps) = lookup k' ps.
Proof.
  intros Hne. unfold JSValue.set. destruct (has k ps).
  - apply lookup_replace_other, Hne.
  - apply lookup_insert_new_other, Hne.
Qed.

Lemma has_set_other k k' v ps :
  k <> k' -> has k' (JSValue.set k v ps) = has k' ps.
Proof.
  intros Hne. unfold JSValue.set. destruct (has k ps).
  - apply has_replace.
  - apply has_insert_new_other, Hne.
Qed.

Lemma has_delete k ps : has k (JSValue.delete k ps) = false.
Proof.
  induction ps as [|[k' v'] ps IH]; simpl; [reflexivity|].
  destruct (JSString.eqb k k') eqn:E; simpl; rewrite ?E; exact IH.
Qed.

Lemma lookup_delete_other k k' ps :
  k <> k' -> lookup k' (JSValue.delete k ps) = lookup k' ps.
Proof.
  intros Hne. induction ps as [|[k0 v0] ps IH]; simpl; [reflexivity|].
  destruct (JSString.eqb k k0) eqn:E; simpl.
  - apply eqb_eq in E. subst k0.
    assert (JSString.eqb k' k = false) as -> by (apply eqb_neq; congruence).
    exact IH.
  - rewrite IH. reflexivity.
Qed.

End OwnProperties.

Lemma content_is_not_reasoning : str "content" <> str "reasoning_content".
Proof. discriminate. Qed.

Lemma reasoning_is_not_content : str "reasoning_content" <> str "content".
Proof. discriminate. Qed.

(** ** The frame rewriter *)

Section Rewriter.

Variable cfg : config.

(** An object delta comes out as an object without [reasoning_content]
    and with a [content] that is truthy or the empty string. *)
Lemma rewrite_delta_object (started s : bool) (dps : list (jsstring * value))
  (d' : value) :
  rewrite_delta cfg started (VObj dps) = (s, Ok d') ->
  exists dps',
    d' = VObj dps'
    /\ has (str "reasoning_content") dps' = false
    /\ (truthy (lookup (str "content") dps') = true
        \/ lookup (str "content") dps' = VStr []).
Proof.
  unfold rewrite_delta.
  set (reasoning := opt_member (VObj dps) "reasoning_content").
  set (content := opt_member (VObj dps) "content").
  assert (Hfinal : forall (s1 : bool) (ps1 : list (jsstring * value)),
    (let delta2 := remove (VObj ps1) "reasoning_content" in
     (s1, @Ok value (if truthy (opt_member delta2 "content") then delta2
                     else assign delta2 "content" (VStr []))))
    = (s, Ok d') ->
    exists dps',
      d' = VObj dps'
      /\ has (str "reasoning_content") dps' = false
      /\ (truthy (lookup (str "content") dps') = true
          \/ lookup (str "content") dps' = VStr [])).
  { intros s1 ps1. simpl. unfold opt_member, own.
    destruct (truthy (lookup (str "content") (JSValue.delete _ ps1))) eqn:T;
      intros H; injection H as _ <-.
    - eexists; split; [reflexivity|]. split; [apply has_delete | left; exact T].
    - eexists; split; [reflexivity|]. split.
      + rewrite has_set_other by exact content_is_not_reasoning.
        apply has_delete.
      + right. apply lookup_set. }
  destruct (SHOW_REASONING cfg).
  - destruct (merge started reasoning content) as [s1 [combined|e]];
      [|discriminate].
    destruct (truthy combined); apply Hfinal.
  - apply Hfinal.
Qed.


(** With the reasoning display off the rewriter never throws, keeps the
    flag, and gives [content] back when it is truthy. *)
Lemma rewrite_delta_off (started : bool) (dps : list (jsstring * value)) :
  SHOW_REASONING cfg = false ->
  exists dps',
    rewrite_delta cfg started (VObj dps) = (started, Ok (VObj dps'))
    /\ has (str "reasoning_content") dps' = false
    /\ lookup (str "content") dps'
       = (if truthy (lookup (str "content") dps)
          then lookup (str "content") dps else VStr []).
Proof.
  intros Hoff. unfold rewrite_delta. rewrite Hoff. simpl.
  unfold opt_member, own.
  rewrite (lookup_delete_other _ _ dps reasoning_is_not_content).
  destruct (truthy (lookup (str "content") dps)) eqn:T.
  - eexists; split; [reflexivity|]. split; [apply has_delete|].
    apply (lookup_delete_other _ _ dps reasoning_is_not_content).
  - eexists; split; [reflexivity|]. split.
    + rewrite has_set_other by exact content_is_not_reasoning.
      apply has_delete.
    + apply lookup_set.
Qed.

End Rewriter.

(** ** Frames in the streaming path *)

(** The four steps of the merge on text: open, continue, close, plain. *)
Lemma merge_policy (r c : jsstring) :
  r <> [] -> c <> [] ->
  merge false (VStr r) VUndefined = (true, Ok (VStr (think_open ++ r)))
  /\ merge true (VStr r) VUndefined = (true, Ok (VStr r))
  /\ merge true VUndefined (VStr c) = (false, Ok (VStr (think_close ++ c)))
  /\ merge false VUndefined (VStr c) = (false, Ok (VStr c)).
Proof.
  intros Hr Hc. destruct r as [|x r]; [congruence|].
  destruct c as [|y c]; [congruence|]. repeat split.
Qed.

(** C4.  With the reasoning display on and no section open, the deltas
    [{reasoning_content:"A"}], [{reasoning_content:"B"}], [{content:"C"}]
    come out as three frames, none of them with [reasoning_content], whose
    [delta.content] are "<think>\nA", "B" and "</think>\n\nC": together
    "<think>\nAB</think>\n\nC".  The section is closed afterwards. *)
Theorem C4_reasoning_merge (cfg : config) :
  SHOW_REASONING cfg = true ->
  let frames := [ delta_frame "reasoning_content" "A";
                  delta_frame "reasoning_content" "B";
                  delta_frame "content" "C" ] in
  rewrite_all cfg false frames
  = (false,
     [ Ok (VObj [ (str "choices", VArr [ VObj [ (str "delta",
             VObj [ (str "content", VStr (str "<think>" ++ nl ++ str "A")) ]) ] ]) ]);
       Ok (delta_frame "content" "B");
       Ok (VObj [ (str "choices", VArr [ VObj [ (str "delta",
             VObj [ (str "content",
                     VStr (str "</think>" ++ nl ++ nl ++ str "C")) ]) ] ]) ]) ])
  /\ contents (snd (rewrite_all cfg false frames))
     = str "<think>" ++ nl ++ str "AB</think>" ++ nl ++ nl ++ str "C".
Proof.
  intros Hon. simpl. unfold rewrite, rewrite_delta. simpl. rewrite Hon.
  split; reflexivity.
Qed.

Lemma C4_reasoning_merge_witness :
  SHOW_REASONING reasoning_on = true
  /\ contents (snd (rewrite_all reasoning_on false
                      [ delta_frame "reasoning_content" "A";
                        delta_frame "reasoning_content" "B";
                        delta_frame "content" "C" ]))
     = str "<think>" ++ nl ++ str "AB</think>" ++ nl ++ nl ++ str "C".
Proof.
  split; [reflexivity|].
  exact (proj2 (C4_reasoning_merge reasoning_on eq_refl)).
Defined.

(** The same three deltas as upstream lines: what is written. *)
Example reasoning_merge_written :
  on_lines reasoning_on false
    [ quoted "data: {'choices':[{'delta':{'reasoning_content':'A'}}]}";
      quoted "data: {'choices':[{'delta':{'reasoning_content':'B'}}]}";
      quoted "data: {'choices':[{'delta':{'content':'C'}}]}" ]
  = (false,
     [ quoted "data: {'choices':[{'delta':{'content':'<think>\nA'}}]}" ++ nl ++ nl;
       quoted "data: {'choices':[{'delta':{'content':'B'}}]}" ++ nl ++ nl;
       quoted "data: {'choices':[{'delta':{'content':'</think>\n\nC'}}]}" ++ nl ++ nl ]).
Proof. vm_compute. reflexivity. Qed.

(** A frame [{choices: [{delta: ...}, ...]}]: the rewriter on its first
    delta. *)
Lemma rewrite_first_choice (cfg : config) (started : bool)
  (ps cps : list (jsstring * value)) (rest : list value) :
  lookup (str "choices") ps = VArr (VObj cps :: rest) ->
  truthy (lookup (str "delta") cps) = true ->
  rewrite cfg started (VObj ps)
  = match rewrite_delta cfg started (lookup (str "delta") cps) with
    | (s, Ok delta') =>
        (s, Ok (VObj (JSValue.replace (str "choices")
                        (VArr (VObj (JSValue.replace (str "delta") delta' cps)
                               :: rest)) ps)))
    | (s, Throw e) => (s, Throw e)
    end.
Proof.
  intros Hc Hd. unfold rewrite, delta_of, opt_member, own, opt_first.
  rewrite Hc. simpl. rewrite Hd.
  destruct (rewrite_delta cfg started (lookup (str "delta") cps)) as [s [d|e]];
    [|reflexivity].
  unfold put_delta, opt_first. rewrite Hc. reflexivity.
Qed.

Lemma delta_after_rewrite (ps cps : list (jsstring * value)) (rest : list value)
  (delta' : value) :
  lookup (str "choices") ps = VArr (VObj cps :: rest) ->
  truthy (lookup (str "delta") cps) = true ->
  delta_of (VObj (JSValue.replace (str "choices")
                    (VArr (VObj (JSValue.replace (str "delta") delta' cps)
                           :: rest)) ps))
  = delta'.
Proof.
  intros Hc Hd. unfold delta_of, opt_member, own, opt_first.
  rewrite lookup_replace.
  - simpl. apply lookup_replace, lookup_present.
    intros E. rewrite E in Hd. discriminate.
  - apply lookup_present. rewrite Hc. discriminate.
Qed.

(** C5 (amended).  For a frame [{choices: [{delta: {...}}, ...]}]:
    with the reasoning display off the frame is always rewritten, the
    flag is kept, and the rewritten [delta.content] is the original one
    when that is truthy and the empty string when it is absent or falsy
    (null, false, 0, NaN, the empty string); [delta] then has no
    [reasoning_content].  Whatever the toggle, a frame that is rewritten
    has no [reasoning_content] in its first delta. *)
Theorem C5_content_kept_when_truthy (cfg : config) (started : bool)
  (ps cps dps : list (jsstring * value)) (rest : list value) :
  lookup (str "choices") ps = VArr (VObj cps :: rest) ->
  lookup (str "delta") cps = VObj dps ->
  (SHOW_REASONING cfg = false ->
   exists data' dps',
     rewrite cfg started (VObj ps) = (started, Ok data')
     /\ delta_of data' = VObj dps'
     /\ has (str "reasoning_content") dps' = false
     /\ content_of data'
        = (if truthy (lookup (str "content") dps)
           then lookup (str "content") dps else VStr []))
  /\ (forall s data',
        rewrite cfg started (VObj ps) = (s, Ok data') ->
        exists dps',
          delta_of data' = VObj dps'
          /\ has (str "reasoning_content") dps' = false).
Proof.
  intros Hc Hd.
  assert (Ht : truthy (lookup (str "delta") cps) = true) by (rewrite Hd; reflexivity).
  rewrite (rewrite_first_choice cfg started ps cps rest Hc Ht), Hd.
  split.
  - intros Hoff.
    destruct (rewrite_delta_off cfg started dps Hoff) as (dps' & Hr & Hno & Hcontent).
    rewrite Hr. eexists; exists dps'. split; [reflexivity|].
    unfold content_of. rewrite (delta_after_rewrite ps cps rest _ Hc Ht).
    repeat split; assumption.
  - intros s data' H.
    destruct (rewrite_delta cfg started (VObj dps)) as [s1 [d|e]] eqn:Hr;
      [|discriminate].
    injection H as _ <-.
    destruct (rewrite_delta_object cfg started s1 dps d Hr) as (dps' & -> & Hno & _).
    exists dps'. rewrite (delta_after_rewrite ps cps rest _ Hc Ht). auto.
Qed.

Lemma C5_content_kept_when_truthy_witness :
  let dps := [ (str "role", VStr (str "assistant"));
               (str "content", VStr (str "Hi"));
               (str "reasoning_content", VStr (str "hm")) ] in
  let cps := [ (str "delta", VObj dps) ] in
  let ps := [ (str "choices", VArr [ VObj cps ]) ] in
  lookup (str "choices") ps = VArr [ VObj cps ]
  /\ lookup (str "delta") cps = VObj dps
  /\ SHOW_REASONING reasoning_off = false
  /\ exists data' dps',
       rewrite reasoning_off false (VObj ps) = (false, Ok data')
       /\ delta_of data' = VObj dps'
       /\ has (str "reasoning_content") dps' = false
       /\ content_of data' = VStr (str "Hi").
Proof.
  intros dps cps ps. repeat (split; [reflexivity|]).
  exact (proj1 (C5_content_kept_when_truthy reasoning_off false ps cps dps []
                  eq_refl eq_refl) eq_refl).
Defined.

(** C5 as stated fails on a [content] that is present and falsy: the
    frame [{choices:[{delta:{content:false}}]}] comes out with the empty
    string for [content], which is not the original [false]. *)
Lemma C5_counterexample :
  content_of (json "{'choices':[{'delta':{'content':false}}]}") = VBool false
  /\ rewrite reasoning_off false (json "{'choices':[{'delta':{'content':false}}]}")
     = (false, Ok (json "{'choices':[{'delta':{'content':''}}]}"))
  /\ content_of (json "{'choices':[{'delta':{'content':''}}]}") = VStr []
  /\ VStr [] <> VBool false.
Proof. repeat split; try reflexivity. discriminate. Qed.



(** The second choice of such a frame keeps its [reasoning_content]. *)
Example second_choice_untouched :
  rewrite reasoning_off false
    (json "{'choices':[{'delta':{'reasoning_content':'x'}},{'delta':{'reasoning_content':'y'}}]}")
  = (false,
     Ok (json "{'choices':[{'delta':{'content':''}},{'delta':{'reasoning_content':'y'}}]}")).
Proof. reflexivity. Qed.

(** ** Model resolution *)

(** Every key of the table resolves to its entry. *)
Lemma nimModel_table (k : jsstring) (v : value) :
  In (k, v) MODEL_MAPPING -> nimModel (VStr k) = Ok v.
Proof.
  unfold MODEL_MAPPING. simpl.
  intros [H|[H|[H|[H|[H|[H|[H|[]]]]]]]]; injection H as <- <-;
    vm_compute; reflexivity.
Qed.

Lemma pickFallbackModel_string (m : jsstring) :
  pickFallbackModel (VStr m) = Ok (tier_by_substring (toLowerCase m)).
Proof.
  assert (E : or_else (VStr m) (VStr []) = VStr m)
    by (destruct m; reflexivity).
  unfold pickFallbackModel, tier_by_substring. rewrite E. simpl.
  set (lower := toLowerCase m).
  destruct (includes lower (str "405b") || includes lower (str "gpt-4")
            || includes lower (str "opus")); [reflexivity|].
  destruct (includes lower (str "70b") || includes lower (str "sonnet")
            || includes lower (str "gemini")); reflexivity.
Qed.

(** A string that is neither a key of the table nor the name of a
    property of [Object.prototype] resolves to the tier its lowercase
    form selects. *)
Lemma nimModel_fallback (m : jsstring) :
  has m MODEL_MAPPING = false ->
  inherited m = VUndefined ->
  nimModel (VStr m) = Ok (VStr (tier_by_substring (toLowerCase m))).
Proof.
  intros Hown Hinh. unfold nimModel. simpl ToString. unfold bind at 1.
  unfold JSValue.get. rewrite Hown, Hinh. simpl truthy. cbv iota.
  rewrite pickFallbackModel_string. reflexivity.
Qed.

Example fallback_tiers :
  map (fun m => nimModel (VStr (str m)))
      ["Llama-405B"; "my-GPT-4-mini"; "claude-OPUS-x"; "llama-70b"; "Sonnet-4";
       "GEMINI-ultra"; "mistral-7b"; "gpt-40570b"]%string
  = map (fun t => Ok (VStr t))
      [tier_405b; tier_405b; tier_405b; tier_70b; tier_70b; tier_70b; tier_8b;
       tier_405b].
Proof. vm_compute. reflexivity. Qed.

(** C1 on the code.  "constructor" is not a key of the table, yet
    [MODEL_MAPPING["constructor"]] is the function inherited from
    [Object.prototype]; it is truthy, so no fallback is taken and the
    resolved model is none of the three tiers, nor a string at all. *)
Theorem C1_inherited_name_resolves_to_no_tier :
  has (str "constructor") MODEL_MAPPING = false
  /\ nimModel (VStr (str "constructor"))
     = Ok (VBuiltin (NativeFunction "constructor"))
  /\ (forall tier, nimModel (VStr (str "constructor")) <> Ok (VStr tier))
  /\ JSON.stringify (VBuiltin (NativeFunction "constructor")) = None.
Proof.
  split; [reflexivity|]. split; [reflexivity|]. split; [|reflexivity].
  intros tier H. vm_compute in H. discriminate.
Qed.

(** So for every name [Object.prototype] defines. *)
Lemma nimModel_inherited (m : jsstring) :
  has m MODEL_MAPPING = false ->
  inherited m <> VUndefined ->
  exists b, nimModel (VStr m) = Ok (VBuiltin b).
Proof.
  intros Hown Hinh. unfold nimModel. simpl ToString. unfold bind at 1.
  unfold JSValue.get. rewrite Hown. revert Hinh. unfold inherited.
  destruct (JSString.eqb m (str "__proto__")).
  - intros _. eexists. reflexivity.
  - destruct (find _ object_prototype_functions).
    + intros _. eexists. reflexivity.
    + congruence.
Qed.

(** Resolution has no error path: every string resolves to a value. *)
Lemma nimModel_total (m : jsstring) : exists v, nimModel (VStr m) = Ok v.
Proof.
  unfold nimModel. simpl ToString. unfold bind at 1.
  destruct (truthy (JSValue.get MODEL_MAPPING m)).
  - eexists. reflexivity.
  - rewrite pickFallbackModel_string. eexists. reflexivity.
Qed.

(** ** The request handler *)

Section Handler.

Variables (cfg : config) (w : world).

(** A request that reached the upstream passed the validation, and the
    response is made from the upstream's answer. *)
Lemma chat_completions_issued (req_body : value) (call : upstream_call) :
  calls (chat_completions cfg w req_body) = [call] ->
  (exists m, opt_member req_body "model" = VStr m)
  /\ build_call cfg req_body (opt_member req_body "model")
       (opt_member req_body "messages") = Ok call
  /\ chat_completions cfg w req_body
     = finish w [call]
         (up <- axios_post w call ;;
          respond cfg w (opt_member req_body "model")
            (nr_stream (call_body call)) up).
Proof.
  unfold chat_completions.
  destruct (negb (truthy (NIM_API_KEY cfg))); [discriminate|].
  assert (Hbody : or_else req_body (VObj []) = req_body
                  \/ opt_member (or_else req_body (VObj [])) "model" = VUndefined).
  { unfold or_else. destruct (truthy req_body); [left | right]; reflexivity. }
  destruct Hbody as [-> | Hm].
  - destruct (negb (truthy (opt_member req_body "model"))
              || negb (String.eqb (typeof (opt_member req_body "model")) "string"))
      eqn:Hv; [discriminate|].
    destruct (negb (isArray (opt_member req_body "messages"))); [discriminate|].
    destruct (build_call cfg req_body _ _) as [call0|e]; [|discriminate].
    simpl. intros H. injection H as ->.
    split; [|split; reflexivity].
    apply orb_false_iff in Hv. destruct Hv as [_ Hv].
    destruct (opt_member req_body "model") as [| | | |m| | |[|n]];
      try discriminate. exists m. reflexivity.
  - rewrite Hm. discriminate.
Qed.

End Handler.

(** ** Validation *)

(** C9 (amended).  A request whose body lacks [model] (or whose model is
    not a string, or is empty) or lacks [messages] (or whose messages is
    not an array) never reaches the upstream; when the API key is
    configured the response is HTTP 400 with type
    [invalid_request_error]. *)
Theorem C9_invalid_request_rejected (cfg : config) (w : world) (req_body : value) :
  lacks_required_fields req_body ->
  calls (chat_completions cfg w req_body) = []
  /\ (truthy (NIM_API_KEY cfg) = true ->
      exists message,
        (message = str "Missing or invalid 'model' in request body"
         \/ message = str "Missing or invalid 'messages' array in request body")
        /\ sent (chat_completions cfg w req_body)
           = Json 400 (BodyValue (error_envelope (VStr message)
                                    "invalid_request_error" 400))).
Proof.
  unfold lacks_required_fields, chat_completions.
  destruct (truthy (NIM_API_KEY cfg)); simpl negb; cbv iota.
  2:{ intros _. split; [reflexivity | discriminate]. }
  set (body := or_else req_body (VObj [])).
  intros H.
  destruct (negb (truthy (opt_member body "model"))
            || negb (String.eqb (typeof (opt_member body "model")) "string"))
    eqn:Hv.
  { split; [reflexivity|]. intros _. eexists.
    split; [left; reflexivity | reflexivity]. }
  destruct (negb (isArray (opt_member body "messages"))) eqn:Ha.
  { split; [reflexivity|]. intros _. eexists.
    split; [right; reflexivity | reflexivity]. }
  exfalso. apply orb_false_iff in Hv. destruct Hv as [Ht Hs].
  destruct H as [H|[H|H]].
  - apply H. apply negb_false_iff in Hs. apply String.eqb_eq, Hs.
  - rewrite H in Ht. discriminate.
  - rewrite H in Ha. discriminate.
Qed.


Lemma C9_invalid_request_rejected_witness :
  let req_body := json "{'messages':[{'role':'user','content':'hi'}]}" in
  let w := answering (Ok {| status := 200; data := Buffered VNull |}) in
  lacks_required_fields req_body
  /\ calls (chat_completions reasoning_off w req_body) = []
  /\ (truthy (NIM_API_KEY reasoning_off) = true ->
      exists message,
        (message = str "Missing or invalid 'model' in request body"
         \/ message = str "Missing or invalid 'messages' array in request body")
        /\ sent (chat_completions reasoning_off w req_body)
           = Json 400 (BodyValue (error_envelope (VStr message)
                                    "invalid_request_error" 400))).
Proof.
  intros req_body w.
  assert (H : lacks_required_fields req_body) by (left; discriminate).
  split; [exact H|].
  exact (C9_invalid_request_rejected reasoning_off w req_body H).
Defined.

(** C9 as stated fails when the API key is not configured: the check of
    the key comes first, and a request without [model] is answered with
    HTTP 500 and type [server_error]. *)
Lemma C9_counterexample :
  lacks_required_fields (json "{'messages':[]}")
  /\ sent (chat_completions (source_config VUndefined)
             (answering (Ok {| status := 200; data := Buffered VNull |}))
             (json "{'messages':[]}"))
     = Json 500 (BodyValue (error_envelope (VStr missing_key_message)
                              "server_error" 500)).
Proof. split; [left; discriminate | reflexivity]. Qed.

(** ** Numeric fields *)

(** The temperature sent upstream is always finite: the caller's value
    under [+] when that is finite, 0.6 otherwise. *)
Lemma temperature_coerced (cfg : config) (body model messages : value)
  (call : upstream_call) :
  build_call cfg body model messages = Ok call ->
  exists t,
    ToNumber (opt_member body "temperature") = Ok t
    /\ nr_temperature (call_body call)
       = (if JSNumber.isFinite t then t else default_temperature)
    /\ JSNumber.isFinite (nr_temperature (call_body call)) = true.
Proof.
  unfold build_call.
  destruct (ToNumber (opt_member body "temperature")) as [t|e] eqn:Ht;
    [|discriminate].
  unfold bind at 1.
  assert (Htemp :
    (if JSNumber.isFinite t then Ok t else Ok default_temperature)
    = Ok (if JSNumber.isFinite t then t else default_temperature))
    by (destruct (JSNumber.isFinite t); reflexivity).
  rewrite Htemp. unfold bind at 1.
  destruct (ToNumber (opt_member body "max_tokens")) as [m|e]; [|discriminate].
  unfold bind at 1.
  destruct (if JSNumber.isFinite m then _ else _) as [mt|e]; [|discriminate].
  unfold bind at 1.
  destruct (nimModel model) as [r|e]; [|discriminate]. unfold bind at 1.
  destruct (ToString (NIM_API_KEY cfg)) as [k|e]; [|discriminate].
  unfold bind. intros H. injection H as <-. simpl.
  exists t. split; [reflexivity|]. split; [reflexivity|].
  destruct (JSNumber.isFinite t) eqn:F; [exact F | reflexivity].
Qed.

(** The limit sent upstream is 2048 when the caller's value is not
    finite under [+]; when it is, the limit is what [parseInt] makes of
    the value, finite or not. *)
Lemma max_tokens_coerced (cfg : config) (body model messages : value)
  (call : upstream_call) :
  build_call cfg body model messages = Ok call ->
  exists m,
    ToNumber (opt_member body "max_tokens") = Ok m
    /\ (JSNumber.isFinite m = false ->
        nr_max_tokens (call_body call) = default_max_tokens)
    /\ (JSNumber.isFinite m = true ->
        parseInt (opt_member body "max_tokens")
        = Ok (nr_max_tokens (call_body call))).
Proof.
  unfold build_call.
  destruct (ToNumber (opt_member body "temperature")) as [t|e]; [|discriminate].
  unfold bind at 1.
  destruct (if JSNumber.isFinite t then _ else _) as [temperature|e];
    [|discriminate].
  unfold bind at 1.
  destruct (ToNumber (opt_member body "max_tokens")) as [m|e] eqn:Hm;
    [|discriminate].
  unfold bind at 1.
  destruct (if JSNumber.isFinite m then _ else _) as [mt|e] eqn:Hmt;
    [|discriminate].
  unfold bind at 1.
  destruct (nimModel model) as [r|e]; [|discriminate]. unfold bind at 1.
  destruct (ToString (NIM_API_KEY cfg)) as [k|e]; [|discriminate].
  unfold bind. intros H. injection H as <-. simpl.
  exists m. split; [reflexivity|].
  destruct (JSNumber.isFinite m); split; intros F; try discriminate.
  - exact Hmt.
  - injection Hmt as <-. reflexivity.
Qed.

Example null_max_tokens_request :
  json "{'model':'gpt-4','messages':[],'max_tokens':null}"
  = VObj [ (str "model", VStr (str "gpt-4")); (str "messages", VArr []);
           (str "max_tokens", VNull) ].
Proof. reflexivity. Qed.

(** C6 on the code.  For [max_tokens: null] the guard tests [+null],
    which is 0 and finite, and the value sent is [parseInt(null, 10)],
    which is NaN: the upstream request carries NaN (which JSON renders as
    null), not 2048.  The temperature of the same request is the
    default. *)
Theorem C6_null_max_tokens_sent_as_NaN (w : world) :
  let req_body := json "{'model':'gpt-4','messages':[],'max_tokens':null}" in
  map (fun call => (nr_max_tokens (call_body call),
                    nr_temperature (call_body call)))
      (calls (chat_completions reasoning_off w req_body))
  = [(NaN, default_temperature)]
  /\ JSON.stringify (VNum NaN) = Some (str "null").
Proof. split; vm_compute; reflexivity. Qed.

(** The same defect on strings and on large numbers: the guard and the
    conversion read the value differently. *)
Example max_tokens_conversions :
  map (fun v => (ToNumber v, parseInt v))
      [ VStr []; json "'1e3'"; json "1e21"; json "true"; json "'12px'";
        json "100"; json "100.7" ]
  = [ (Ok (JSNumber.of_Z 0), Ok NaN);
      (Ok (JSNumber.of_Z 1000), Ok (JSNumber.of_Z 1));
      (Ok (JSNumber.of_decimal false 1 21), Ok (JSNumber.of_Z 1));
      (Ok (JSNumber.of_Z 1), Ok NaN);
      (Ok NaN, Ok (JSNumber.of_Z 12));
      (Ok (JSNumber.of_Z 100), Ok (JSNumber.of_Z 100));
      (Ok (JSNumber.of_decimal false 1007 (-1)), Ok (JSNumber.of_Z 100)) ].
Proof. vm_compute. reflexivity. Qed.

(** ** Non-streaming translation *)




(** The envelope of that exchange, as it is serialised. *)
Example non_streaming_envelope :
  let w := answering (Ok {| status := 200;
             data := Buffered (json "{'choices':[{'message':{'content':'hello'}}]}") |}) in
  sent (chat_completions reasoning_off w (json "{'model':'gpt-4','messages':[]}"))
  = Json 200 (BodyValue (json
      "{'id':'chatcmpl-1700000000123','object':'chat.completion','created':1700000000,'model':'gpt-4','choices':[{'index':0,'message':{'role':'assistant','content':'hello'},'finish_reason':'stop'}],'usage':{'prompt_tokens':0,'completion_tokens':0,'total_tokens':0}}")).
Proof. vm_compute. reflexivity. Qed.

(** ** Upstream errors *)






(** A body that is the JSON text [null] is forwarded as it is, not
    wrapped. *)
Example upstream_error_null_body :
  sent (chat_completions reasoning_off
          (answering (Ok {| status := 500; data := Buffered VNull |}))
          (json "{'model':'gpt-4','messages':[]}"))
  = Json 500 (BodyValue VNull).
Proof. vm_compute. reflexivity. Qed.

(** When a stream was asked for, the error status is answered with
    [res.json] applied to the stream object: the upstream body is not
    read, whatever it holds. *)
Example upstream_error_while_streaming :
  sent (chat_completions reasoning_off
          (answering (Ok {| status := 429;
                            data := Live [quoted "{'error':'slow down'}"] StreamEnd |}))
          (json "{'model':'gpt-4','messages':[],'stream':true}"))
  = Json 429 BodyStreamObject.
Proof. vm_compute. reflexivity. Qed.

(** ** Classification of candidate lines *)

Lemma startsWith_app (s p : jsstring) :
  startsWith s p = true -> s = p ++ skipn (List.length p) s.
Proof.
  revert s; induction p as [|c p IH]; intros s; [reflexivity|].
  destruct s as [|d s]; simpl; [discriminate|].
  intros H. apply andb_true_iff in H. destruct H as [Hc Hp].
  apply N.eqb_eq in Hc. subst d. f_equal. apply IH, Hp.
Qed.

(** What the loop does with a candidate line, by cases. *)
Lemma classify_cases (line : jsstring) :
  (startsWith line (str "data: ") = false -> classify line = Discarded)
  /\ (startsWith line (str "data: ") = true ->
      includes line (str "[DONE]") = true ->
      classify line = TerminationMarker)
  /\ (startsWith line (str "data: ") = true ->
      includes line (str "[DONE]") = false ->
      classify line = match JSON.parse (slice 6 line) with
                      | Some data => DataFrame data
                      | None => RawText line
                      end).
Proof.
  unfold classify. repeat split; intros; repeat
    match goal with H : _ = _ |- _ => rewrite H; clear H end; reflexivity.
Qed.

(** A line whose payload is the termination token gives one termination
    frame, whatever the configuration and the flag. *)
Lemma done_line (cfg : config) (started : bool) (line : jsstring) :
  startsWith line (str "data: ") = true ->
  slice 6 line = str "[DONE]" ->
  classify line = TerminationMarker
  /\ on_line cfg started line = (started, [done_frame]).
Proof.
  intros Hp Hs. apply startsWith_app in Hp. unfold slice in Hs.
  change (List.length (str "data: ")) with 6%nat in Hp. rewrite Hs in Hp.
  subst line. split; reflexivity.
Qed.

(** C3 on the code.  The line
    [data: {"choices":[{"delta":{"content":"[DONE]"}}]}] begins with the
    prefix, its payload is not the termination token and parses as JSON;
    the test is [line.includes("[DONE]")], so the line is taken for the
    termination marker and a termination frame is written in place of the
    data frame. *)
Theorem C3_done_inside_payload_ends_stream :
  let line := quoted "data: {'choices':[{'delta':{'content':'[DONE]'}}]}" in
  startsWith line (str "data: ") = true
  /\ slice 6 line <> str "[DONE]"
  /\ JSON.parse (slice 6 line)
     = Some (delta_frame "content" "[DONE]")
  /\ classify line = TerminationMarker
  /\ on_line reasoning_off false line = (false, [done_frame]).
Proof. repeat split; try reflexivity. discriminate. Qed.

(** ** Chunk boundaries inside a character *)

(** C2 on the code.  The event stream [data: {"text":"é"}] followed by a
    newline, with "é" as its two UTF-8 bytes, cut between those two bytes.
    Each chunk is decoded on its own, so each half of the character
    becomes U+FFFD: the whole sequence gives the frame with "é", the two
    chunks give a frame with two replacement characters, and what is
    written differs as well. *)
Theorem C2_cut_inside_character_changes_frame :
  let c1 := quoted "data: {'text':'" ++ [195%N] in
  let c2 := [169%N] ++ quoted "'}" ++ nl in
  Utf8.aligned (c1 ++ c2)
  /\ logical_frames [c1 ++ c2]
     = [DataFrame (VObj [(str "text", VStr [233%N])])]
  /\ logical_frames [c1; c2]
     = [DataFrame (VObj [(str "text", VStr [65533%N; 65533%N])])]
  /\ logical_frames [c1; c2] <> logical_frames [c1 ++ c2]
  /\ snd (feed reasoning_off stream_start [c1; c2])
     <> snd (feed reasoning_off stream_start [c1 ++ c2]).
Proof.
  repeat split; try reflexivity; vm_compute; discriminate.
Qed.

(** The termination line cut at every offset of its text: one
    termination frame each time. *)
Example done_line_cut_anywhere :
  let text := str "data: [DONE]" ++ nl in
  forallb (fun n =>
             match snd (feed reasoning_off stream_start
                          [firstn n text; skipn n text]) with
             | [w] => JSString.eqb w done_frame
             | _ => false
             end)
          (seq 0 (S (List.length text)))
  = true.
Proof. vm_compute. reflexivity. Qed.

(** The termination line, cut into chunks anywhere and any number of
    times, gives exactly one termination frame. *)
Theorem done_line_any_chunking (cfg : config) (chunks : list (list N)) :
  List.concat chunks = str "data: [DONE]" ++ nl ->
  snd (feed cfg stream_start chunks) = [done_frame].
Proof.
  intros H. rewrite ascii_boundary_invariance.
  - rewrite H. reflexivity.
  - apply Forall_concat. rewrite H.
    repeat (constructor; [apply N.leb_le; reflexivity|]). constructor.
Qed.

(** ** The built-ins on known values *)

Example number_toString_samples :
  map (fun s => JSNumber.toString (JSNumber.ofString (str s)))
      [ "0.1"; "0.6"; "100"; "2048"; "1e21"; "1e23"; "123.456"; "0.000001";
        "0.0000005"; "5e-324"; "1.7976931348623157e308"; "1e309"; "-0";
        "9007199254740993"; "0.30000000000000004"; "-1.5e-10";
        "999999999999999900000" ]%string
  = map str
      [ "0.1"; "0.6"; "100"; "2048"; "1e+21"; "1e+23"; "123.456"; "0.000001";
        "5e-7"; "5e-324"; "1.7976931348623157e+308"; "Infinity"; "0";
        "9007199254740992"; "0.30000000000000004"; "-1.5e-10";
        "999999999999999900000" ]%string.
Proof. vm_compute. reflexivity. Qed.

Example number_ofString_samples :
  map (fun s => JSNumber.ofString (str s))
      [ ""; "  42  "; "0x1F"; "0b101"; "0o17"; "5."; ".5"; "+.5e-3";
        "Infinity"; "-Infinity"; "abc"; "1e"; "."; "1_0"; "-0x10"; "12px" ]%string
  = [ S754_zero false; JSNumber.of_Z 42; JSNumber.of_Z 31; JSNumber.of_Z 5;
      JSNumber.of_Z 15; JSNumber.of_Z 5; JSNumber.of_decimal false 5 (-1);
      JSNumber.of_decimal false 5 (-4); Infinity false; Infinity true;
      NaN; NaN; NaN; NaN; NaN; NaN ].
Proof. vm_compute. reflexivity. Qed.

Example parseInt_samples :
  map (fun s => JSNumber.parseInt10 (str s))
      [ "null"; "12px"; " -7.9"; "1e3"; ""; "0x10"; "+5"; "true"; "5e-7" ]%string
  = [ NaN; JSNumber.of_Z 12; JSNumber.of_Z (-7); JSNumber.of_Z 1; NaN;
      JSNumber.of_Z 0; JSNumber.of_Z 5; NaN; JSNumber.of_Z 5 ].
Proof. vm_compute. reflexivity. Qed.

Example json_samples :
  map (fun s => option_map JSON.stringify_text (JSON.parse (quoted s)))
      [ "{'b':1,'2':2,'1':3,'b':4}"; " [ 1 , 2.50 , -0 , 1e3 , true , null ] ";
        "{'a':{'b':['x\ny\u00e9']}}"; "'[DONE]'"; "[DONE]"; "[1,]"; "01";
        "{'a':1,}"; "nul"; "" ]%string
  = [ Some (quoted "{'1':3,'2':2,'b':4}"); Some (str "[1,2.5,0,1000,true,null]");
      Some (quoted "{'a':{'b':['x\ny" ++ [233%N] ++ quoted "']}}");
      Some (quoted "'[DONE]'"); None; None; None; None; None; None ].
Proof. vm_compute. reflexivity. Qed.

Example utf8_samples :
  map Utf8.toString
      [ [104; 105]; [195; 169]; [226; 130; 172]; [240; 159; 152; 128];
        [195]; [169]; [226; 130]; [192; 128]; [237; 160; 128] ]%N
  = [ [104; 105]; [233]; [8364]; [55357; 56832];
      [65533]; [65533]; [65533]; [65533; 65533]; [65533; 65533; 65533] ]%N.
Proof. vm_compute. reflexivity. Qed.

Example coercion_samples :
  map ToString
      [ json "[1,[2,3],null,'a']"; json "{'a':1}"; json "{'toString':1}";
        json "[{'toString':1}]"; json "1e21"; json "true" ]
  = [ Ok (str "1,2,3,,a"); Ok (str "[object Object]");
      Throw (TypeError NotPrimitive); Throw (TypeError NotPrimitive);
      Ok (str "1e+21"); Ok (str "true") ].
Proof. vm_compute. reflexivity. Qed.

(** * Further properties *)

(** ** The upstream call *)

(** What a call that was built holds, field by field. *)
Lemma build_call_fields (cfg : config) (body model messages : value)
  (call : upstream_call) :
  build_call cfg body model messages = Ok call ->
  exists resolved key,
    nimModel model = Ok resolved
    /\ ToString (NIM_API_KEY cfg) = Ok key
    /\ call_url call = NIM_API_BASE cfg ++ str "/chat/completions"
    /\ call_authorization call = str "Bearer " ++ key
    /\ call_timeout call = AXIOS_TIMEOUT_MS cfg
    /\ call_responseType call
       = (if nr_stream (call_body call) then "stream" else "json")%string
    /\ nr_model (call_body call) = resolved
    /\ nr_messages (call_body call) = messages
    /\ nr_stream (call_body call)
       = (if FORCE_NO_STREAM cfg then false
          else toBool (opt_member body "stream"))
    /\ nr_extra_body (call_body call)
       = (if ENABLE_THINKING_MODE cfg then Some thinking_extension else None).
Proof.
  unfold build_call.
  destruct (ToNumber (opt_member body "temperature")) as [t|e]; [|discriminate].
  unfold bind at 1.
  destruct (if JSNumber.isFinite t then _ else _) as [temperature|e];
    [|discriminate].
  unfold bind at 1.
  destruct (ToNumber (opt_member body "max_tokens")) as [m|e]; [|discriminate].
  unfold bind at 1.
  destruct (if JSNumber.isFinite m then _ else _) as [mt|e]; [|discriminate].
  unfold bind at 1.
  destruct (nimModel model) as [r|e]; [|discriminate]. unfold bind at 1.
  destruct (ToString (NIM_API_KEY cfg)) as [k|e]; [|discriminate].
  unfold bind. intros H. injection H as <-. cbn [call_url call_body
    call_authorization call_timeout call_responseType nr_model nr_messages
    nr_stream nr_extra_body].
  exists r, k. repeat split; reflexivity.
Qed.

(** A request that reached the upstream carried an array of messages. *)
Lemma issued_messages (cfg : config) (w : world) (req_body : value)
  (call : upstream_call) :
  calls (chat_completions cfg w req_body) = [call] ->
  truthy (NIM_API_KEY cfg) = true
  /\ isArray (opt_member req_body "messages") = true.
Proof.
  unfold chat_completions.
  destruct (truthy (NIM_API_KEY cfg)); [|discriminate]. simpl negb. cbv iota.
  assert (Hbody : or_else req_body (VObj []) = req_body
                  \/ opt_member (or_else req_body (VObj [])) "model" = VUndefined).
  { unfold or_else. destruct (truthy req_body); [left | right]; reflexivity. }
  destruct Hbody as [-> | Hm].
  - destruct (negb (truthy (opt_member req_body "model")) || _); [discriminate|].
    destruct (isArray (opt_member req_body "messages")); [|discriminate].
    auto.
  - rewrite Hm. discriminate.
Qed.

Lemma toBool_true (v : value) : toBool v = true <-> asks_for_stream v.
Proof.
  unfold toBool, asks_for_stream. rewrite !orb_true_iff. split.
  - intros [[[H|H]|H]|H]; destruct v as [| |b|n|s|l|ps|b]; try discriminate.
    + destruct b; [auto | discriminate].
    + simpl in H. apply eqb_eq in H. subst. auto.
    + simpl in H. right. right. right. exists n. auto.
    + simpl in H. apply eqb_eq in H. subst. auto.
  - intros [->|[->|[->|(n & -> & H)]]]; auto.
Qed.

(** X1.  The stream flag of a request that reached the upstream: set exactly
    when streaming is not forced off and [body.stream] is [true],
    ["true"], [1] or ["1"]; the response type asked of axios follows
    it. *)
Theorem stream_flag (cfg : config) (w : world) (req_body : value)
  (call : upstream_call) :
  calls (chat_completions cfg w req_body) = [call] ->
  (nr_stream (call_body call) = true <->
   FORCE_NO_STREAM cfg = false /\ asks_for_stream (opt_member req_body "stream"))
  /\ call_responseType call
     = (if nr_stream (call_body call) then "stream" else "json")%string.
Proof.
  intros Hcalls.
  destruct (chat_completions_issued cfg w req_body call Hcalls) as (_ & Hb & _).
  destruct (build_call_fields _ _ _ _ _ Hb)
    as (r & k & _ & _ & _ & _ & _ & Hrt & _ & _ & Hs & _).
  split; [|exact Hrt]. rewrite Hs.
  destruct (FORCE_NO_STREAM cfg).
  - split; [discriminate | intros [H _]; discriminate].
  - rewrite toBool_true. tauto.
Qed.

Lemma stream_flag_witness :
  let req_body := json "{'model':'gpt-4','messages':[],'stream':'true'}" in
  let w := answering (Ok {| status := 200; data := Live [] StreamEnd |}) in
  exists call,
    calls (chat_completions reasoning_off w req_body) = [call]
    /\ (nr_stream (call_body call) = true <->
        FORCE_NO_STREAM reasoning_off = false
        /\ asks_for_stream (opt_member req_body "stream"))
    /\ call_responseType call
       = (if nr_stream (call_body call) then "stream" else "json")%string.
Proof.
  intros req_body w.
  destruct (calls (chat_completions reasoning_off w req_body)) as [|call rest] eqn:E;
    [vm_compute in E; discriminate|].
  destruct rest; [|vm_compute in E; discriminate].
  exists call. split; [reflexivity|].
  exact (stream_flag reasoning_off w req_body call E).
Defined.

(** X2.  The rest of the call: the URL, the bearer token and the timeout come
    from the configuration alone; the messages are the caller's array as
    it came; the model is the resolved one; the thinking extension is
    attached exactly under ENABLE_THINKING_MODE, whatever the caller
    sent. *)
Theorem upstream_call_shape (cfg : config) (w : world) (req_body : value)
  (call : upstream_call) :
  calls (chat_completions cfg w req_body) = [call] ->
  call_url call = NIM_API_BASE cfg ++ str "/chat/completions"
  /\ call_timeout call = AXIOS_TIMEOUT_MS cfg
  /\ (exists key, ToString (NIM_API_KEY cfg) = Ok key
                  /\ call_authorization call = str "Bearer " ++ key)
  /\ nr_messages (call_body call) = opt_member req_body "messages"
  /\ isArray (nr_messages (call_body call)) = true
  /\ nimModel (opt_member req_body "model") = Ok (nr_model (call_body call))
  /\ nr_extra_body (call_body call)
     = (if ENABLE_THINKING_MODE cfg then Some thinking_extension else None).
Proof.
  intros Hcalls.
  destruct (chat_completions_issued cfg w req_body call Hcalls) as (_ & Hb & _).
  destruct (issued_messages cfg w req_body call Hcalls) as [_ Harr].
  destruct (build_call_fields _ _ _ _ _ Hb)
    as (r & k & Hr & Hk & Hu & Ha & Ht & _ & Hm & Hmsg & _ & He).
  rewrite Hmsg. repeat split; try assumption.
  - exists k. auto.
  - rewrite Hm. exact Hr.
Qed.

Lemma upstream_call_shape_witness :
  let req_body := json "{'model':'gpt-4','messages':[{'role':'user','content':'hi'}],'extra_body':{'x':1}}" in
  let w := answering (Ok {| status := 200; data := Buffered VNull |}) in
  exists call,
    calls (chat_completions reasoning_off w req_body) = [call]
    /\ call_url call = NIM_API_BASE reasoning_off ++ str "/chat/completions"
    /\ call_timeout call = AXIOS_TIMEOUT_MS reasoning_off
    /\ (exists key, ToString (NIM_API_KEY reasoning_off) = Ok key
                    /\ call_authorization call = str "Bearer " ++ key)
    /\ nr_messages (call_body call) = opt_member req_body "messages"
    /\ isArray (nr_messages (call_body call)) = true
    /\ nimModel (opt_member req_body "model") = Ok (nr_model (call_body call))
    /\ nr_extra_body (call_body call)
       = (if ENABLE_THINKING_MODE reasoning_off
          then Some thinking_extension else None).
Proof.
  intros req_body w.
  destruct (calls (chat_completions reasoning_off w req_body)) as [|call rest] eqn:E;
    [vm_compute in E; discriminate|].
  destruct rest; [|vm_compute in E; discriminate].
  exists call. split; [reflexivity|].
  exact (upstream_call_shape reasoning_off w req_body call E).
Defined.

(** X3.  When the upstream is called: exactly for a request with a
    configured key, a non-empty string for model and an array for
    messages whose numeric fields convert without throwing; and never
    more than once. *)
Theorem upstream_called_iff (cfg : config) (w : world) (req_body : value)
  (call : upstream_call) :
  (calls (chat_completions cfg w req_body) = [call] <->
   truthy (NIM_API_KEY cfg) = true
   /\ (exists m, m <> [] /\ opt_member req_body "model" = VStr m)
   /\ isArray (opt_member req_body "messages") = true
   /\ build_call cfg req_body (opt_member req_body "model")
        (opt_member req_body "messages") = Ok call)
  /\ (List.length (calls (chat_completions cfg w req_body)) <= 1)%nat.
Proof.
  split.
  - split.
    + intros Hcalls.
      destruct (chat_completions_issued cfg w req_body call Hcalls)
        as ((m & Hm) & Hb & _).
      destruct (issued_messages cfg w req_body call Hcalls) as [Hk Harr].
      repeat split; try assumption.
      exists m. split; [|exact Hm]. intros ->.
      revert Hcalls. unfold chat_completions. rewrite Hk. simpl negb. cbv iota.
      assert (or_else req_body (VObj []) = req_body) as ->.
      { unfold or_else. destruct req_body; try discriminate; reflexivity. }
      rewrite Hm. discriminate.
    + intros (Hk & (m & Hne & Hm) & Harr & Hb).
      unfold chat_completions. rewrite Hk. simpl negb. cbv iota.
      assert (or_else req_body (VObj []) = req_body) as ->.
      { unfold or_else. destruct req_body; try discriminate; reflexivity. }
      rewrite Hm in *. rewrite Harr, Hb. destruct m; [congruence|]. reflexivity.
  - unfold chat_completions.
    destruct (negb (truthy (NIM_API_KEY cfg))); [simpl; lia|].
    destruct (negb (truthy _) || _); [simpl; lia|].
    destruct (negb (isArray _)); [simpl; lia|].
    destruct (build_call cfg _ _ _); simpl; lia.
Qed.

Lemma upstream_called_iff_witness :
  let req_body := json "{'model':'my-model','messages':[]}" in
  let w := answering (Ok {| status := 200; data := Buffered VNull |}) in
  exists call,
    truthy (NIM_API_KEY reasoning_off) = true
    /\ (exists m, m <> [] /\ opt_member req_body "model" = VStr m)
    /\ isArray (opt_member req_body "messages") = true
    /\ build_call reasoning_off req_body (opt_member req_body "model")
         (opt_member req_body "messages") = Ok call
    /\ calls (chat_completions reasoning_off w req_body) = [call].
Proof.
  intros req_body w.
  destruct (build_call reasoning_off req_body (opt_member req_body "model")
              (opt_member req_body "messages")) as [call|e] eqn:E;
    [|vm_compute in E; discriminate].
  assert (Hm : exists m, m <> [] /\ opt_member req_body "model" = VStr m)
    by (eexists; split; [|reflexivity]; discriminate).
  exists call. split; [reflexivity|]. split; [exact Hm|].
  split; [reflexivity|]. split; [reflexivity|].
  exact (proj2 (proj1 (upstream_called_iff reasoning_off w req_body call))
           (conj eq_refl (conj Hm (conj eq_refl E)))).
Defined.

(** ** Numeric fields and failures *)

(** X4.  A request without temperature and max_tokens is sent with 0.6 and
    2048. *)
Theorem absent_numeric_fields_default (cfg : config) (w : world)
  (req_body : value) (call : upstream_call) :
  calls (chat_completions cfg w req_body) = [call] ->
  (opt_member req_body "temperature" = VUndefined ->
   nr_temperature (call_body call) = default_temperature)
  /\ (opt_member req_body "max_tokens" = VUndefined ->
      nr_max_tokens (call_body call) = default_max_tokens).
Proof.
  intros Hcalls.
  destruct (chat_completions_issued cfg w req_body call Hcalls) as (_ & Hb & _).
  split; intros Habsent.
  - destruct (temperature_coerced _ _ _ _ _ Hb) as (t & Ht & Hv & _).
    rewrite Habsent in Ht. injection Ht as <-. exact Hv.
  - destruct (max_tokens_coerced _ _ _ _ _ Hb) as (m & Hm & Hd & _).
    rewrite Habsent in Hm. injection Hm as <-. apply Hd. reflexivity.
Qed.

Lemma absent_numeric_fields_default_witness :
  let req_body := json "{'model':'gpt-4','messages':[]}" in
  let w := answering (Ok {| status := 200; data := Buffered VNull |}) in
  exists call,
    calls (chat_completions reasoning_off w req_body) = [call]
    /\ opt_member req_body "temperature" = VUndefined
    /\ opt_member req_body "max_tokens" = VUndefined
    /\ nr_temperature (call_body call) = default_temperature
    /\ nr_max_tokens (call_body call) = default_max_tokens.
Proof.
  intros req_body w.
  destruct (calls (chat_completions reasoning_off w req_body)) as [|call rest] eqn:E;
    [vm_compute in E; discriminate|].
  destruct rest; [|vm_compute in E; discriminate].
  exists call. split; [reflexivity|]. split; [reflexivity|].
  split; [reflexivity|].
  destruct (absent_numeric_fields_default reasoning_off w req_body call E)
    as [Ht Hm].
  split; [exact (Ht eq_refl) | exact (Hm eq_refl)].
Defined.

(** X5.  The temperature sent is the caller's value under [+] when that is
    finite and 0.6 otherwise: it is always finite. *)
Theorem temperature_sent_is_finite (cfg : config) (w : world)
  (req_body : value) (call : upstream_call) :
  calls (chat_completions cfg w req_body) = [call] ->
  exists t,
    ToNumber (opt_member req_body "temperature") = Ok t
    /\ nr_temperature (call_body call)
       = (if JSNumber.isFinite t then t else default_temperature)
    /\ JSNumber.isFinite (nr_temperature (call_body call)) = true.
Proof.
  intros Hcalls.
  destruct (chat_completions_issued cfg w req_body call Hcalls) as (_ & Hb & _).
  exact (temperature_coerced _ _ _ _ _ Hb).
Qed.

Lemma temperature_sent_is_finite_witness :
  let req_body := json "{'model':'gpt-4','messages':[],'temperature':'0.25'}" in
  let w := answering (Ok {| status := 200; data := Buffered VNull |}) in
  exists call,
    calls (chat_completions reasoning_off w req_body) = [call]
    /\ nr_temperature (call_body call) = JSNumber.of_decimal false 25 (-2)
    /\ exists t,
         ToNumber (opt_member req_body "temperature") = Ok t
         /\ nr_temperature (call_body call)
            = (if JSNumber.isFinite t then t else default_temperature)
         /\ JSNumber.isFinite (nr_temperature (call_body call)) = true.
Proof.
  intros req_body w.
  destruct (calls (chat_completions reasoning_off w req_body)) as [|call rest] eqn:E;
    [vm_compute in E; discriminate|].
  destruct rest; [|vm_compute in E; discriminate].
  assert (Hcall : call = hd call (calls (chat_completions reasoning_off w req_body)))
    by (rewrite E; reflexivity).
  exists call. split; [reflexivity|].
  split; [rewrite Hcall; vm_compute; reflexivity|].
  exact (temperature_sent_is_finite reasoning_off w req_body call E).
Defined.

(** Induction on values, through the lists they nest in. *)
Lemma value_nested_ind (P : value -> Prop) :
  P VUndefined -> P VNull -> (forall b, P (VBool b)) -> (forall n, P (VNum n)) ->
  (forall s, P (VStr s)) ->
  (forall l, Forall P l -> P (VArr l)) ->
  (forall ps, Forall (fun kv => P (snd kv)) ps -> P (VObj ps)) ->
  (forall b, P (VBuiltin b)) ->
  forall v, P v.
Proof.
  intros Hu Hn Hb Hnum Hs Ha Ho Hbi.
  fix IH 1.
  intros [| |b|n|s|l|ps|b];
    [exact Hu | exact Hn | apply Hb | apply Hnum | apply Hs | | | apply Hbi].
  - apply Ha. induction l as [|x l IHl]; constructor; [apply IH | exact IHl].
  - apply Ho. induction ps as [|[k x] ps IHps]; constructor;
      [apply IH | exact IHps].
Qed.

(** The only thing a conversion to string throws is the TypeError for a
    value without primitive form. *)
Lemma ToString_throws (v : value) (e : exn) :
  ToString v = Throw e -> e = TypeError NotPrimitive.
Proof.
  revert e. induction v as [| |b|n|s|l IHl|ps _|[|n]] using value_nested_ind;
    intros e; try discriminate.
  - simpl.
    set (each := fix each (l : list value) : result (list jsstring) :=
                   match l with
                   | [] => Ok []
                   | x :: rest =>
                       sx <- match x with
                             | VUndefined | VNull => Ok []
                             | _ => ToString x
                             end ;;
                       srest <- each rest ;;
                       Ok (sx :: srest)
                   end).
    assert (Heach : forall e', each l = Throw e' -> e' = TypeError NotPrimitive).
    { induction IHl as [|x l Hx _ IH]; intros e'; simpl; [discriminate|].
      destruct (match x with VUndefined | VNull => Ok [] | _ => ToString x end)
        as [sx|ex] eqn:Hsx; simpl.
      - destruct (each l) as [sr|er]; simpl; [discriminate|].
        intros H. injection H as <-. apply IH. reflexivity.
      - intros H. injection H as <-. apply Hx.
        destruct x; try discriminate; exact Hsx. }
    destruct (each l) as [parts|e']; simpl; [discriminate|].
    intros H. injection H as <-. apply Heach. reflexivity.
  - simpl. destruct (has (str "toString") ps); [|discriminate].
    intros H. injection H as <-. reflexivity.
Qed.

Lemma ToNumber_throws (v : value) (e : exn) :
  ToNumber v = Throw e -> e = TypeError NotPrimitive.
Proof.
  destruct v as [| | | | |l|ps|b]; try discriminate; unfold ToNumber;
    destruct (ToString _) as [s|e'] eqn:Hs; simpl; try discriminate;
    intros H; injection H as <-; exact (ToString_throws _ _ Hs).
Qed.

(** X6.  A temperature whose conversion throws (an object that hides
    [toString], or an array holding one) stops the request before the
    upstream is called; the answer is HTTP 500 from the [catch] block,
    with the engine's message. *)
Theorem conversion_failure_makes_no_call (cfg : config) (w : world)
  (req_body : value) (m : jsstring) (e : exn) :
  truthy (NIM_API_KEY cfg) = true ->
  m <> [] ->
  opt_member req_body "model" = VStr m ->
  isArray (opt_member req_body "messages") = true ->
  ToNumber (opt_member req_body "temperature") = Throw e ->
  calls (chat_completions cfg w req_body) = []
  /\ sent (chat_completions cfg w req_body)
     = Json 500
         (BodyValue
            (error_envelope
               (or_else (VStr (engine_message w NotPrimitive))
                  (VStr (str "Internal server error")))
               "invalid_request_error" 500)).
Proof.
  intros Hk Hne Hm Harr Ht.
  pose proof (ToNumber_throws _ _ Ht) as ->.
  unfold chat_completions. rewrite Hk. simpl negb. cbv iota.
  assert (or_else req_body (VObj []) = req_body) as ->.
  { unfold or_else. destruct req_body; try discriminate; reflexivity. }
  rewrite Hm, Harr. destruct m as [|c m]; [congruence|]. simpl negb. simpl orb.
  cbv iota. unfold build_call. rewrite <- Hm, Ht. simpl. split; reflexivity.
Qed.

Lemma conversion_failure_makes_no_call_witness :
  let req_body := json "{'model':'gpt-4','messages':[],'temperature':{'toString':1}}" in
  let w := answering (Ok {| status := 200; data := Buffered VNull |}) in
  truthy (NIM_API_KEY reasoning_off) = true
  /\ opt_member req_body "model" = VStr (str "gpt-4")
  /\ isArray (opt_member req_body "messages") = true
  /\ ToNumber (opt_member req_body "temperature") = Throw (TypeError NotPrimitive)
  /\ calls (chat_completions reasoning_off w req_body) = []
  /\ sent (chat_completions reasoning_off w req_body)
     = Json 500
         (BodyValue
            (error_envelope
               (or_else (VStr (engine_message w NotPrimitive))
                  (VStr (str "Internal server error")))
               "invalid_request_error" 500)).
Proof.
  intros req_body w. do 4 (split; [reflexivity|]).
  refine (conversion_failure_makes_no_call reasoning_off w req_body
            (str "gpt-4") (TypeError NotPrimitive) eq_refl _ eq_refl eq_refl
            eq_refl).
  discriminate.
Defined.

(** ** Failures of the transport *)

(** X7.  When the call to the upstream fails, the one call made is the only
    one; the answer carries the status of the failure's response when it
    has one that is not zero, and 500 otherwise, both as HTTP status and
    as [code], with type [invalid_request_error] and the failure's
    message (or "Internal server error" when that is empty). *)
Theorem transport_failure_answer (cfg : config) (w : world) (req_body : value)
  (call : upstream_call) (message : value) (response_status : option Z) :
  calls (chat_completions cfg w req_body) = [call] ->
  axios_post w call = Throw (AxiosError message response_status) ->
  sent (chat_completions cfg w req_body)
  = Json (caught_status response_status)
      (BodyValue
         (error_envelope (or_else message (VStr (str "Internal server error")))
            "invalid_request_error" (caught_status response_status))).
Proof.
  intros Hcalls Hpost.
  destruct (chat_completions_issued cfg w req_body call Hcalls) as (_ & _ & ->).
  rewrite Hpost. reflexivity.
Qed.

Lemma transport_failure_answer_witness :
  let req_body := json "{'model':'gpt-4','messages':[]}" in
  let failure := AxiosError (VStr (str "timeout of 600000ms exceeded")) None in
  let w := answering (Throw failure) in
  exists call,
    calls (chat_completions reasoning_off w req_body) = [call]
    /\ axios_post w call = Throw failure
    /\ sent (chat_completions reasoning_off w req_body)
       = Json 500
           (BodyValue
              (error_envelope (VStr (str "timeout of 600000ms exceeded"))
                 "invalid_request_error" 500)).
Proof.
  intros req_body failure w.
  destruct (calls (chat_completions reasoning_off w req_body)) as [|call rest] eqn:E;
    [vm_compute in E; discriminate|].
  destruct rest; [|vm_compute in E; discriminate].
  exists call. split; [reflexivity|]. split; [reflexivity|].
  exact (transport_failure_answer reasoning_off w req_body call _ None E eq_refl).
Defined.

(** ** The streaming response *)

(** X8.  A streamed answer below status 400: the response is an event stream
    with the three headers, what is written is what the chunks give from
    an empty buffer and a closed flag, and the response is ended whether
    the upstream stream ends or fails: a failure adds no frame. *)
Theorem streaming_answer (cfg : config) (w : world) (req_body : value)
  (call : upstream_call) (up : upstream_response) (chunks : list (list N))
  (fin : closing) :
  calls (chat_completions cfg w req_body) = [call] ->
  nr_stream (call_body call) = true ->
  axios_post w call = Ok up ->
  status up < 400 ->
  data up = Live chunks fin ->
  sent (chat_completions cfg w req_body)
  = EventStream stream_headers (snd (feed cfg stream_start chunks)) true.
Proof.
  intros Hcalls Hstream Hpost Hstatus Hdata.
  destruct (chat_completions_issued cfg w req_body call Hcalls) as (_ & _ & ->).
  rewrite Hpost, Hstream. unfold finish. cbn [sent bind]. unfold respond.
  assert ((400 <=? status up) = false) as -> by (apply Z.leb_gt; exact Hstatus).
  rewrite Hdata. reflexivity.
Qed.

Lemma streaming_answer_witness :
  let req_body := json "{'model':'gpt-4','messages':[],'stream':true}" in
  let chunks := [ quoted "data: {'choices':[{'delta':{'content':'Hi'}}]}" ++ nl;
                  nl ++ str "data: [DONE]" ++ nl ] in
  let up := {| status := 200; data := Live chunks StreamError |} in
  let w := answering (Ok up) in
  exists call,
    calls (chat_completions reasoning_off w req_body) = [call]
    /\ nr_stream (call_body call) = true
    /\ axios_post w call = Ok up
    /\ status up < 400
    /\ sent (chat_completions reasoning_off w req_body)
       = EventStream stream_headers
           [ quoted "data: {'choices':[{'delta':{'content':'Hi'}}]}" ++ nl ++ nl;
             done_frame ] true.
Proof.
  intros req_body chunks up w.
  destruct (calls (chat_completions reasoning_off w req_body)) as [|call rest] eqn:E;
    [vm_compute in E; discriminate|].
  destruct rest; [|vm_compute in E; discriminate].
  assert (Hcall : call = hd call (calls (chat_completions reasoning_off w req_body)))
    by (rewrite E; reflexivity).
  assert (Hstream : nr_stream (call_body call) = true)
    by (rewrite Hcall; vm_compute; reflexivity).
  assert (Hstatus : status up < 400) by reflexivity.
  exists call. split; [reflexivity|]. split; [exact Hstream|].
  split; [reflexivity|]. split; [exact Hstatus|].
  exact (streaming_answer reasoning_off w req_body call up chunks StreamError
           E Hstream eq_refl Hstatus eq_refl).
Defined.

(** ** What the stream handler writes *)

Lemma on_text_writes_nothing (cfg : config) (st : stream_state)
  (text : jsstring) :
  ~ In 10%N (buffer st) -> ~ In 10%N text ->
  on_text cfg st text
  = ({| buffer := buffer st ++ text; reasoningStarted := reasoningStarted st |},
     []).
Proof.
  intros Hb Ht. unfold on_text, pop. rewrite split_without; [reflexivity|].
  intros H. apply in_app_or in H. tauto.
Qed.

(** X9.  Text after the last newline is only held: whatever came before,
    text without a newline adds nothing to what is written.  So a last
    line that the upstream does not end with a newline is never
    forwarded. *)
Theorem unterminated_tail_is_not_written (cfg : config)
  (text tail : jsstring) :
  ~ In 10%N tail ->
  snd (on_text cfg stream_start (text ++ tail))
  = snd (on_text cfg stream_start text).
Proof.
  intros Htail. rewrite on_text_app.
  pose proof (on_text_buffer cfg stream_start text) as Hb.
  destruct (on_text cfg stream_start text) as [st1 w1]. simpl in Hb.
  rewrite (on_text_writes_nothing cfg st1 tail Hb Htail). simpl.
  apply app_nil_r.
Qed.

Lemma unterminated_tail_is_not_written_witness :
  let text := quoted "data: {'a':1}" ++ nl in
  let tail := quoted "data: {'choices':[{'delta':{'content':'end'}}]}" in
  ~ In 10%N tail
  /\ snd (on_text reasoning_off stream_start (text ++ tail))
     = [ quoted "data: {'a':1}" ++ nl ++ nl ]
  /\ snd (on_text reasoning_off stream_start (text ++ tail))
     = snd (on_text reasoning_off stream_start text).
Proof.
  intros text tail.
  assert (H : ~ In 10%N tail).
  { intros H. vm_compute in H. repeat (destruct H as [H|H]; [discriminate|]).
    exact H. }
  split; [exact H|]. split; [vm_compute; reflexivity|].
  exact (unterminated_tail_is_not_written reasoning_off text tail H).
Defined.

Lemma startsWith_append (s p t : jsstring) :
  startsWith s p = true -> startsWith (s ++ t) p = true.
Proof.
  revert s; induction p as [|c p IH]; intros s;
    [intros _; destruct (s ++ t); reflexivity|].
  destruct s as [|d s]; simpl; [discriminate|].
  intros H. apply andb_true_iff in H. destruct H as [-> H].
  simpl. apply IH, H.
Qed.

Lemma on_line_writes (cfg : config) (started : bool) (line : jsstring) :
  List.length (snd (on_line cfg started line))
  = (if startsWith line (str "data: ") then 1 else 0)%nat
  /\ forall written, In written (snd (on_line cfg started line)) ->
                     startsWith written (str "data: ") = true.
Proof.
  unfold on_line, classify.
  destruct (startsWith line (str "data: ")) eqn:Hp; cbn [negb].
  2: { split; [reflexivity | intros written []]. }
  destruct (includes line (str "[DONE]")).
  { split; [reflexivity|]. intros written [<-|[]]. reflexivity. }
  destruct (JSON.parse (slice 6 line)) as [data|].
  - destruct (rewrite cfg started data) as [s [data'|e]];
      (split; [reflexivity|]); intros written [<-|[]].
    + apply (startsWith_append (str "data: ")). reflexivity.
    + apply startsWith_append, Hp.
  - split; [reflexivity|]. intros written [<-|[]].
    apply startsWith_append, Hp.
Qed.

(** X10.  Whatever the upstream sends, one frame is written for each
    candidate line that begins with the prefix [data: ], no more and no
    fewer, and everything written begins with that prefix. *)
Theorem every_write_is_framed (cfg : config) (chunks : list (list N)) :
  List.length (snd (feed cfg stream_start chunks))
  = List.length (filter (fun line => startsWith line (str "data: "))
                   (candidate_lines chunks))
  /\ forall written,
       In written (snd (feed cfg stream_start chunks)) ->
       startsWith written (str "data: ") = true.
Proof.
  rewrite writes_from_lines.
  enough (H : forall lines started,
             List.length (snd (on_lines cfg started lines))
             = List.length
                 (filter (fun line => startsWith line (str "data: ")) lines)
             /\ forall written,
                  In written (snd (on_lines cfg started lines)) ->
                  startsWith written (str "data: ") = true)
    by apply H.
  induction lines as [|line lines IH]; intros started.
  - split; [reflexivity | intros written []].
  - cbn [on_lines filter].
    destruct (on_line_writes cfg started line) as [Hlen Hpre].
    destruct (on_line cfg started line) as [s1 w1]. cbn [snd] in Hlen, Hpre.
    destruct (IH s1) as [IHlen IHpre].
    destruct (on_lines cfg s1 lines) as [s2 w2]. cbn [snd] in *.
    split.
    + rewrite length_app, Hlen, IHlen.
      destruct (startsWith line (str "data: ")); reflexivity.
    + intros written H. apply in_app_or in H. destruct H; auto.
Qed.

(** X11.  Lines without the prefix (comments, [event:] fields, blank lines)
    change neither the writes nor the flag: dropping them first gives the
    same. *)
Theorem other_lines_are_ignored (cfg : config) (started : bool)
  (lines : list jsstring) :
  on_lines cfg started lines
  = on_lines cfg started
      (filter (fun line => startsWith line (str "data: ")) lines).
Proof.
  revert started; induction lines as [|line lines IH]; intros started;
    [reflexivity|].
  simpl. destruct (startsWith line (str "data: ")) eqn:Hp.
  - simpl. destruct (on_line cfg started line) as [s1 w1]. rewrite IH.
    reflexivity.
  - unfold on_line, classify. rewrite Hp. simpl. rewrite IH.
    destruct (on_lines cfg started _). reflexivity.
Qed.

(** ** The rewriter with the reasoning display off *)

Section ReasoningOff.

Variable cfg : config.
Hypothesis Hoff : SHOW_REASONING cfg = false.

Lemma rewrite_delta_off_any (started : bool) (delta : value) :
  rewrite_delta cfg started delta
  = (started, snd (rewrite_delta cfg false delta)).
Proof. unfold rewrite_delta. rewrite Hoff. reflexivity. Qed.

Lemma rewrite_off_any (started : bool) (data : value) :
  rewrite cfg started data = (started, snd (rewrite cfg false data)).
Proof.
  unfold rewrite. destruct (truthy (delta_of data)); [|reflexivity].
  rewrite (rewrite_delta_off_any started), (rewrite_delta_off_any false).
  simpl. destruct (snd (rewrite_delta cfg false (delta_of data))); reflexivity.
Qed.

Lemma on_line_off_any (started : bool) (line : jsstring) :
  on_line cfg started line = (started, snd (on_line cfg false line)).
Proof.
  unfold on_line. destruct (classify line); try reflexivity.
  rewrite (rewrite_off_any started), (rewrite_off_any false). simpl.
  destruct (snd (rewrite cfg false payload)); reflexivity.
Qed.

(** X12.  With the reasoning display off, as server.js sets it, the flag is
    never changed and what is written does not depend on it. *)
Theorem flag_is_idle_when_off (started started' : bool)
  (lines : list jsstring) :
  fst (on_lines cfg started lines) = started
  /\ snd (on_lines cfg started lines) = snd (on_lines cfg started' lines).
Proof.
  revert started started'.
  induction lines as [|line lines IH]; intros started started'; simpl;
    [auto|].
  rewrite (on_line_off_any started), (on_line_off_any started').
  destruct (IH started started') as [IH1 IH2].
  destruct (on_lines cfg started lines) as [s2 w2].
  destruct (on_lines cfg started' lines) as [s2' w2']. simpl in *.
  subst. auto.
Qed.

End ReasoningOff.

Lemma flag_is_idle_when_off_witness :
  let lines := [ quoted "data: {'choices':[{'delta':{'reasoning_content':'hm'}}]}";
                 quoted "data: {'choices':[{'delta':{'content':'Hi'}}]}" ] in
  SHOW_REASONING reasoning_off = false
  /\ fst (on_lines reasoning_off true lines) = true
  /\ snd (on_lines reasoning_off true lines)
     = snd (on_lines reasoning_off false lines).
Proof.
  intros lines. split; [reflexivity|].
  exact (flag_is_idle_when_off reasoning_off eq_refl true false lines).
Defined.

(** ** Chunks cut between characters *)

Lemma reassemble_concat (texts : list jsstring) :
  forall buf,
    ~ In 10%N buf ->
    reassemble buf texts
    = removelast (JSString.split 10 (buf ++ List.concat texts)).
Proof.
  induction texts as [|t texts IH]; intros buf Hbuf.
  - simpl. rewrite app_nil_r, split_without by exact Hbuf. reflexivity.
  - cbn [reassemble List.concat]. unfold pop.
    rewrite (IH _ (last_split_without 10 (buf ++ t))).
    rewrite app_assoc, (split_app 10 (buf ++ t) (List.concat texts)).
    rewrite removelast_app by apply split_nonempty. reflexivity.
Qed.

Lemma candidate_lines_concat (chunks : list (list N)) :
  Forall Utf8.aligned chunks ->
  candidate_lines chunks = candidate_lines [List.concat chunks].
Proof.
  intros H. unfold candidate_lines.
  rewrite !reassemble_concat by (simpl; tauto).
  cbn [map List.concat]. rewrite app_nil_r, (toString_concat _ H).
  reflexivity.
Qed.

(** X13.  Chunks cut between characters, however many and wherever, are not
    seen: the candidate lines, the frames and the whole response are
    those of the byte sequence handed over in one piece. *)
Theorem cuts_between_characters_are_not_seen (cfg : config)
  (chunks : list (list N)) :
  Forall Utf8.aligned chunks ->
  candidate_lines chunks = candidate_lines [List.concat chunks]
  /\ logical_frames chunks = logical_frames [List.concat chunks]
  /\ forward_stream cfg chunks = forward_stream cfg [List.concat chunks].
Proof.
  intros H. pose proof (candidate_lines_concat chunks H) as Hc.
  split; [exact Hc|]. split.
  - unfold logical_frames. rewrite Hc. reflexivity.
  - unfold forward_stream. rewrite !writes_from_lines, Hc. reflexivity.
Qed.

Lemma cuts_between_characters_are_not_seen_witness :
  let chunks := [ quoted "data: {'text':'" ++ [195; 169]%N;
                  [226; 130; 172]%N ++ quoted "'}";
                  nl ++ str "data: [DO"; str "NE]" ++ nl ] in
  Forall Utf8.aligned chunks
  /\ candidate_lines chunks = candidate_lines [List.concat chunks]
  /\ logical_frames chunks = logical_frames [List.concat chunks]
  /\ forward_stream reasoning_off chunks
     = forward_stream reasoning_off [List.concat chunks]
  /\ forward_stream reasoning_off chunks
     = EventStream stream_headers
         [ quoted "data: {'text':'" ++ [233; 8364]%N ++ quoted "'}" ++ nl ++ nl;
           done_frame ] true.
Proof.
  intros chunks.
  assert (H : Forall Utf8.aligned chunks) by (repeat constructor).
  split; [exact H|].
  destruct (cuts_between_characters_are_not_seen reasoning_off chunks H)
    as (H1 & H2 & H3).
  split; [exact H1|]. split; [exact H2|]. split; [exact H3|].
  vm_compute. reflexivity.
Defined.

(** ** Model resolution *)

Lemma startsWith_refl (p : jsstring) : startsWith p p = true.
Proof.
  induction p as [|c p IH]; [reflexivity|]. simpl. rewrite N.eqb_refl. exact IH.
Qed.

Lemma includes_app_r (s t p : jsstring) :
  includes s p = true -> includes (s ++ t) p = true.
Proof.
  induction s as [|c s IH]; simpl.
  - rewrite orb_false_r. intros H.
    destruct p; [destruct t; reflexivity | discriminate].
  - intros H. apply orb_true_iff in H. apply orb_true_iff.
    destruct H as [H|H]; [left | right; apply IH, H].
    apply (startsWith_append (c :: s)), H.
Qed.

Lemma includes_app_l (s t p : jsstring) :
  includes s p = true -> includes (t ++ s) p = true.
Proof.
  intros H. induction t as [|c t IH]; [exact H|].
  simpl. rewrite IH. apply orb_true_r.
Qed.

Lemma includes_inside (pre p post : jsstring) :
  includes (pre ++ p ++ post) p = true.
Proof.
  apply includes_app_l, includes_app_r.
  destruct p; simpl; [reflexivity|].
  rewrite N.eqb_refl, startsWith_refl. reflexivity.
Qed.

Lemma toLowerCase_app (a b : jsstring) :
  toLowerCase (a ++ b) = toLowerCase a ++ toLowerCase b.
Proof. apply flat_map_app. Qed.

(** The names [Object.prototype] answers for. *)
Lemma inherited_names (m : jsstring) :
  inherited m <> VUndefined ->
  In m (str "__proto__" :: map str object_prototype_functions).
Proof.
  unfold inherited.
  destruct (JSString.eqb m (str "__proto__")) eqn:E.
  { intros _. left. symmetry. apply eqb_eq, E. }
  intros H. right. revert H.
  induction object_prototype_functions as [|n ns IH]; simpl; [congruence|].
  destruct (JSString.eqb m (str n)) eqn:En.
  - intros _. left. symmetry. apply eqb_eq, En.
  - intros H. right. apply IH, H.
Qed.

(** X14.  A name that holds [405b], [gpt-4] or [opus], in any letter case and
    at any place, falls in the first tier whatever else it holds: the
    later tests are not reached.  Through the resolution of the handler
    such a name gives that tier unless it is a key of the table. *)
Theorem first_tier_wins (pre u post : jsstring) :
  In (toLowerCase u) [str "405b"; str "gpt-4"; str "opus"] ->
  pickFallbackModel (VStr (pre ++ u ++ post)) = Ok tier_405b
  /\ (has (pre ++ u ++ post) MODEL_MAPPING = false ->
      nimModel (VStr (pre ++ u ++ post)) = Ok (VStr tier_405b)).
Proof.
  intros Hu.
  assert (Ht : tier_by_substring (toLowerCase (pre ++ u ++ post)) = tier_405b).
  { unfold tier_by_substring. rewrite !toLowerCase_app.
    destruct Hu as [->|[->|[->|[]]]]; rewrite includes_inside;
      rewrite ?orb_true_r; reflexivity. }
  split; [rewrite pickFallbackModel_string, Ht; reflexivity|].
  intros Hown. rewrite nimModel_fallback, Ht; [reflexivity | exact Hown |].
  destruct (inherited (pre ++ u ++ post)) eqn:Hi; try reflexivity;
    exfalso;
    (assert (Hn : inherited (pre ++ u ++ post) <> VUndefined)
       by (rewrite Hi; discriminate));
    apply inherited_names in Hn;
    repeat (destruct Hn as [Hn|Hn];
            [rewrite <- Hn in Ht; vm_compute in Ht; discriminate|]);
    exact Hn.
Qed.

Lemma first_tier_wins_witness :
  let pre := str "My-" in
  let u := str "GPT-4" in
  let post := str "-Sonnet-70B" in
  In (toLowerCase u) [str "405b"; str "gpt-4"; str "opus"]
  /\ pickFallbackModel (VStr (pre ++ u ++ post)) = Ok tier_405b
  /\ has (pre ++ u ++ post) MODEL_MAPPING = false
  /\ nimModel (VStr (str "My-GPT-4-Sonnet-70B")) = Ok (VStr tier_405b).
Proof.
  intros pre u post.
  assert (Hu : In (toLowerCase u) [str "405b"; str "gpt-4"; str "opus"])
    by (right; left; reflexivity).
  split; [exact Hu|].
  destruct (first_tier_wins pre u post Hu) as [Hp Hn].
  split; [exact Hp|]. split; [reflexivity|]. exact (Hn eq_refl).
Defined.

(** ** GET /v1/models and GET /health *)

Lemma model_entries_ids (w : world) (ids : list jsstring) :
  forall n,
    map (fun entry => opt_member entry "id") (model_entries w ids n)
    = map VStr ids.
Proof.
  induction ids as [|id ids IH]; intros n; [reflexivity|].
  cbn [model_entries map]. rewrite IH. reflexivity.
Qed.

Lemma model_entries_fields (w : world) (ids : list jsstring) :
  forall n entry,
    In entry (model_entries w ids n) ->
    exists id k,
      In id ids
      /\ entry = VObj [ (str "id", VStr id);
                        (str "object", VStr (str "model"));
                        (str "created", VNum (JSNumber.of_Z (Date_now w k)));
                        (str "owned_by", VStr (str "nvidia-nim-proxy")) ].
Proof.
  induction ids as [|id ids IH]; intros n entry; [intros []|].
  intros [<-|H].
  - exists id, n. split; [left|]; reflexivity.
  - destruct (IH _ _ H) as (id' & k & Hin & He).
    exists id', k. split; [right|]; assumption.
Qed.

Lemma keys_have_entries (k : jsstring) (ps : list (jsstring * value)) :
  In k (Object_keys ps) -> exists v, In (k, v) ps.
Proof.
  unfold Object_keys. intros H. apply in_map_iff in H.
  destruct H as ([k' v] & <- & H). exists v. exact H.
Qed.

(** X15.  The models GET /v1/models lists are the keys of the table, in its
    order, and each of them, sent as [model] to the chat route, resolves
    to an entry of the table: none falls to the fallback tiers. *)
Theorem listed_models_resolve (w : world) :
  exists entries,
    models w
    = Json 200 (BodyValue (VObj [ (str "object", VStr (str "list"));
                                  (str "data", VArr entries) ]))
    /\ map (fun entry => opt_member entry "id") entries
       = map VStr (Object_keys MODEL_MAPPING)
    /\ forall entry,
         In entry entries ->
         exists id target,
           opt_member entry "id" = VStr id
           /\ opt_member entry "object" = VStr (str "model")
           /\ opt_member entry "owned_by" = VStr (str "nvidia-nim-proxy")
           /\ In (id, target) MODEL_MAPPING
           /\ nimModel (VStr id) = Ok target.
Proof.
  exists (model_entries w (Object_keys MODEL_MAPPING) 0).
  split; [reflexivity|]. split; [apply model_entries_ids|].
  intros entry H.
  destruct (model_entries_fields _ _ _ _ H) as (id & k & Hin & ->).
  destruct (keys_have_entries _ _ Hin) as [target Ht].
  exists id, target. repeat split; try reflexivity; try assumption.
  apply nimModel_table, Ht.
Qed.

(** X16.  GET /health reports the key as absent exactly when the chat route
    refuses every request with the 500 of the missing key, without
    calling the upstream; an empty key counts as absent. *)
Theorem health_tells_missing_key (cfg : config) (body_limit : jsstring) :
  opt_member (body_of (health cfg body_limit)) "nim_api_key_present"
  = VBool false
  <-> (forall (w : world) (req_body : value),
         chat_completions cfg w req_body
         = {| calls := [];
              sent := Json 500
                        (BodyValue (error_envelope (VStr missing_key_message)
                                      "server_error" 500)) |}).
Proof.
  change (opt_member (body_of (health cfg body_limit)) "nim_api_key_present")
    with (VBool (truthy (NIM_API_KEY cfg))).
  split.
  - intros H w req_body. unfold chat_completions.
    destruct (truthy (NIM_API_KEY cfg)); [discriminate | reflexivity].
  - intros H.
    specialize (H {| axios_post := fun _ => Throw (TypeError NotPrimitive);
                     Date_now := fun _ => 0;
                     engine_message := fun _ => [] |} VUndefined).
    unfold chat_completions in H.
    destruct (truthy (NIM_API_KEY cfg)); [discriminate | reflexivity].
Qed.

(** ** The non-streaming translation *)

Lemma member_ok (v : value) (k : string) (x : value) :
  member v k = Ok x -> x = opt_member v k /\ v <> VUndefined /\ v <> VNull.
Proof.
  destruct v; simpl; try discriminate; intros H; injection H as <-;
    repeat split; discriminate.
Qed.

Lemma member_throws (v : value) (k : string) (e : exn) :
  member v k = Throw e ->
  e = TypeError (ReadOfNullish v k) /\ (v = VUndefined \/ v = VNull).
Proof.
  destruct v; simpl; try discriminate; intros H; injection H as <-; auto.
Qed.

(** What a converted choice holds. *)
Lemma convert_choice_fields (cfg : config) (choice : value) (idx : Z)
  (c : value) :
  convert_choice cfg choice idx = Ok c ->
  exists content,
    c = VObj
          [ (str "index",
             if Number_isFinite (opt_member choice "index")
             then opt_member choice "index" else VNum (JSNumber.of_Z idx));
            (str "message",
             VObj [ (str "role",
                     or_else (opt_member (opt_member choice "message") "role")
                       (VStr (str "assistant")));
                    (str "content", content) ]);
            (str "finish_reason",
             or_else (opt_member choice "finish_reason") (VStr (str "stop"))) ]
    /\ (SHOW_REASONING cfg = false ->
        content = or_else (opt_member (opt_member choice "message") "content")
                    (VStr [])).
Proof.
  unfold convert_choice.
  destruct (if SHOW_REASONING cfg && _ then _ else _) as [content|e] eqn:Hc;
    [|discriminate].
  unfold bind at 1.
  destruct (member choice "index") as [index|e] eqn:Hi; [|discriminate].
  unfold bind at 1.
  destruct (member choice "finish_reason") as [fr|e] eqn:Hf; [|discriminate].
  unfold bind. intros H. injection H as <-.
  apply member_ok in Hi, Hf. destruct Hi as [-> _], Hf as [-> _].
  exists content. split; [reflexivity|].
  intros Hoff. rewrite Hoff in Hc. simpl in Hc. injection Hc as <-.
  reflexivity.
Qed.

Lemma convert_choice_throws (cfg : config) (choice : value) (idx : Z)
  (e : exn) :
  convert_choice cfg choice idx = Throw e -> exists f, e = TypeError f.
Proof.
  unfold convert_choice.
  destruct (if SHOW_REASONING cfg && _ then _ else _) as [content|e'] eqn:Hc.
  - unfold bind at 1.
    destruct (member choice "index") as [index|e'] eqn:Hi.
    + unfold bind at 1.
      destruct (member choice "finish_reason") as [fr|e'] eqn:Hf;
        [discriminate|].
      unfold bind. intros H. injection H as <-.
      apply member_throws in Hf. destruct Hf as [-> _]. eexists; reflexivity.
    + unfold bind. intros H. injection H as <-.
      apply member_throws in Hi. destruct Hi as [-> _]. eexists; reflexivity.
  - unfold bind at 1. intros H. injection H as <-.
    destruct (SHOW_REASONING cfg && _); [|discriminate].
    destruct (ToString _) as [r|e1] eqn:Hr.
    + unfold bind at 1 in Hc. unfold string_plus in Hc.
      destruct (ToString (or_else _ _)) as [s|e2] eqn:Hs;
        [discriminate|].
      unfold bind in Hc. injection Hc as <-.
      apply ToString_throws in Hs. subst. eexists; reflexivity.
    + unfold bind in Hc. injection Hc as <-.
      apply ToString_throws in Hr. subst. eexists; reflexivity.
Qed.

Lemma map_choices_throws (cfg : config) (l : list value) :
  forall idx e, map_choices cfg l idx = Throw e -> exists f, e = TypeError f.
Proof.
  induction l as [|choice l IH]; intros idx e; [discriminate|].
  cbn [map_choices].
  destruct (convert_choice cfg choice idx) as [c|e1] eqn:Hc.
  - unfold bind at 1.
    destruct (map_choices cfg l (idx + 1)) as [cs|e2] eqn:Hm;
      [discriminate|].
    unfold bind. intros H. injection H as <-. exact (IH _ _ Hm).
  - unfold bind. intros H. injection H as <-.
    exact (convert_choice_throws _ _ _ _ Hc).
Qed.

Lemma map_choices_nth (cfg : config) (l : list value) :
  forall idx cs,
    map_choices cfg l idx = Ok cs ->
    List.length cs = List.length l
    /\ forall (i : nat) (choice : value),
         nth_error l i = Some choice ->
         exists c, nth_error cs i = Some c
                   /\ convert_choice cfg choice (idx + Z.of_nat i) = Ok c.
Proof.
  induction l as [|choice l IH]; intros idx cs.
  - intros H. injection H as <-. split; [reflexivity|].
    intros [|i] c; discriminate.
  - cbn [map_choices].
    destruct (convert_choice cfg choice idx) as [c|e1] eqn:Hc; [|discriminate].
    unfold bind at 1.
    destruct (map_choices cfg l (idx + 1)) as [cs'|e2] eqn:Hm; [|discriminate].
    unfold bind. intros H. injection H as <-.
    destruct (IH _ _ Hm) as [Hlen Hnth]. split; [simpl; congruence|].
    intros [|i] choice' Hi.
    + injection Hi as <-. exists c. split; [reflexivity|].
      rewrite Z.add_0_r. exact Hc.
    + destruct (Hnth i choice' Hi) as (c' & H1 & H2).
      exists c'. split; [exact H1|].
      replace (idx + Z.of_nat (S i)) with (idx + 1 + Z.of_nat i) by lia.
      exact H2.
Qed.

Lemma data_member_throws (d : upstream_data) (k : string) (e : exn) :
  data_member d k = Throw e -> exists f, e = TypeError f.
Proof.
  destruct d as [v|]; simpl; [|discriminate].
  intros H. apply member_throws in H. destruct H as [-> _].
  eexists; reflexivity.
Qed.

Lemma openaiResponse_throws (cfg : config) (w : world) (model : value)
  (d : upstream_data) (e : exn) :
  openaiResponse cfg w model d = Throw e -> exists f, e = TypeError f.
Proof.
  unfold openaiResponse.
  destruct (data_member d "choices") as [ch|e1] eqn:Hch.
  - unfold bind at 1.
    destruct (match or_else ch (VArr []) with VArr l => _ | _ => _ end)
      as [cs|e2] eqn:Hcs.
    + unfold bind at 1.
      destruct (data_member d "usage") as [u|e3] eqn:Hu; [discriminate|].
      unfold bind. intros H. injection H as <-.
      exact (data_member_throws _ _ _ Hu).
    + unfold bind. intros H. injection H as <-.
      destruct (or_else ch (VArr [])); try (injection Hcs as <-; eexists; reflexivity).
      exact (map_choices_throws _ _ _ _ Hcs).
  - unfold bind. intros H. injection H as <-.
    exact (data_member_throws _ _ _ Hch).
Qed.

Lemma on_error_TypeError (w : world) (f : fault) :
  on_error w (TypeError f)
  = Json 500
      (BodyValue
         (error_envelope
            (or_else (VStr (engine_message w f))
               (VStr (str "Internal server error")))
            "invalid_request_error" 500)).
Proof. reflexivity. Qed.

Lemma answered_from_upstream (cfg : config) (w : world) (req_body : value)
  (call : upstream_call) (up : upstream_response) :
  calls (chat_completions cfg w req_body) = [call] ->
  axios_post w call = Ok up ->
  sent (chat_completions cfg w req_body)
  = match respond cfg w (opt_member req_body "model")
            (nr_stream (call_body call)) up with
    | Ok r => r
    | Throw e => on_error w e
    end.
Proof.
  intros Hcalls Hpost.
  destruct (chat_completions_issued cfg w req_body call Hcalls) as (_ & _ & ->).
  rewrite Hpost. reflexivity.
Qed.

Lemma openaiResponse_fields (cfg : config) (w : world) (model body : value)
  (envelope : value) :
  openaiResponse cfg w model (Buffered body) = Ok envelope ->
  exists cs,
    envelope
    = VObj [ (str "id", VStr (str "chatcmpl-" ++ JSString.of_Z (Date_now w 0)));
             (str "object", VStr (str "chat.completion"));
             (str "created", VNum (JSNumber.of_Z (Date_now w 1 / 1000)));
             (str "model", model);
             (str "choices", VArr cs);
             (str "usage", or_else (opt_member body "usage") zero_usage) ]
    /\ exists l, or_else (opt_member body "choices") (VArr []) = VArr l
                 /\ map_choices cfg l 0 = Ok cs.
Proof.
  unfold openaiResponse, data_member.
  destruct (member body "choices") as [ch|e1] eqn:Hch; [|discriminate].
  unfold bind at 1.
  destruct (match or_else ch (VArr []) with VArr l => _ | _ => _ end)
    as [cs|e2] eqn:Hcs; [|discriminate].
  unfold bind at 1.
  destruct (member body "usage") as [u|e3] eqn:Hu; [|discriminate].
  unfold bind. intros H. injection H as <-.
  apply member_ok in Hch, Hu. destruct Hch as [-> _], Hu as [-> _].
  exists cs. split; [reflexivity|].
  destruct (or_else (opt_member body "choices") (VArr [])); try discriminate.
  eexists. split; [reflexivity | exact Hcs].
Qed.

(** X17.  When the caller gets a 200 for an upstream body whose [choices] is
    an array, the choices sent back are as many and in the same order.
    Each holds exactly [index], [message] and [finish_reason], and its
    message exactly [role] and [content]: whatever else the upstream
    put there, [reasoning_content] included, is not passed on.  The
    index is the upstream's when that is a finite number and the
    position otherwise; role and finish_reason default to [assistant]
    and [stop]; with the reasoning display off the content is the
    upstream's, or the empty string when that is falsy. *)
Theorem choices_translated_in_place (cfg : config) (w : world)
  (req_body : value) (call : upstream_call) (up : upstream_response)
  (body : value) (l : list value) (envelope : value) :
  calls (chat_completions cfg w req_body) = [call] ->
  axios_post w call = Ok up ->
  data up = Buffered body ->
  opt_member body "choices" = VArr l ->
  sent (chat_completions cfg w req_body) = Json 200 (BodyValue envelope) ->
  exists cs,
    opt_member envelope "choices" = VArr cs
    /\ List.length cs = List.length l
    /\ forall (i : nat) (choice : value),
         nth_error l i = Some choice ->
         exists content,
           nth_error cs i
           = Some (VObj
                     [ (str "index",
                        if Number_isFinite (opt_member choice "index")
                        then opt_member choice "index"
                        else VNum (JSNumber.of_Z (Z.of_nat i)));
                       (str "message",
                        VObj [ (str "role",
                                or_else
                                  (opt_member (opt_member choice "message") "role")
                                  (VStr (str "assistant")));
                               (str "content", content) ]);
                       (str "finish_reason",
                        or_else (opt_member choice "finish_reason")
                          (VStr (str "stop"))) ])
           /\ (SHOW_REASONING cfg = false ->
               content
               = or_else (opt_member (opt_member choice "message") "content")
                   (VStr [])).
Proof.
  intros Hcalls Hpost Hdata Hch.
  rewrite (answered_from_upstream _ _ _ _ _ Hcalls Hpost).
  destruct body as [| | | | | |ps|]; try discriminate.
  unfold respond. destruct (400 <=? status up) eqn:Hs.
  { unfold forward_error. rewrite Hdata. simpl. intros H.
    injection H as H _. rewrite H in Hs. discriminate. }
  destruct (nr_stream (call_body call)).
  { rewrite Hdata. simpl. discriminate. }
  rewrite Hdata.
  destruct (openaiResponse cfg w _ (Buffered (VObj ps))) as [env|e] eqn:Ho.
  2: { destruct (openaiResponse_throws _ _ _ _ _ Ho) as [f ->]. discriminate. }
  unfold bind. intros H. injection H as <-.
  destruct (openaiResponse_fields _ _ _ _ _ Ho) as (cs & -> & l' & Hl & Hm).
  rewrite Hch in Hl. injection Hl as <-.
  destruct (map_choices_nth _ _ _ _ Hm) as [Hlen Hnth].
  exists cs. split; [reflexivity|]. split; [exact Hlen|].
  intros i choice Hi. destruct (Hnth i choice Hi) as (c & Hc & Hconv).
  destruct (convert_choice_fields _ _ _ _ Hconv) as (content & -> & Hcontent).
  exists content. split; [exact Hc | exact Hcontent].
Qed.

Lemma choices_translated_in_place_witness :
  let req_body := json "{'model':'gpt-4','messages':[]}" in
  let body := json "{'choices':[{'index':7,'message':{'role':'tool','content':'a','reasoning_content':'r','tool_calls':[]},'logprobs':null},{'finish_reason':'length'}]}" in
  let up := {| status := 201; data := Buffered body |} in
  let w := answering (Ok up) in
  let envelope := json "{'id':'chatcmpl-1700000000123','object':'chat.completion','created':1700000000,'model':'gpt-4','choices':[{'index':7,'message':{'role':'tool','content':'a'},'finish_reason':'stop'},{'index':1,'message':{'role':'assistant','content':''},'finish_reason':'length'}],'usage':{'prompt_tokens':0,'completion_tokens':0,'total_tokens':0}}" in
  exists call l,
    calls (chat_completions reasoning_off w req_body) = [call]
    /\ axios_post w call = Ok up
    /\ opt_member body "choices" = VArr l
    /\ sent (chat_completions reasoning_off w req_body)
       = Json 200 (BodyValue envelope)
    /\ exists cs,
         opt_member envelope "choices" = VArr cs
         /\ List.length cs = List.length l.
Proof.
  intros req_body body up w envelope.
  destruct (calls (chat_completions reasoning_off w req_body)) as [|call rest] eqn:E;
    [vm_compute in E; discriminate|].
  destruct rest; [|vm_compute in E; discriminate].
  assert (Hsent : sent (chat_completions reasoning_off w req_body)
                  = Json 200 (BodyValue envelope))
    by (vm_compute; reflexivity).
  exists call. eexists. split; [reflexivity|]. split; [reflexivity|].
  split; [reflexivity|]. split; [exact Hsent|].
  destruct (choices_translated_in_place reasoning_off w req_body call up body
              _ envelope E eq_refl eq_refl eq_refl Hsent)
    as (cs & Hcs & Hlen & _).
  exists cs. split; [exact Hcs | exact Hlen].
Defined.

Lemma nullish_choice_throws (cfg : config) (l : list value) :
  In VNull l -> forall idx, exists e, map_choices cfg l idx = Throw e.
Proof.
  induction l as [|choice l IH]; intros Hin idx; [destruct Hin|].
  cbn [map_choices].
  destruct (convert_choice cfg choice idx) as [c|e] eqn:Hc;
    [|exists e; reflexivity].
  destruct Hin as [->|Hin].
  - unfold convert_choice in Hc. simpl in Hc. rewrite andb_false_r in Hc.
    discriminate.
  - destruct (IH Hin (idx + 1)) as [e ->]. exists e. reflexivity.
Qed.

(** X18.  A null among the upstream's choices fails the whole translation:
    the caller gets the 500 of the [catch] block with the engine's
    message, and none of the other choices. *)
Theorem null_choice_fails_the_response (cfg : config) (w : world)
  (req_body : value) (call : upstream_call) (up : upstream_response)
  (body : value) (l : list value) :
  calls (chat_completions cfg w req_body) = [call] ->
  nr_stream (call_body call) = false ->
  axios_post w call = Ok up ->
  status up < 400 ->
  data up = Buffered body ->
  opt_member body "choices" = VArr l ->
  In VNull l ->
  exists f,
    sent (chat_completions cfg w req_body)
    = Json 500
        (BodyValue
           (error_envelope
              (or_else (VStr (engine_message w f))
                 (VStr (str "Internal server error")))
              "invalid_request_error" 500)).
Proof.
  intros Hcalls Hstream Hpost Hstatus Hdata Hch Hin.
  rewrite (answered_from_upstream _ _ _ _ _ Hcalls Hpost).
  destruct body as [| | | | | |ps|]; try discriminate.
  unfold respond.
  assert ((400 <=? status up) = false) as -> by (apply Z.leb_gt; exact Hstatus).
  rewrite Hstream, Hdata.
  destruct (openaiResponse cfg w _ (Buffered (VObj ps))) as [env|e] eqn:Ho.
  - exfalso.
    destruct (openaiResponse_fields _ _ _ _ _ Ho) as (cs & _ & l' & Hl & Hm).
    rewrite Hch in Hl. injection Hl as <-.
    destruct (nullish_choice_throws cfg l Hin 0) as [e He]. congruence.
  - destruct (openaiResponse_throws _ _ _ _ _ Ho) as [f ->].
    exists f. reflexivity.
Qed.

Lemma null_choice_fails_the_response_witness :
  let req_body := json "{'model':'gpt-4','messages':[]}" in
  let body := json "{'choices':[{'message':{'content':'a'}},null]}" in
  let up := {| status := 200; data := Buffered body |} in
  let w := answering (Ok up) in
  exists call l,
    calls (chat_completions reasoning_off w req_body) = [call]
    /\ nr_stream (call_body call) = false
    /\ status up < 400
    /\ opt_member body "choices" = VArr l
    /\ In VNull l
    /\ sent (chat_completions reasoning_off w req_body)
       = Json 500
           (BodyValue
              (error_envelope
                 (VStr (str "Cannot read properties of null (reading 'index')"))
                 "invalid_request_error" 500))
    /\ exists f,
         sent (chat_completions reasoning_off w req_body)
         = Json 500
             (BodyValue
                (error_envelope
                   (or_else (VStr (engine_message w f))
                      (VStr (str "Internal server error")))
                   "invalid_request_error" 500)).
Proof.
  intros req_body body up w.
  destruct (calls (chat_completions reasoning_off w req_body)) as [|call rest] eqn:E;
    [vm_compute in E; discriminate|].
  destruct rest; [|vm_compute in E; discriminate].
  assert (Hcall : call = hd call (calls (chat_completions reasoning_off w req_body)))
    by (rewrite E; reflexivity).
  assert (Hstream : nr_stream (call_body call) = false)
    by (rewrite Hcall; vm_compute; reflexivity).
  assert (Hstatus : status up < 400) by reflexivity.
  assert (Hin : In VNull [json "{'message':{'content':'a'}}"; VNull])
    by (right; left; reflexivity).
  exists call. eexists. split; [reflexivity|]. split; [exact Hstream|].
  split; [exact Hstatus|]. split; [reflexivity|]. split; [exact Hin|].
  split; [vm_compute; reflexivity|].
  exact (null_choice_fails_the_response reasoning_off w req_body call up body
           _ E Hstream eq_refl Hstatus eq_refl eq_refl Hin).
Defined.

(** X19.  An upstream answer below 400 whose body has no [choices] (text that
    is not JSON, an empty body, an object without the field) is answered
    with 200 and an empty list of choices; [usage] is the upstream's
    when it is there and three zeros otherwise. *)
Theorem body_without_choices_gives_empty_completion (cfg : config) (w : world)
  (req_body : value) (call : upstream_call) (up : upstream_response)
  (body : value) :
  calls (chat_completions cfg w req_body) = [call] ->
  nr_stream (call_body call) = false ->
  axios_post w call = Ok up ->
  status up < 400 ->
  data up = Buffered body ->
  body <> VUndefined -> body <> VNull ->
  truthy (opt_member body "choices") = false ->
  sent (chat_completions cfg w req_body)
  = Json 200
      (BodyValue
         (VObj [ (str "id",
                  VStr (str "chatcmpl-" ++ JSString.of_Z (Date_now w 0)));
                 (str "object", VStr (str "chat.completion"));
                 (str "created", VNum (JSNumber.of_Z (Date_now w 1 / 1000)));
                 (str "model", opt_member req_body "model");
                 (str "choices", VArr []);
                 (str "usage", or_else (opt_member body "usage") zero_usage) ])).
Proof.
  intros Hcalls Hstream Hpost Hstatus Hdata Hu Hn Hch.
  rewrite (answered_from_upstream _ _ _ _ _ Hcalls Hpost).
  unfold respond.
  assert ((400 <=? status up) = false) as -> by (apply Z.leb_gt; exact Hstatus).
  rewrite Hstream, Hdata. unfold openaiResponse, data_member.
  assert (Hm : forall k, member body k = Ok (opt_member body k))
    by (intros k; destruct body; try reflexivity; congruence).
  rewrite !Hm. cbn [bind].
  assert (or_else (opt_member body "choices") (VArr []) = VArr []) as ->
    by (unfold or_else; rewrite Hch; reflexivity).
  reflexivity.
Qed.

Lemma body_without_choices_gives_empty_completion_witness :
  let req_body := json "{'model':'gpt-4','messages':[]}" in
  let body := VStr (str "<html>Bad gateway</html>") in
  let up := {| status := 200; data := Buffered body |} in
  let w := answering (Ok up) in
  exists call,
    calls (chat_completions reasoning_off w req_body) = [call]
    /\ nr_stream (call_body call) = false
    /\ status up < 400
    /\ truthy (opt_member body "choices") = false
    /\ sent (chat_completions reasoning_off w req_body)
       = Json 200 (BodyValue (json
           "{'id':'chatcmpl-1700000000123','object':'chat.completion','created':1700000000,'model':'gpt-4','choices':[],'usage':{'prompt_tokens':0,'completion_tokens':0,'total_tokens':0}}")).
Proof.
  intros req_body body up w.
  destruct (calls (chat_completions reasoning_off w req_body)) as [|call rest] eqn:E;
    [vm_compute in E; discriminate|].
  destruct rest; [|vm_compute in E; discriminate].
  assert (Hcall : call = hd call (calls (chat_completions reasoning_off w req_body)))
    by (rewrite E; reflexivity).
  assert (Hstream : nr_stream (call_body call) = false)
    by (rewrite Hcall; vm_compute; reflexivity).
  assert (Hstatus : status up < 400) by reflexivity.
  assert (Hu : body <> VUndefined) by discriminate.
  assert (Hn : body <> VNull) by discriminate.
  exists call. split; [reflexivity|]. split; [exact Hstream|].
  split; [exact Hstatus|]. split; [reflexivity|].
  exact (body_without_choices_gives_empty_completion reasoning_off w req_body
           call up body E Hstream eq_refl Hstatus eq_refl Hu Hn eq_refl).
Defined.

(** X20.  With the reasoning display on, a choice that carries reasoning text
    comes back with it in front of the content, between the think
    markers. *)
Theorem reasoning_wrapped_in_completion (cfg : config) (choice : value)
  (r c : jsstring) (idx : Z) :
  SHOW_REASONING cfg = true ->
  r <> [] ->
  opt_member (opt_member choice "message") "reasoning_content" = VStr r ->
  opt_member (opt_member choice "message") "content" = VStr c ->
  exists converted,
    convert_choice cfg choice idx = Ok converted
    /\ opt_member (opt_member converted "message") "content"
       = VStr (think_open ++ r ++ nl ++ think_close ++ c).
Proof.
  intros Hon Hr Hreasoning Hcontent.
  destruct choice as [| | | | | |ps|]; try discriminate.
  assert (Ht : truthy (VStr r) = true)
    by (destruct r; [congruence | reflexivity]).
  unfold convert_choice. rewrite Hon, Hreasoning, Hcontent, Ht.
  assert (or_else (VStr c) (VStr []) = VStr c) as ->
    by (destruct c; reflexivity).
  eexists. split; [reflexivity|].
  change (VStr ((think_open ++ r ++ nl ++ think_close) ++ c)
          = VStr (think_open ++ r ++ nl ++ think_close ++ c)).
  rewrite <- !app_assoc. reflexivity.
Qed.

Lemma reasoning_wrapped_in_completion_witness :
  let choice := json "{'message':{'reasoning_content':'hm','content':'Hi'}}" in
  SHOW_REASONING reasoning_on = true
  /\ str "hm" <> []
  /\ exists converted,
       convert_choice reasoning_on choice 0 = Ok converted
       /\ opt_member (opt_member converted "message") "content"
          = VStr (think_open ++ str "hm" ++ nl ++ think_close ++ str "Hi").
Proof.
  intros choice.
  assert (H : str "hm" <> []) by discriminate.
  split; [reflexivity|]. split; [exact H|].
  exact (reasoning_wrapped_in_completion reasoning_on choice (str "hm")
           (str "Hi") 0 eq_refl H eq_refl eq_refl).
Defined.

(** ** When the response is an event stream *)

Lemma on_error_is_json (w : world) (e : exn) :
  exists code body, on_error w e = Json code body.
Proof. destruct e; simpl; eexists; eexists; reflexivity. Qed.

(** X21.  The response is an event stream only when streaming is not forced
    off, the caller asked for it, and the upstream answered below 400
    with a live body; it then has the three headers, holds what the
    chunks give, and is ended.  In particular no event stream is sent
    under FORCE_NO_STREAM, nor for a caller that did not ask. *)
Theorem event_stream_only_when_asked (cfg : config) (w : world)
  (req_body : value) (headers : list (string * string))
  (writes : list jsstring) (ended : bool) :
  sent (chat_completions cfg w req_body) = EventStream headers writes ended ->
  FORCE_NO_STREAM cfg = false
  /\ asks_for_stream (opt_member req_body "stream")
  /\ exists call up chunks fin,
       calls (chat_completions cfg w req_body) = [call]
       /\ axios_post w call = Ok up
       /\ status up < 400
       /\ data up = Live chunks fin
       /\ headers = stream_headers
       /\ writes = snd (feed cfg stream_start chunks)
       /\ ended = true.
Proof.
  intros H.
  assert (Hc : exists call, calls (chat_completions cfg w req_body) = [call]).
  { revert H. unfold chat_completions.
    destruct (negb (truthy (NIM_API_KEY cfg))); [discriminate|].
    destruct (negb (truthy _) || _); [discriminate|].
    destruct (negb (isArray _)); [discriminate|].
    destruct (build_call cfg _ _ _) as [call|e].
    - intros _. exists call. reflexivity.
    - unfold finish. cbn [sent].
      destruct (on_error_is_json w e) as (c & b & ->). discriminate. }
  destruct Hc as [call Hc].
  destruct (chat_completions_issued cfg w req_body call Hc) as (_ & Hb & Heq).
  rewrite Heq in H. unfold finish in H. cbn [sent] in H.
  destruct (axios_post w call) as [up|e] eqn:Hpost.
  2: { cbn [bind] in H. destruct (on_error_is_json w e) as (c & b & E).
       rewrite E in H. discriminate. }
  cbn [bind] in H. unfold respond in H.
  destruct (400 <=? status up) eqn:Hs.
  { unfold forward_error in H. destruct (data up) as [v|]; [|discriminate].
    destruct (String.eqb _ _); [discriminate|].
    destruct (ToString _) as [m|e]; cbn [bind] in H; [discriminate|].
    destruct (on_error_is_json w e) as (c & b & E). rewrite E in H.
    discriminate. }
  destruct (nr_stream (call_body call)) eqn:Hstream.
  2: { destruct (openaiResponse cfg w _ (data up)) as [env|e];
         cbn [bind] in H; [discriminate|].
       destruct (on_error_is_json w e) as (c & b & E). rewrite E in H.
       discriminate. }
  destruct (data up) as [v|chunks fin] eqn:Hd.
  { destruct v; simpl in H; discriminate. }
  unfold forward_stream in H. injection H as <- <- <-.
  destruct (build_call_fields _ _ _ _ _ Hb)
    as (r & k & _ & _ & _ & _ & _ & _ & _ & _ & Hflag & _).
  rewrite Hstream in Hflag.
  destruct (FORCE_NO_STREAM cfg); [discriminate|].
  split; [reflexivity|]. split; [apply toBool_true; auto|].
  exists call, up, chunks, fin.
  split; [exact Hc|]. split; [exact Hpost|].
  split; [apply Z.leb_gt, Hs|]. split; [exact Hd|].
  repeat split; reflexivity.
Qed.

Lemma event_stream_only_when_asked_witness :
  let req_body := json "{'model':'gpt-4','messages':[],'stream':1}" in
  let chunks := [ str "data: [DONE]" ++ nl ] in
  let w := answering (Ok {| status := 200; data := Live chunks StreamEnd |}) in
  sent (chat_completions reasoning_off w req_body)
  = EventStream stream_headers [done_frame] true
  /\ FORCE_NO_STREAM reasoning_off = false
  /\ asks_for_stream (opt_member req_body "stream").
Proof.
  intros req_body chunks w.
  assert (H : sent (chat_completions reasoning_off w req_body)
              = EventStream stream_headers [done_frame] true)
    by (vm_compute; reflexivity).
  split; [exact H|].
  destruct (event_stream_only_when_asked reasoning_off w req_body _ _ _ H)
    as (Hf & Ha & _).
  split; [exact Hf | exact Ha].
Defined.

(** ** The merge on text *)

(** X22.  The merge of lines 220-233 on a delta whose reasoning and content
    are text, either of them possibly empty: the opening marker is put
    before the reasoning only when no block is open, the closing marker
    before the content only when one is, and the flag stays open exactly
    after reasoning with no content.  A block is never opened twice nor
    closed without being open. *)
Theorem merge_on_text (started : bool) (r c : jsstring) :
  let opens := negb (JSString.eqb r []) && negb started in
  let open := negb (JSString.eqb r []) || started in
  let closes := negb (JSString.eqb c []) && open in
  merge started (VStr r) (VStr c)
  = (open && JSString.eqb c [],
     Ok (VStr ((if opens then think_open else [])
               ++ r
               ++ (if closes then think_close else [])
               ++ c))).
Proof.
  destruct r as [|r0 r], c as [|c0 c], started; cbv zeta;
    unfold merge, string_plus, plus_string; simpl truthy; simpl JSString.eqb;
    cbn [negb andb orb ToString bind];
    rewrite ?app_nil_r, <- ?app_assoc; reflexivity.
Qed.

(** ** The two paths side by side *)

(** X23.  With the reasoning display on, the same reasoning and content
    are not marked up alike on the two paths: as the delta of a streamed
    frame they come out as the opening marker, the reasoning, the
    closing marker and the content; as the message of a buffered choice
    there is one more newline, between the reasoning and the closing
    marker. *)
Theorem reasoning_markup_differs_between_paths (cfg : config)
  (r c : jsstring) :
  SHOW_REASONING cfg = true ->
  r <> [] ->
  c <> [] ->
  let message := VObj [ (str "reasoning_content", VStr r);
                        (str "content", VStr c) ] in
  exists streamed buffered converted,
    rewrite_delta cfg false message
    = (false, Ok (VObj [ (str "content", VStr streamed) ]))
    /\ convert_choice cfg (VObj [ (str "message", message) ]) 0 = Ok converted
    /\ opt_member (opt_member converted "message") "content" = VStr buffered
    /\ streamed = think_open ++ r ++ think_close ++ c
    /\ buffered = think_open ++ r ++ nl ++ think_close ++ c
    /\ streamed <> buffered.
Proof.
  intros Hon Hr Hc message.
  destruct r as [|r0 r]; [congruence|]. destruct c as [|c0 c]; [congruence|].
  exists (think_open ++ (r0 :: r) ++ think_close ++ c0 :: c),
         (think_open ++ (r0 :: r) ++ nl ++ think_close ++ c0 :: c).
  eexists. split; [|split; [|split; [|split; [|split]]]].
  - unfold rewrite_delta. rewrite Hon. unfold merge, string_plus, plus_string.
    cbn. reflexivity.
  - unfold convert_choice. rewrite Hon. reflexivity.
  - change (VStr ((think_open ++ (r0 :: r) ++ nl ++ think_close) ++ c0 :: c)
            = VStr (think_open ++ (r0 :: r) ++ nl ++ think_close ++ c0 :: c)).
    rewrite <- !app_assoc. reflexivity.
  - reflexivity.
  - reflexivity.
  - intros H. apply app_inv_head in H. apply app_inv_head in H.
    discriminate.
Qed.

Lemma reasoning_markup_differs_between_paths_witness :
  SHOW_REASONING reasoning_on = true
  /\ str "hm" <> []
  /\ str "Hi" <> []
  /\ exists streamed buffered converted,
       rewrite_delta reasoning_on false
         (json "{'reasoning_content':'hm','content':'Hi'}")
       = (false, Ok (VObj [ (str "content", VStr streamed) ]))
       /\ convert_choice reasoning_on
            (json "{'message':{'reasoning_content':'hm','content':'Hi'}}") 0
          = Ok converted
       /\ opt_member (opt_member converted "message") "content" = VStr buffered
       /\ streamed = think_open ++ str "hm" ++ think_close ++ str "Hi"
       /\ buffered = think_open ++ str "hm" ++ nl ++ think_close ++ str "Hi"
       /\ streamed <> buffered.
Proof.
  assert (Hr : str "hm" <> []) by discriminate.
  assert (Hc : str "Hi" <> []) by discriminate.
  split; [reflexivity|]. split; [exact Hr|]. split; [exact Hc|].
  exact (reasoning_markup_differs_between_paths reasoning_on (str "hm")
           (str "Hi") eq_refl Hr Hc).
Defined.

(** ** Configuration from the environment *)

Lemma env_default (env : environment) (name : string) (d : value) :
  env (str name) = None \/ env (str name) = Some [] ->
  or_else (env_value env name) d = d.
Proof.
  unfold or_else, env_value. intros [->| ->]; reflexivity.
Qed.

(** X24.  A variable that is not set, or set to the empty string, takes
    its default: the base URL of NVIDIA, streaming not forced off, a
    timeout of 600000 ms, a body limit of 50mb and port 10000. *)
Theorem unset_or_empty_variables_take_defaults (env : environment) :
  (forall name,
     In name ["NIM_API_BASE"; "FORCE_NO_STREAM"; "AXIOS_TIMEOUT_MS";
              "BODY_LIMIT"; "PORT"]%string ->
     env (str name) = None \/ env (str name) = Some []) ->
  load_config env = Ok (source_config (env_value env "NIM_API_KEY"))
  /\ BODY_LIMIT env = VStr (str "50mb")
  /\ PORT env = VNum (JSNumber.of_Z 10000).
Proof.
  intros H. unfold load_config, force_no_stream, BODY_LIMIT, PORT.
  rewrite !env_default by (apply H; simpl; tauto).
  repeat split.
Qed.

Lemma unset_or_empty_variables_take_defaults_witness :
  let env := environment_of [ ("NIM_API_KEY", "nvapi-key");
                              ("NIM_API_BASE", EmptyString);
                              ("PORT", EmptyString) ]%string in
  load_config env = Ok reasoning_off
  /\ BODY_LIMIT env = VStr (str "50mb")
  /\ PORT env = VNum (JSNumber.of_Z 10000).
Proof.
  intros env.
  refine (unset_or_empty_variables_take_defaults env _).
  intros name H. simpl in H.
  repeat (destruct H as [<-|H]; [vm_compute; auto|]). destruct H.
Defined.

(** X25.  The configuration loads for every environment.  Streaming is
    forced off exactly when FORCE_NO_STREAM is set to [true] in any
    letter case, and by no other value; the key is the variable as it
    is; a timeout variable that is set is read as a number, whatever
    that gives; and no variable turns on the reasoning display or the
    thinking mode. *)
Theorem configuration_from_environment (env : environment) :
  exists cfg,
    load_config env = Ok cfg
    /\ (FORCE_NO_STREAM cfg = true <->
        exists s, env (str "FORCE_NO_STREAM") = Some s
                  /\ toLowerCase s = str "true")
    /\ NIM_API_KEY cfg = env_value env "NIM_API_KEY"
    /\ AXIOS_TIMEOUT_MS cfg
       = match env (str "AXIOS_TIMEOUT_MS") with
         | Some (c :: s) => JSNumber.ofString (c :: s)
         | _ => JSNumber.of_Z 600000
         end
    /\ SHOW_REASONING cfg = false
    /\ ENABLE_THINKING_MODE cfg = false.
Proof.
  unfold load_config, force_no_stream, env_value, or_else.
  destruct (env (str "NIM_API_BASE")) as [[|b0 b]|];
    destruct (env (str "AXIOS_TIMEOUT_MS")) as [[|t0 t]|];
    destruct (env (str "FORCE_NO_STREAM")) as [[|f0 f]|];
    cbn [truthy ToString ToNumber bind]; eexists; (split; [reflexivity|]);
    cbn [FORCE_NO_STREAM NIM_API_KEY AXIOS_TIMEOUT_MS SHOW_REASONING
         ENABLE_THINKING_MODE];
    (split; [|repeat split]);
    try (split; [intros H; vm_compute in H; discriminate
                | intros (s & Hs & Hl); try discriminate;
                  injection Hs as <-; discriminate]);
    (split; [intros H; apply eqb_eq in H; eexists; split; [reflexivity | exact H]
            | intros (s & Hs & Hl); injection Hs as <-; rewrite Hl;
              reflexivity]).
Qed.

(** ** The envelope of a completion *)

(** X26.  Every 200 the chat route gives for a buffered upstream body
    comes from the translation of an answer below 400 to a request that
    did not stream, and is the envelope of six fields: [id] made of
    [chatcmpl-] and the clock, [object] [chat.completion], [created] the
    clock in whole seconds, [model] as the caller sent it, the
    translated [choices], and as [usage] the upstream's when it is
    truthy and three zeros otherwise. *)
Theorem completion_envelope_fields (cfg : config) (w : world)
  (req_body : value) (call : upstream_call) (up : upstream_response)
  (body envelope : value) :
  calls (chat_completions cfg w req_body) = [call] ->
  axios_post w call = Ok up ->
  data up = Buffered body ->
  sent (chat_completions cfg w req_body) = Json 200 (BodyValue envelope) ->
  status up < 400
  /\ nr_stream (call_body call) = false
  /\ exists cs,
       envelope
       = VObj [ (str "id",
                 VStr (str "chatcmpl-" ++ JSString.of_Z (Date_now w 0)));
                (str "object", VStr (str "chat.completion"));
                (str "created", VNum (JSNumber.of_Z (Date_now w 1 / 1000)));
                (str "model", opt_member req_body "model");
                (str "choices", VArr cs);
                (str "usage", or_else (opt_member body "usage") zero_usage) ].
Proof.
  intros Hcalls Hpost Hdata.
  rewrite (answered_from_upstream _ _ _ _ _ Hcalls Hpost).
  unfold respond. destruct (400 <=? status up) eqn:Hs.
  { unfold forward_error. rewrite Hdata.
    destruct (String.eqb (typeof body) "object").
    - intros H. injection H as H _. rewrite H in Hs. discriminate.
    - destruct (ToString _) as [m|e] eqn:Hm; cbn [bind].
      + intros H. injection H as H _. rewrite H in Hs. discriminate.
      + apply ToString_throws in Hm. subst e. discriminate. }
  destruct (nr_stream (call_body call)).
  { rewrite Hdata. destruct body; discriminate. }
  rewrite Hdata.
  destruct (openaiResponse cfg w _ (Buffered body)) as [env|e] eqn:Ho.
  2: { destruct (openaiResponse_throws _ _ _ _ _ Ho) as [f ->]. discriminate. }
  unfold bind. intros H. injection H as <-.
  destruct (openaiResponse_fields _ _ _ _ _ Ho) as (cs & -> & _).
  split; [apply Z.leb_gt, Hs|]. split; [reflexivity|].
  exists cs. reflexivity.
Qed.

Lemma completion_envelope_fields_witness :
  let req_body := json "{'model':'gpt-4o','messages':[]}" in
  let body := json "{'choices':[],'usage':{'total_tokens':9}}" in
  let up := {| status := 200; data := Buffered body |} in
  let w := answering (Ok up) in
  let envelope := json "{'id':'chatcmpl-1700000000123','object':'chat.completion','created':1700000000,'model':'gpt-4o','choices':[],'usage':{'total_tokens':9}}" in
  exists call,
    calls (chat_completions reasoning_off w req_body) = [call]
    /\ axios_post w call = Ok up
    /\ sent (chat_completions reasoning_off w req_body)
       = Json 200 (BodyValue envelope)
    /\ status up < 400
    /\ nr_stream (call_body call) = false.
Proof.
  intros req_body body up w envelope.
  destruct (calls (chat_completions reasoning_off w req_body)) as [|call rest] eqn:E;
    [vm_compute in E; discriminate|].
  destruct rest; [|vm_compute in E; discriminate].
  assert (Hsent : sent (chat_completions reasoning_off w req_body)
                  = Json 200 (BodyValue envelope))
    by (vm_compute; reflexivity).
  exists call. split; [reflexivity|]. split; [reflexivity|].
  split; [exact Hsent|].
  destruct (completion_envelope_fields reasoning_off w req_body call up body
              envelope E eq_refl eq_refl Hsent) as (Hs & Hn & _).
  split; [exact Hs | exact Hn].
Defined.
